(** * Prompt versioning and lifecycle engine

    A shallow embedding of [prompt_manager/app/crud/crud.py], of the two
    tables of [prompt_manager/app/models/prompt.py] and of the endpoints
    of [prompt_manager/app/api/v1/api.py] that create, read, list,
    search, update, activate and delete prompts.

    The SQLAlchemy session is modelled by two copies of the database: the
    committed one, which is what any later request observes, and the
    pending one, which is the view of the running session (identity map
    plus staged rows).  [db.commit()] copies the pending view over the
    committed one, [db.rollback()] and the end of the request drop the
    pending view.  Every statement that reaches the store may fail: a
    fault plan names the store call that raises. *)

From Stdlib Require Import ZArith Ascii String List.
From stdpp Require Import base decidable option list strings pretty gmap.
From stdpp Require Import sorting.

Local Open Scope Z_scope.
Local Open Scope string_scope.
Local Open Scope list_scope.

(** ** Data model ([models/prompt.py], [schemas/prompt.py]) *)

Inductive PromptStatus := DRAFT | ACTIVE | ARCHIVED.

#[global] Instance PromptStatus_eq_dec : EqDecision PromptStatus.
Proof. solve_decision. Defined.

(** [str(prompt.status)]: the column holds the plain strings. *)
Definition status_str (s : PromptStatus) : string :=
  match s with DRAFT => "draft" | ACTIVE => "active" | ARCHIVED => "archived" end.

(** Values of the JSON [metadata] column.  Only [None], booleans,
    integers and strings are represented; the dictionary itself is a
    finite map, so that equality of two dictionaries does not depend on
    the order of their keys, as in Python. *)
Inductive json := JNull | JBool (b : bool) | JNum (n : Z) | JStr (s : string).

#[global] Instance json_eq_dec : EqDecision json.
Proof. solve_decision. Defined.

(** Python's [==] on these values: a boolean is an integer ([True == 1],
    [False == 0]), and values of different kinds are different
    otherwise.  [py_value j] is the value that stands for all values
    equal to [j]. *)
Definition py_value (j : json) : json :=
  match j with
  | JBool b => JNum (if b then 1 else 0)
  | _ => j
  end.

(** [a == b] on dictionaries: the same keys, with equal values. *)
Definition py_eq_dict (a b : gmap string json) : bool :=
  bool_decide (py_value <$> a = py_value <$> b).

(** [new != old], where [old] is a dictionary or [None]. *)
Definition py_ne_metadata (new : gmap string json) (old : option (gmap string json))
  : bool :=
  match old with
  | Some o => negb (py_eq_dict new o)
  | None => true
  end.

Module Prompt.
Record t := mk {
    id : Z;
    name : string;
    version : string;
    content : string;
    description : option string;
    status : PromptStatus;
    is_active : bool;
    tags : option (list string);
    metadata_ : option (gmap string json);
    created_by : string;
    created_at : Z;
    updated_at : Z }.

Definition set_content (v : string) (p : t) : t :=
    mk (id p) (name p) (version p) v (description p) (status p) (is_active p)
       (tags p) (metadata_ p) (created_by p) (created_at p) (updated_at p).
Definition set_description (v : option string) (p : t) : t :=
    mk (id p) (name p) (version p) (content p) v (status p) (is_active p)
       (tags p) (metadata_ p) (created_by p) (created_at p) (updated_at p).
Definition set_status (v : PromptStatus) (p : t) : t :=
    mk (id p) (name p) (version p) (content p) (description p) v (is_active p)
       (tags p) (metadata_ p) (created_by p) (created_at p) (updated_at p).
Definition set_is_active (v : bool) (p : t) : t :=
    mk (id p) (name p) (version p) (content p) (description p) (status p) v
       (tags p) (metadata_ p) (created_by p) (created_at p) (updated_at p).
Definition set_tags (v : option (list string)) (p : t) : t :=
    mk (id p) (name p) (version p) (content p) (description p) (status p)
       (is_active p) v (metadata_ p) (created_by p) (created_at p) (updated_at p).
Definition set_metadata_ (v : option (gmap string json)) (p : t) : t :=
    mk (id p) (name p) (version p) (content p) (description p) (status p)
       (is_active p) (tags p) v (created_by p) (created_at p) (updated_at p).
Definition set_updated_at (v : Z) (p : t) : t :=
    mk (id p) (name p) (version p) (content p) (description p) (status p)
       (is_active p) (tags p) (metadata_ p) (created_by p) (created_at p) v.
End Prompt.

(** A Python value as it appears in the [changes] dictionaries handed to
    the history logger. *)
Inductive pyval :=
  | PNone
  | PStr (s : string)
  | PList (l : list string)
  | PMap (m : gmap string json)
  | POldNew (old new : pyval).       (* {"old": old, "new": new} *)

Definition py_opt_str (o : option string) : pyval :=
  match o with Some s => PStr s | None => PNone end.
Definition py_opt_list (o : option (list string)) : pyval :=
  match o with Some l => PList l | None => PNone end.
Definition py_opt_map (o : option (gmap string json)) : pyval :=
  match o with Some m => PMap m | None => PNone end.

(** The text of [change_reason] is [f"{action}: {changes}"] when [changes]
    is truthy and [action] alone otherwise.  The two shapes are kept
    apart and the dictionary is kept structured instead of printed. *)
Inductive change_reason :=
  | Plain (action : string)
  | Detailed (action : string) (changes : list (string * pyval)).

Definition action_of (r : change_reason) : string :=
  match r with Plain a => a | Detailed a _ => a end.

Module PromptHistory.
Record t := mk {
    id : Z;
    prompt_id : Z;
    version : string;
    content : string;
    description : option string;
    status : PromptStatus;
    tags : option (list string);
    metadata_ : option (gmap string json);
    changed_by : string;
    changed_at : Z;
    change_reason : change_reason }.
End PromptHistory.

Record PromptCreate := {
  pc_name : string;
  pc_content : string;
  pc_description : option string;
  pc_tags : option (list string);
  pc_metadata_ : option (gmap string json);
  pc_version : string }.

Record PromptUpdate := {
  pu_content : option string;
  pu_description : option string;
  pu_tags : option (list string);
  pu_metadata_ : option (gmap string json) }.

(** ** The store and the session *)

Record DB := {
  prompts : list Prompt.t;
  prompt_history : list PromptHistory.t }.

Record Session := {
  committed : DB;
  pending : DB;
  fault : option nat;      (* store calls left before the one that raises *)
  clock : nat -> Z;        (* successive readings of [datetime.utcnow()] *)
  reads : nat }.

Definition open_session (db : DB) (f : option nat) (clk : nat -> Z) : Session :=
  {| committed := db; pending := db; fault := f; clock := clk; reads := 0%nat |}.

Definition with_pending (d : DB) (s : Session) : Session :=
  {| committed := committed s; pending := d; fault := fault s;
     clock := clock s; reads := reads s |}.

Inductive exn :=
  | StoreError                 (* raised by the store itself *)
  | ValueError_exists          (* ValueError("... already exists ...") *)
  | ValueError_database        (* ValueError("Failed to create prompt ...") *)
  | ValueError_literal         (* ValueError of int() or str() *)
  | HTTP (code : nat).         (* fastapi.HTTPException *)

Inductive outcome (A : Type) :=
  | Return (a : A) (s : Session)
  | Raise (e : exn) (s : Session).
Arguments Return {A} a s.
Arguments Raise {A} e s.

Definition final {A} (o : outcome A) : Session :=
  match o with Return _ s => s | Raise _ s => s end.

(** What the next request sees once the session is closed. *)
Definition persisted {A} (o : outcome A) : DB := committed (final o).

Definition M (A : Type) : Type := Session -> outcome A.

#[global] Instance M_ret : MRet M := fun A a s => Return a s.
#[global] Instance M_bind : MBind M := fun A B k m s =>
  match m s with
  | Return a s' => k a s'
  | Raise e s' => Raise e s'
  end.

Definition raise {A} (e : exn) : M A := fun s => Raise e s.

(** [try: m except Exception as e: h e] *)
Definition try_except {A} (m : M A) (h : exn -> M A) : M A := fun s =>
  match m s with
  | Return a s' => Return a s'
  | Raise e s' => h e s'
  end.

(** One round trip to the store.  The plan [Some 0] makes this call raise;
    a plan raises once. *)
Definition store_call : M unit := fun s =>
  match fault s with
  | None => Return tt s
  | Some O =>
      Raise StoreError
        {| committed := committed s; pending := pending s; fault := None;
           clock := clock s; reads := reads s |}
  | Some (S n) =>
      Return tt
        {| committed := committed s; pending := pending s; fault := Some n;
           clock := clock s; reads := reads s |}
  end.

Definition utcnow : M Z := fun s =>
  Return (clock s (reads s))
    {| committed := committed s; pending := pending s; fault := fault s;
       clock := clock s; reads := S (reads s) |}.

Definition get_pending : M DB := fun s => Return (pending s) s.
Definition put_pending (d : DB) : M unit := fun s => Return tt (with_pending d s).

(** [db.query(Prompt).filter(...).first()] *)
Definition query_first (f : Prompt.t -> bool) : M (option Prompt.t) :=
  store_call;; d ← get_pending; mret (List.find f (prompts d)).

Definition db_flush : M unit := store_call.
Definition db_refresh : M unit := store_call.

Definition persist : M unit := fun s =>
  Return tt
    {| committed := pending s; pending := pending s; fault := fault s;
       clock := clock s; reads := reads s |}.

Definition db_commit : M unit := store_call;; persist.

Definition db_rollback : M unit := fun s => Return tt (with_pending (committed s) s).

(** Integer primary keys are SQLite row ids: one more than the largest. *)
Definition next_id (ids : list Z) : Z := 1 + foldr Z.max 0 ids.

Definition has_id (i : Z) (p : Prompt.t) : bool := bool_decide (Prompt.id p = i).

(** Attribute assignments on a loaded object: the row of that identity in
    the session's view. *)
Definition update_row (i : Z) (f : Prompt.t -> Prompt.t) (l : list Prompt.t)
  : list Prompt.t :=
  map (fun p => if has_id i p then f p else p) l.

Definition modify (i : Z) (f : Prompt.t -> Prompt.t) : M unit :=
  d ← get_pending;
  put_pending {| prompts := update_row i f (prompts d);
                 prompt_history := prompt_history d |}.

(** [db.add(Prompt(...))]: the INSERT is staged and reaches the store with
    the next flush; no statement of the functions below runs between the
    two, so the row enters the pending view at once, with the key and the
    column defaults ([created_at], [updated_at]) of that INSERT. *)
Definition add_prompt (mkrow : Z -> Z -> Z -> Prompt.t) : M Prompt.t :=
  d ← get_pending;
  c ← utcnow;
  u ← utcnow;
  let p := mkrow (next_id (map Prompt.id (prompts d))) c u in
  put_pending {| prompts := prompts d ++ [p];
                 prompt_history := prompt_history d |};;
  mret p.

Definition add_history (mkrow : Z -> Z -> PromptHistory.t) : M unit :=
  d ← get_pending;
  t ← utcnow;
  let h := mkrow (next_id (map PromptHistory.id (prompt_history d))) t in
  put_pending {| prompts := prompts d;
                 prompt_history := prompt_history d ++ [h] |}.

(** [db.delete(prompt)]: the relationship [Prompt.history] cascades
    ("all, delete-orphan"), the foreign key is ON DELETE CASCADE. *)
Definition db_delete (i : Z) : M unit :=
  d ← get_pending;
  put_pending
    {| prompts := filter (fun p => Prompt.id p ≠ i) (prompts d);
       prompt_history :=
         filter (fun h => PromptHistory.prompt_id h ≠ i) (prompt_history d) |}.

(** The driver binds integers of 64 bits; for any other it raises
    [OverflowError] before the statement runs, which no handler of the
    endpoints tells from an error of the store. *)
Definition sqlite_int (n : Z) : bool := (- 2 ^ 63 <=? n)%Z && (n <? 2 ^ 63)%Z.

(** [obj.updated_at = datetime.utcnow()] on a loaded object, [loaded]
    being the value the object was loaded with and [dirty] telling
    whether another assignment changes the row.  The flush compares the
    assigned value with the loaded one.  An equal value is no change of
    the attribute: the UPDATE, which [dirty] makes necessary, then
    leaves the column to [onupdate=datetime.utcnow], and the clock is
    read again.  No other reading of the clock lies between the
    assignment and that flush, so the second reading is taken here. *)
Definition assign_updated_at (i : Z) (loaded : Z) (dirty : bool) : M unit :=
  now ← utcnow;
  if (now =? loaded)%Z && dirty
  then t ← utcnow; modify i (Prompt.set_updated_at t)
  else modify i (Prompt.set_updated_at now).

(** ** [crud/crud.py] *)

Abbreviation changes_dict := (list (string * pyval)).

(** [f"{action}: {changes}" if changes else action] *)
Definition reason (action : string) (changes : option changes_dict) : change_reason :=
  match changes with
  | Some (c :: cs) => Detailed action (c :: cs)
  | Some [] | None => Plain action
  end.

Definition _log_prompt_change (prompt_id : Z) (version changed_by action : string)
    (changes : option changes_dict) : M unit :=
  prompt ← query_first (has_id prompt_id);
  match prompt with
  | None => mret tt
  | Some prompt =>
      add_history (fun i t =>
        PromptHistory.mk i prompt_id version
          (Prompt.content prompt) (Prompt.description prompt)
          (Prompt.status prompt) (Prompt.tags prompt) (Prompt.metadata_ prompt)
          changed_by t (reason action changes));;
      db_commit
  end.

(** The key is bound to the statement, which the driver refuses for an
    integer outside 64 bits.  The ids of the table are SQLite row ids
    and so within 64 bits: a look-up that finds a row has bound its key,
    and the look-up for any other integer finds none. *)
Definition get_prompt (prompt_id : Z) : M (option Prompt.t) :=
  prompt ← query_first (has_id prompt_id);
  match prompt with
  | Some prompt => mret (Some prompt)
  | None => if sqlite_int prompt_id then mret None else raise StoreError
  end.

Definition same_version (name version : string) (p : Prompt.t) : bool :=
  bool_decide (Prompt.name p = name) && bool_decide (Prompt.version p = version).

Definition get_prompt_version (name version : string) : M (option Prompt.t) :=
  query_first (same_version name version).

(** The object the caller holds after the session has written to it. *)
Definition reload (db_prompt : Prompt.t) : M Prompt.t :=
  d ← get_pending;
  mret (default db_prompt (List.find (has_id (Prompt.id db_prompt)) (prompts d))).

(** The [except] branch looks for "UNIQUE constraint failed" in the
    message; [models/prompt.py] declares no such constraint and the store
    errors of a fault plan carry no such text, so the handler ends in the
    generic [ValueError]. *)
Definition create_prompt (prompt : PromptCreate) (created_by : string) : M Prompt.t :=
  existing ← get_prompt_version (pc_name prompt) (pc_version prompt);
  match existing with
  | Some _ => raise ValueError_exists
  | None =>
      db_prompt ← add_prompt (fun i c u =>
        Prompt.mk i (pc_name prompt) (pc_version prompt) (pc_content prompt)
          (pc_description prompt) DRAFT false (pc_tags prompt)
          (pc_metadata_ prompt) created_by c u);
      try_except (db_flush;; db_commit)
        (fun _ => db_rollback;; raise ValueError_database);;
      _log_prompt_change (Prompt.id db_prompt) (Prompt.version db_prompt)
        created_by "create" (Some [("status", PStr "draft")]);;
      mret db_prompt
  end.

(** [set(tags or [])] *)
Definition tag_set (o : option (list string)) : gset string :=
  list_to_set (default [] o).

Definition update_prompt (db_prompt : Prompt.t) (prompt_update : PromptUpdate)
    (updated_by : string) : M Prompt.t :=
  let i := Prompt.id db_prompt in
  c1 ← match pu_content prompt_update with
       | Some v =>
           if bool_decide (v ≠ Prompt.content db_prompt)
           then modify i (Prompt.set_content v);;
                mret [("content",
                       POldNew (PStr (Prompt.content db_prompt)) (PStr v))]
           else mret []
       | None => mret []
       end;
  c2 ← match pu_description prompt_update with
       | Some v =>
           if bool_decide (Some v ≠ Prompt.description db_prompt)
           then modify i (Prompt.set_description (Some v));;
                mret [("description",
                       POldNew (py_opt_str (Prompt.description db_prompt)) (PStr v))]
           else mret []
       | None => mret []
       end;
  c3 ← match pu_tags prompt_update with
       | Some v =>
           if bool_decide (tag_set (Some v) ≠ tag_set (Prompt.tags db_prompt))
           then modify i (Prompt.set_tags (Some v));;
                mret [("tags",
                       POldNew (py_opt_list (Prompt.tags db_prompt)) (PList v))]
           else mret []
       | None => mret []
       end;
  c4 ← match pu_metadata_ prompt_update with
       | Some v =>
           if py_ne_metadata v (Prompt.metadata_ db_prompt)
           then modify i (Prompt.set_metadata_ (Some v));;
                mret [("metadata",
                       POldNew (py_opt_map (Prompt.metadata_ db_prompt)) (PMap v))]
           else mret []
       | None => mret []
       end;
  let changes : changes_dict := c1 ++ c2 ++ c3 ++ c4 in
  match changes with
  | [] => mret db_prompt
  | _ :: _ =>
      assign_updated_at i (Prompt.updated_at db_prompt) true;;
      db_commit;;
      db_refresh;;
      _log_prompt_change i (Prompt.version db_prompt) updated_by "update"
        (Some changes);;
      reload db_prompt
  end.

(** The commit inside the logger expires the loaded object, so the two
    assignments below are written by the UPDATE of the last flush
    whatever the values were, and that UPDATE carries
    [onupdate=datetime.utcnow] for [updated_at]. *)
Definition delete_prompt (db_prompt : option Prompt.t) (deleted_by : string) : M bool :=
  match db_prompt with
  | None => mret false
  | Some db_prompt =>
      let i := Prompt.id db_prompt in
      _log_prompt_change i (Prompt.version db_prompt) deleted_by "delete"
        (Some [("status", PStr (status_str (Prompt.status db_prompt)))]);;
      modify i (Prompt.set_status ARCHIVED);;
      modify i (Prompt.set_is_active false);;
      now ← utcnow;
      modify i (Prompt.set_updated_at now);;
      db_commit;;
      mret true
  end.

Definition hard_delete_prompt (db_prompt : Prompt.t) : M bool :=
  try_except
    (db_delete (Prompt.id db_prompt);; db_commit;; mret true)
    (fun _ => db_rollback;; mret false).

Definition other_active (db_prompt : Prompt.t) (p : Prompt.t) : bool :=
  bool_decide (Prompt.name p = Prompt.name db_prompt)
  && Prompt.is_active p
  && bool_decide (Prompt.id p ≠ Prompt.id db_prompt).

(** Whether the assignments [is_active = True] and [status = ACTIVE]
    change the loaded row. *)
Definition needs_activation (db_prompt : Prompt.t) : bool :=
  negb (Prompt.is_active db_prompt) || bool_decide (Prompt.status db_prompt ≠ ACTIVE).

(** The commit inside the logger of the auto-archival expires the
    target: its three assignments are then written as they are.  On a
    target that is still loaded an assignment equal to the loaded value
    is no change. *)
Definition set_active_version (db_prompt : Prompt.t) (updated_by : string)
  : M Prompt.t :=
  let i := Prompt.id db_prompt in
  existing_active ← query_first (other_active db_prompt);
  match existing_active with
  | Some existing_active =>
      let j := Prompt.id existing_active in
      modify j (Prompt.set_status ARCHIVED);;
      modify j (Prompt.set_is_active false);;
      assign_updated_at j (Prompt.updated_at existing_active) true;;
      _log_prompt_change j (Prompt.version existing_active) "system"
        "auto_archived"
        (Some [("status", PStr "active -> archived");
               ("reason",
                PStr (String.append "replaced by v" (Prompt.version db_prompt)))]);;
      modify i (Prompt.set_is_active true);;
      modify i (Prompt.set_status ACTIVE);;
      now ← utcnow;
      modify i (Prompt.set_updated_at now)
  | None =>
      modify i (Prompt.set_is_active true);;
      modify i (Prompt.set_status ACTIVE);;
      assign_updated_at i (Prompt.updated_at db_prompt) (needs_activation db_prompt)
  end;;
  _log_prompt_change i (Prompt.version db_prompt) updated_by
    "set_as_live_version" None;;
  db_commit;;
  db_refresh;;
  reload db_prompt.

(** [ORDER BY version DESC], then [first()]: text columns compare byte by
    byte; among equal keys the earlier row is kept. *)
Definition later_version (best : option Prompt.t) (p : Prompt.t) : option Prompt.t :=
  match best with
  | None => Some p
  | Some b => if String.ltb (Prompt.version b) (Prompt.version p) then Some p else Some b
  end.

Definition has_name (name : string) (p : Prompt.t) : bool :=
  bool_decide (Prompt.name p = name).

Definition latest_by_version (name : string) (l : list Prompt.t) : option Prompt.t :=
  foldl later_version None (List.filter (has_name name) l).

Definition get_latest_prompt_version (name : string) : M (option Prompt.t) :=
  store_call;; d ← get_pending; mret (latest_by_version name (prompts d)).

(** [ORDER BY created_at DESC], then [first()]. *)
Definition later_created (best : option Prompt.t) (p : Prompt.t) : option Prompt.t :=
  match best with
  | None => Some p
  | Some b => if (Prompt.created_at b <? Prompt.created_at p)%Z then Some p else Some b
  end.

Definition latest_by_creation (name : string) (l : list Prompt.t) : option Prompt.t :=
  foldl later_created None (List.filter (has_name name) l).

Definition get_latest_prompt (name : string) : M (option Prompt.t) :=
  store_call;; d ← get_pending; mret (latest_by_creation name (prompts d)).

Definition get_active_prompt (name : string) : M (option Prompt.t) :=
  query_first (fun p => has_name name p && Prompt.is_active p).

(** The placeholder of line 455: no query, always [False]. *)
Definition is_prompt_referenced (prompt_id : Z) : M bool := mret false.

(** ** Listings

    [ORDER BY key DESC]: the rows by falling key.  SQL leaves the order
    among rows of equal key open; here they stay in table order, and no
    statement about a listing depends on that choice. *)
Fixpoint insert_desc {A} (key : A -> Z) (x : A) (l : list A) : list A :=
  match l with
  | [] => [x]
  | y :: l' => if (key y <=? key x)%Z then x :: l else y :: insert_desc key x l'
  end.

Definition order_by_desc {A} (key : A -> Z) (l : list A) : list A :=
  foldr (insert_desc key) [] l.

(** [.offset(skip).limit(limit)]: SQLite reads a negative OFFSET as 0 and
    a negative LIMIT as no limit. *)
Definition offset_limit {A} (skip limit : Z) (l : list A) : list A :=
  let rest := drop (Z.to_nat skip) l in
  if (limit <? 0)%Z then rest else take (Z.to_nat limit) rest.

(** [query.count()] *)
Definition query_count {A} (table : DB -> list A) (f : A -> bool) : M nat :=
  store_call;; d ← get_pending; mret (length (List.filter f (table d))).

(** [query.order_by(key.desc()).offset(skip).limit(limit).all()] *)
Definition query_page {A} (table : DB -> list A) (f : A -> bool) (key : A -> Z)
    (skip limit : Z) : M (list A) :=
  if sqlite_int skip && sqlite_int limit then
    store_call;; d ← get_pending;
    mret (offset_limit skip limit (order_by_desc key (List.filter f (table d))))
  else raise StoreError.

Definition get_prompt_versions (name : string) (skip limit : Z)
  : M (list Prompt.t * nat) :=
  total ← query_count prompts (has_name name);
  page ← query_page prompts (has_name name) Prompt.created_at skip limit;
  mret (page, total).

Definition of_prompt (prompt_id : Z) (h : PromptHistory.t) : bool :=
  bool_decide (PromptHistory.prompt_id h = prompt_id).

Definition get_prompt_history (prompt_id : Z) (skip limit : Z)
  : M (list PromptHistory.t * nat) :=
  total ← query_count prompt_history (of_prompt prompt_id);
  page ← query_page prompt_history (of_prompt prompt_id) PromptHistory.changed_at
            skip limit;
  mret (page, total).

(** ** Python's [str.split], [int] and [str] on version strings

    A text is held as the bytes of its UTF-8 encoding, in which SQLite
    stores and compares it; [split] at the ASCII dot and the
    concatenations work on these bytes as on the characters.

    [int] of a text that is not all ASCII first maps it to ASCII
    ([_PyUnicode_TransformDecimalAndSpaceToASCII]): a character below
    127 stays, white space becomes a blank, a decimal digit becomes the
    ASCII digit of its value, and any other character ends the literal
    with an error.  Then the base-10 parser of CPython reads the ASCII
    text ([PyLong_FromString]): surrounding ASCII white space is
    dropped, one sign is allowed, single underscores may separate
    digits, and a literal of more than 4300 digits is refused (the
    default of [sys.set_int_max_str_digits]), as is [str] of such a
    number. *)

(** Which characters from code point 127 on are white space, and which
    are decimal digits of which value, is in the Unicode database of
    the interpreter and not in the repository. *)
Class UnicodeData := {
  Py_UNICODE_ISSPACE : N -> bool;
  Py_UNICODE_TODECIMAL : N -> option N }.

(** [PyUnicode_IS_ASCII] *)
Fixpoint is_ascii (s : string) : bool :=
  match s with
  | EmptyString => true
  | String c s' => (N_of_ascii c <? 128)%N && is_ascii s'
  end.

(** The six payload bits of a continuation byte [10xxxxxx]. *)
Definition continuation (b : ascii) : option N :=
  let n := N_of_ascii b in
  if (128 <=? n)%N && (n <? 192)%N then Some (n - 128)%N else None.

(** The characters of a text, as code points, from its UTF-8 encoding;
    [None] for bytes that encode no text (a stray or missing
    continuation byte, an encoding longer than needed, a surrogate, a
    code point above 0x10FFFF). *)
Fixpoint code_points (s : string) : option (list N) :=
  match s with
  | EmptyString => Some []
  | String b0 s1 =>
      let n := N_of_ascii b0 in
      if (n <? 128)%N then cons n <$> code_points s1
      else if (n <? 192)%N then None
      else if (n <? 224)%N then
        match s1 with
        | String b1 s2 =>
            c1 ← continuation b1;
            let ch := ((n - 192) * 64 + c1)%N in
            if (ch <? 128)%N then None else cons ch <$> code_points s2
        | _ => None
        end
      else if (n <? 240)%N then
        match s1 with
        | String b1 (String b2 s3) =>
            c1 ← continuation b1;
            c2 ← continuation b2;
            let ch := ((n - 224) * 4096 + c1 * 64 + c2)%N in
            if (ch <? 2048)%N || ((55296 <=? ch)%N && (ch <? 57344)%N) then None
            else cons ch <$> code_points s3
        | _ => None
        end
      else if (n <? 248)%N then
        match s1 with
        | String b1 (String b2 (String b3 s4)) =>
            c1 ← continuation b1;
            c2 ← continuation b2;
            c3 ← continuation b3;
            let ch := ((n - 240) * 262144 + c1 * 4096 + c2 * 64 + c3)%N in
            if (ch <? 65536)%N || (1114112 <=? ch)%N then None
            else cons ch <$> code_points s4
        | _ => None
        end
      else None
  end.

(** The loop of [_PyUnicode_TransformDecimalAndSpaceToASCII]; [None]
    stands for the question mark that ends the text, which no literal
    survives. *)
Fixpoint transform_decimal_and_space {U : UnicodeData} (chs : list N) : option string :=
  match chs with
  | [] => Some EmptyString
  | ch :: chs' =>
      c ← (if (ch <? 127)%N then Some (ascii_of_N ch)
           else if Py_UNICODE_ISSPACE ch then Some " "%char
           else d ← Py_UNICODE_TODECIMAL ch; Some (ascii_of_N (48 + d)));
      String c <$> transform_decimal_and_space chs'
  end.

Definition dot : ascii := "."%char.

(** [s.split('.')] *)
Fixpoint split_dot (s : string) : list string :=
  match s with
  | EmptyString => [EmptyString]
  | String c s' =>
      if Ascii.eqb c dot then EmptyString :: split_dot s'
      else match split_dot s' with
           | h :: t => String c h :: t
           | [] => [String c EmptyString]
           end
  end.

Definition is_py_space (c : ascii) : bool :=
  let n := N_of_ascii c in
  (n =? 32)%N || ((9 <=? n)%N && (n <=? 13)%N).

Definition digit_of (c : ascii) : option Z :=
  let n := Z.of_N (N_of_ascii c) in
  if (48 <=? n)%Z && (n <=? 57)%Z then Some (n - 48) else None.

Fixpoint lstrip (s : string) : string :=
  match s with
  | EmptyString => EmptyString
  | String c s' => if is_py_space c then lstrip s' else s
  end.

Fixpoint rstrip (s : string) : string :=
  match s with
  | EmptyString => EmptyString
  | String c s' =>
      match rstrip s' with
      | EmptyString => if is_py_space c then EmptyString else String c EmptyString
      | r => String c r
      end
  end.

(** Digits with single underscores between them; [prev] tells whether the
    previous character was a digit.  Returns the value and the number of
    digits read. *)
Fixpoint digits (acc : Z) (count : nat) (prev : bool) (s : string) : option (Z * nat) :=
  match s with
  | EmptyString => if prev then Some (acc, count) else None
  | String c s' =>
      match digit_of c with
      | Some d => digits (10 * acc + d) (S count) true s'
      | None =>
          if Ascii.eqb c "_"%char && prev then digits acc count false s' else None
      end
  end.

Definition max_str_digits : nat := 4300.

Definition unsigned_literal (s : string) : option Z :=
  match digits 0 0 false s with
  | Some (v, n) => if (max_str_digits <? n)%nat then None else Some v
  | None => None
  end.

(** [PyLong_FromString] in base 10 on ASCII text; [None] stands for the
    [ValueError]. *)
Definition long_from_string (s : string) : option Z :=
  match rstrip (lstrip s) with
  | String "+" r => unsigned_literal r
  | String "-" r => Z.opp <$> unsigned_literal r
  | t => unsigned_literal t
  end.

(** [int(s)]; [None] stands for the [ValueError].  An ASCII text is
    parsed as it is. *)
Definition py_int {U : UnicodeData} (s : string) : option Z :=
  if is_ascii s then long_from_string s
  else
    chs ← code_points s;
    text ← transform_decimal_and_space chs;
    long_from_string text.

(** [str(n)]; [None] stands for the [ValueError] of the digit limit. *)
Definition py_str (n : Z) : option string :=
  if (max_str_digits <? String.length (pretty (Z.abs n)))%nat then None
  else Some (pretty n).

(** Lines 1033-1041 of [api.py]. *)
Definition next_version {U : UnicodeData} (current_version : string) : option string :=
  match split_dot current_version with
  | [major; minor; patch] =>
      n ← py_int patch;
      new_patch ← py_str (n + 1);
      Some (String.append major
             (String.append "." (String.append minor (String.append "." new_patch))))
  | _ => Some (String.append current_version ".1")
  end.

(** ** Endpoints of [api/v1/api.py] and [api/v1/set_active_version.py] *)

(** [except HTTPException: raise] followed by
    [except Exception: raise HTTPException(500)] *)
Definition http_guard {A} (m : M A) : M A :=
  try_except m (fun e =>
    match e with HTTP c => raise (HTTP c) | _ => raise (HTTP 500) end).

(** [api.py], [POST /name/{name}/version/{version}/activate]: a single
    [except Exception] wraps the body, the 404 included. *)
Definition api_set_active_version (name version current_user : string) : M Prompt.t :=
  try_except
    (prompt ← get_prompt_version name version;
     match prompt with
     | None => raise (HTTP 404)
     | Some prompt =>
         if Prompt.is_active prompt then mret prompt
         else set_active_version prompt current_user
     end)
    (fun _ => raise (HTTP 500)).

(** [schemas.PromptResponse] *)
Record PromptResponse := {
  pr_name : string;
  pr_content : string;
  pr_description : option string;
  pr_status : PromptStatus;
  pr_is_active : bool;
  pr_tags : list string;
  pr_metadata_ : gmap string json;
  pr_id : Z;
  pr_version : string;
  pr_created_by : string;
  pr_created_at : Z;
  pr_updated_at : Z }.


(** [convert_prompt_to_response] of [set_active_version.py], lines
    27-42.  Its last keyword is [metadata], which is no field of the
    schema: pydantic drops it, and the field [metadata_] takes its
    default, the empty dictionary. *)
Definition router_convert_prompt_to_response (prompt : Prompt.t) : PromptResponse :=
  {| pr_id := Prompt.id prompt;
     pr_name := Prompt.name prompt;
     pr_version := Prompt.version prompt;
     pr_content := Prompt.content prompt;
     pr_description := Prompt.description prompt;
     pr_created_at := Prompt.created_at prompt;
     pr_updated_at := Prompt.updated_at prompt;
     pr_created_by := Prompt.created_by prompt;
     pr_status := Prompt.status prompt;
     pr_is_active := Prompt.is_active prompt;
     pr_tags := default [] (Prompt.tags prompt);
     pr_metadata_ := ∅ |}.

(** [set_active_version.py]: the same body, [PromptNotFoundError] (a 404)
    is re-raised as it is, and the answer is built by the converter of
    that file. *)
Definition router_set_active_version (name version updated_by : string)
  : M PromptResponse :=
  http_guard
    (prompt ← get_prompt_version name version;
     match prompt with
     | None => raise (HTTP 404)
     | Some prompt =>
         if Prompt.is_active prompt
         then mret (router_convert_prompt_to_response prompt)
         else
           updated_prompt ← set_active_version prompt updated_by;
           mret (router_convert_prompt_to_response updated_prompt)
     end).

(** The [PromptCreate] built at lines 1044-1051 of [api.py]. *)
Definition new_prompt_data (base_prompt latest_version : Prompt.t)
    (update_data : PromptUpdate) (new_version : string) : PromptCreate :=
  {| pc_name := Prompt.name base_prompt;
     pc_version := new_version;
     pc_content := default (Prompt.content latest_version) (pu_content update_data);
     pc_description :=
       match pu_description update_data with
       | Some v => Some v
       | None => Prompt.description latest_version
       end;
     pc_tags :=
       Some (default (default [] (Prompt.tags latest_version)) (pu_tags update_data));
     pc_metadata_ :=
       Some (default (default ∅ (Prompt.metadata_ latest_version))
                     (pu_metadata_ update_data)) |}.

(** [api.py], [POST /{prompt_id}/update-version] *)
Definition update_with_auto_version {U : UnicodeData} (prompt_id : Z)
    (update_data : PromptUpdate) (current_user : string) : M Prompt.t :=
  http_guard
    (base_prompt ← get_prompt prompt_id;
     match base_prompt with
     | None => raise (HTTP 404)
     | Some base_prompt =>
         latest ← get_latest_prompt_version (Prompt.name base_prompt);
         let latest_version := default base_prompt latest in
         match next_version (Prompt.version latest_version) with
         | None => raise ValueError_literal
         | Some new_version =>
             create_prompt
               (new_prompt_data base_prompt latest_version update_data new_version)
               current_user
         end
     end).

(** ** Further endpoints of [api/v1/api.py]

    The handlers registered in [main.py] answer a [PromptError] with its
    status code: 404 for [PromptNotFoundError], 409 for
    [PromptVersionExistsError], 422 for [PromptValidationError] and 400
    for a plain [PromptError].  The endpoints return the row; its
    conversion to the response record by
    [api_convert_prompt_to_response], which keeps every column, is left
    out. *)

(** [POST /]: a [ValueError] is told apart by its text, any other
    exception becomes a plain [PromptError]. *)
Definition api_create_prompt (prompt_in : PromptCreate) (current_user : string)
  : M Prompt.t :=
  try_except (create_prompt prompt_in current_user)
    (fun e =>
       match e with
       | ValueError_exists => raise (HTTP 409)
       | ValueError_database | ValueError_literal => raise (HTTP 422)
       | StoreError | HTTP _ => raise (HTTP 400)
       end).

(** The reading endpoints share one shape: the query, 404 without a
    row, 500 for any other exception. *)
Definition found_or_404 (query : M (option Prompt.t)) : M Prompt.t :=
  http_guard
    (prompt ← query;
     match prompt with
     | None => raise (HTTP 404)
     | Some prompt => mret prompt
     end).

(** [GET /{prompt_id}] *)
Definition read_prompt (prompt_id : Z) : M Prompt.t :=
  found_or_404 (get_prompt prompt_id).

(** [GET /name/{name}/version/{version}] *)
Definition read_prompt_by_name_version (name version : string) : M Prompt.t :=
  found_or_404 (get_prompt_version name version).

(** [GET /name/{name}/latest] *)
Definition read_latest_prompt (name : string) : M Prompt.t :=
  found_or_404 (get_latest_prompt name).

(** [PUT /{prompt_id}] *)
Definition api_update_prompt (prompt_id : Z) (prompt_in : PromptUpdate)
    (current_user : string) : M Prompt.t :=
  http_guard
    (db_prompt ← get_prompt prompt_id;
     match db_prompt with
     | None => raise (HTTP 404)
     | Some db_prompt => update_prompt db_prompt prompt_in current_user
     end).

(** [GET /name/{name}/live] *)
Definition read_live_prompt (name : string) : M Prompt.t :=
  http_guard
    (prompt ← get_active_prompt name;
     match prompt with
     | None => raise (HTTP 404)
     | Some prompt => mret prompt
     end).

(** [DELETE /{prompt_id}]: the results of [hard_delete_prompt] and of
    [delete_prompt] are dropped, the answer is 204 (here: the endpoint
    returns). *)
Definition api_delete_prompt (prompt_id : Z) (force : bool) (current_user : string)
  : M unit :=
  http_guard
    (prompt ← get_prompt prompt_id;
     match prompt with
     | None => raise (HTTP 404)
     | Some prompt =>
         referenced ← (if force then mret false else is_prompt_referenced prompt_id);
         if referenced : bool then raise (HTTP 400)
         else if force then hard_delete_prompt prompt;; mret tt
         else delete_prompt (Some prompt) current_user;; mret tt
     end).

Record PromptVersionInfo := {
  vi_id : Z;
  vi_version : string;
  vi_status : PromptStatus;
  vi_created_at : Z;
  vi_created_by : string;
  vi_updated_at : Z;
  vi_is_active : bool;
  vi_description : option string }.

Definition version_info (p : Prompt.t) : PromptVersionInfo :=
  {| vi_id := Prompt.id p; vi_version := Prompt.version p;
     vi_status := Prompt.status p; vi_created_at := Prompt.created_at p;
     vi_created_by := Prompt.created_by p; vi_updated_at := Prompt.updated_at p;
     vi_is_active := Prompt.is_active p; vi_description := Prompt.description p |}.

(** [GET /name/{name}/versions]: the items and the [X-Total-Count]
    header.  The declarations [skip: ge=0] and [limit: le=1000] are
    checked before the body runs, a violation is answered 422; [limit]
    has no lower bound. *)
Definition list_prompt_versions (name : string) (skip limit : Z)
  : M (list PromptVersionInfo * nat) :=
  if (skip <? 0)%Z || (1000 <? limit)%Z then raise (HTTP 422)
  else
    http_guard
      (prompt_exists ← query_first (has_name name);
       match prompt_exists with
       | None => raise (HTTP 404)
       | Some _ =>
           r ← get_prompt_versions name skip limit;
           mret (map version_info r.1, r.2)
       end).

(** [GET /{prompt_id}/history]: the rows and the [X-Total-Count]
    header, under the same declarations for [skip] and [limit]. *)
Definition api_get_prompt_history (prompt_id : Z) (skip limit : Z)
  : M (list PromptHistory.t * nat) :=
  if (skip <? 0)%Z || (1000 <? limit)%Z then raise (HTTP 422)
  else
    http_guard
      (prompt ← get_prompt prompt_id;
       match prompt with
       | None => raise (HTTP 404)
       | Some _ => get_prompt_history prompt_id skip limit
       end).

(** ** Search ([crud.search_prompts] and [GET /])

    The text filters are evaluated by SQLite.  Its [LIKE] on text, on
    which SQLAlchemy builds [ilike] as [lower(x) LIKE lower(pattern)],
    and the JSON text that [json_extract(tags, '$')] yields for the tags
    column are taken as they come: the search is defined for any such
    functions. *)
Section Search.
Variable sql_like : string -> string -> bool.          (* value, pattern *)
Variable sql_ilike : string -> string -> bool.         (* value, pattern *)
Variable tags_json : option (list string) -> option string.   (* NULL is None *)

Definition double_quote : ascii := ascii_of_nat 34.

(** [f"%{query}%"] *)
Definition search_pattern (query : string) : string :=
  String.append "%" (String.append query "%").

(** [f'%"{tag}"%'] *)
Definition tag_pattern (tag : string) : string :=
  String.append "%"
    (String double_quote (String.append tag (String double_quote "%"))).

(** The [or_] of the three [ilike]: a NULL description does not match. *)
Definition matches_query (query : string) (p : Prompt.t) : bool :=
  sql_ilike (Prompt.name p) (search_pattern query)
  || sql_ilike (Prompt.content p) (search_pattern query)
  || match Prompt.description p with
     | Some d => sql_ilike d (search_pattern query)
     | None => false
     end.

Definition has_tag (tag : string) (p : Prompt.t) : bool :=
  match tags_json (Prompt.tags p) with
  | Some j => sql_like j (tag_pattern tag)
  | None => false
  end.

(** A filter is applied when its argument is truthy: a status, or a
    string that is not empty. *)
Definition when_given (o : option string) (f : string -> bool) : bool :=
  match o with
  | Some v => if bool_decide (v = "") then true else f v
  | None => true
  end.

Definition search_filter (query : string) (status : option PromptStatus)
    (tag created_by : option string) (p : Prompt.t) : bool :=
  when_given (Some query) (fun q => matches_query q p)
  && match status with
     | Some st => bool_decide (Prompt.status p = st)
     | None => true
     end
  && when_given tag (fun t => has_tag t p)
  && when_given created_by (fun c => bool_decide (Prompt.created_by p = c)).

Definition search_prompts (query : string) (status : option PromptStatus)
    (tag created_by : option string) (skip limit : Z) : M (list Prompt.t * nat) :=
  total ← query_count prompts (search_filter query status tag created_by);
  page ← query_page prompts (search_filter query status tag created_by)
            Prompt.updated_at skip limit;
  mret (page, total).

Record PaginatedResponse := {
  items : list Prompt.t;
  total : Z;
  page : Z;
  size : Z;
  pages : Z }.

(** [GET /].  [limit] is declared with [le=1000] only.  The divisions
    are floor divisions and raise [ZeroDivisionError] for [limit = 0].
    Every exception of the body is answered 500: the [except] clause
    means to raise the 500 itself, its [status] is the query parameter
    of that name, and the handler of [main.py] for [Exception] answers
    500 for the error that results. *)
Definition api_search_prompts (skip limit : Z) (query : option string)
    (status : option PromptStatus) (tag created_by : option string)
  : M PaginatedResponse :=
  if (skip <? 0)%Z || (1000 <? limit)%Z then raise (HTTP 422)
  else
    try_except
      (r ← search_prompts (default "" query) status tag created_by skip limit;
       if (limit =? 0)%Z then raise (HTTP 500)
       else
         mret {| items := r.1;
                 total := Z.of_nat r.2;
                 page := skip `div` limit + 1;
                 size := Z.of_nat (length r.1);
                 pages := (Z.of_nat r.2 + limit - 1) `div` limit |})
      (fun _ => raise (HTTP 500)).
End Search.




(** ** Requests

    One request per engine operation, each in a session of its own, as
    [get_db] provides it; the endpoints load the object by primary key
    and answer 404 without it. *)
Inductive op :=
  | Op_create (prompt : PromptCreate) (created_by : string)
  | Op_update (prompt_id : Z) (prompt_update : PromptUpdate) (updated_by : string)
  | Op_set_active (prompt_id : Z) (updated_by : string)
  | Op_delete (prompt_id : Z) (deleted_by : string)
  | Op_hard_delete (prompt_id : Z).

Definition with_prompt {A} (prompt_id : Z) (k : Prompt.t -> M A) : M A :=
  p ← get_prompt prompt_id;
  match p with
  | None => raise (HTTP 404)
  | Some p => k p
  end.

Definition perform (o : op) : M unit :=
  match o with
  | Op_create prompt created_by => create_prompt prompt created_by;; mret tt
  | Op_update i u updated_by =>
      with_prompt i (fun p => update_prompt p u updated_by;; mret tt)
  | Op_set_active i updated_by =>
      with_prompt i (fun p => set_active_version p updated_by;; mret tt)
  | Op_delete i deleted_by =>
      with_prompt i (fun p => delete_prompt (Some p) deleted_by;; mret tt)
  | Op_hard_delete i =>
      with_prompt i (fun p => hard_delete_prompt p;; mret tt)
  end.

(** A request: the operation, the store call that fails (if any) and the
    clock readings of that request. *)
Record request := {
  rq_op : op;
  rq_fault : option nat;
  rq_clock : nat -> Z }.

Definition serve (r : request) (db : DB) : DB :=
  persisted (perform (rq_op r) (open_session db (rq_fault r) (rq_clock r))).

(** The committed states after each request of a sequence. *)
Fixpoint serve_all (rs : list request) (db : DB) : list DB :=
  match rs with
  | [] => []
  | r :: rs' => let db' := serve r db in db' :: serve_all rs' db'
  end.

Arguments update_row : simpl never.
Arguments next_id : simpl never.
Arguments tag_set : simpl never.
Arguments latest_by_version : simpl never.
Arguments next_version : simpl never.

(** * Vocabulary of the statements

    Pure descriptions of what the operations above leave in the store:
    the table after each commit of an operation (its stages), the
    invariants, and the sample data of the examples. *)

(** ** Tables *)

Definition lookup_prompt (i : Z) (d : DB) : option Prompt.t :=
  List.find (has_id i) (prompts d).

(** The table after [f] was applied to the row of key [i]. *)
Definition pure_modify (i : Z) (f : Prompt.t -> Prompt.t) (d : DB) : DB :=
  {| prompts := update_row i f (prompts d); prompt_history := prompt_history d |}.

(** The history row the logger builds from its snapshot [q] of the
    prompt, in table [d], at time [t]. *)
Definition log_entry (d : DB) (q : Prompt.t) (prompt_id : Z)
    (version changed_by : string) (t : Z) (r : change_reason) : PromptHistory.t :=
  PromptHistory.mk (next_id (map PromptHistory.id (prompt_history d)))
    prompt_id version (Prompt.content q) (Prompt.description q) (Prompt.status q)
    (Prompt.tags q) (Prompt.metadata_ q) changed_by t r.

Definition logged (d : DB) (h : PromptHistory.t) : DB :=
  {| prompts := prompts d; prompt_history := prompt_history d ++ [h] |}.

(** The table after one call of the logger. *)
Definition log_stage (d : DB) (prompt_id : Z) (version changed_by : string)
    (t : Z) (r : change_reason) : DB :=
  match lookup_prompt prompt_id d with
  | Some q => logged d (log_entry d q prompt_id version changed_by t r)
  | None => d
  end.

Definition inserted (d : DB) (row : Prompt.t) : DB :=
  {| prompts := prompts d ++ [row]; prompt_history := prompt_history d |}.

(** The table without the version of key [i] and without the history
    rows that refer to it. *)
Definition deleted (i : Z) (d : DB) : DB :=
  {| prompts := filter (fun p => Prompt.id p ≠ i) (prompts d);
     prompt_history :=
       filter (fun h => PromptHistory.prompt_id h ≠ i) (prompt_history d) |}.

Definition keeps_id (f : Prompt.t -> Prompt.t) : Prop :=
  forall p, Prompt.id (f p) = Prompt.id p.

Definition keeps_live (f : Prompt.t -> Prompt.t) : Prop :=
  forall p, Prompt.name (f p) = Prompt.name p /\
            Prompt.is_active (f p) = Prompt.is_active p.

(** ** Weakest preconditions

    [wp m Q E s]: run from [s], [m] either returns [a] in a session that
    satisfies [Q a], or raises [e] in a session that satisfies [E e]. *)

Definition wp {A} (m : M A) (Q : A -> Session -> Prop)
    (E : exn -> Session -> Prop) (s : Session) : Prop :=
  match m s with
  | Return a s' => Q a s'
  | Raise e s' => E e s'
  end.

Definition set_fault (f : option nat) (s : Session) : Session :=
  {| committed := committed s; pending := pending s; fault := f;
     clock := clock s; reads := reads s |}.

(** Whatever the fault plan, a request stops with one of its stages
    committed; with no fault it reaches the last one. *)
Definition stops_in (stages : list DB) (s s' : Session) : Prop :=
  In (committed s') stages /\ (fault s = None -> Some (committed s') = last stages).

(** ** The stages of an activation

    [set_active_version] commits twice when another version of the name
    is live: once inside the logger of the auto-archival, once inside the
    logger of the activation. *)

Definition archive_row (t : Z) : Prompt.t -> Prompt.t :=
  Prompt.set_updated_at t ∘ Prompt.set_is_active false ∘ Prompt.set_status ARCHIVED.

Definition activate_row (t : Z) : Prompt.t -> Prompt.t :=
  Prompt.set_updated_at t ∘ Prompt.set_status ACTIVE ∘ Prompt.set_is_active true.

Definition auto_archived_reason (db_prompt : Prompt.t) : change_reason :=
  Detailed "auto_archived"
    [("status", PStr "active -> archived");
     ("reason", PStr (String.append "replaced by v" (Prompt.version db_prompt)))].

Definition archived_stage (d : DB) (existing_active db_prompt : Prompt.t)
    (t_row t_log : Z) : DB :=
  log_stage (pure_modify (Prompt.id existing_active) (archive_row t_row) d)
    (Prompt.id existing_active) (Prompt.version existing_active) "system" t_log
    (auto_archived_reason db_prompt).

Definition live_stage (d : DB) (db_prompt : Prompt.t) (updated_by : string)
    (t_row t_log : Z) : DB :=
  log_stage (pure_modify (Prompt.id db_prompt) (activate_row t_row) d)
    (Prompt.id db_prompt) (Prompt.version db_prompt) updated_by t_log
    (Plain "set_as_live_version").

(** What [assign_updated_at] stores after [r] readings of the clock, and
    the number of readings after it: the reading assigned, or the next
    one when the assigned value is the loaded one and the row is
    written. *)
Definition stamp (clk : nat -> Z) (r : nat) (loaded : Z) (dirty : bool) : Z * nat :=
  if (clk r =? loaded)%Z && dirty then (clk (S r), S (S r)) else (clk r, S r).

Arguments stamp : simpl never.

(** The committed states an activation can leave behind, in the order in
    which it reaches them; [r] counts the clock readings made so far. *)
Definition activation_stages (d : DB) (db_prompt : Prompt.t) (updated_by : string)
    (clk : nat -> Z) (r : nat) : list DB :=
  match List.find (other_active db_prompt) (prompts d) with
  | Some existing_active =>
      let st := stamp clk r (Prompt.updated_at existing_active) true in
      let a := archived_stage d existing_active db_prompt (fst st) (clk (snd st)) in
      [d; a;
       live_stage a db_prompt updated_by (clk (S (snd st))) (clk (S (S (snd st))))]
  | None =>
      let st := stamp clk r (Prompt.updated_at db_prompt)
                  (needs_activation db_prompt) in
      [d; live_stage d db_prompt updated_by (fst st) (clk (snd st))]
  end.

(** ** The stages of a creation *)

Definition created_row (d : DB) (prompt : PromptCreate) (created_by : string)
    (t_created t_updated : Z) : Prompt.t :=
  Prompt.mk (next_id (map Prompt.id (prompts d))) (pc_name prompt)
    (pc_version prompt) (pc_content prompt) (pc_description prompt) DRAFT false
    (pc_tags prompt) (pc_metadata_ prompt) created_by t_created t_updated.

Definition create_reason : change_reason :=
  Detailed "create" [("status", PStr "draft")].

Definition create_entry (d : DB) (row : Prompt.t) (created_by : string) (t : Z)
  : PromptHistory.t :=
  log_entry (inserted d row) row (Prompt.id row) (Prompt.version row) created_by t
    create_reason.

Definition creation_stages (d : DB) (prompt : PromptCreate) (created_by : string)
    (clk : nat -> Z) (r : nat) : list DB :=
  match List.find (same_version (pc_name prompt) (pc_version prompt)) (prompts d) with
  | Some _ => [d]
  | None =>
      let row := created_row d prompt created_by (clk r) (clk (S r)) in
      [d; inserted d row;
       logged (inserted d row) (create_entry d row created_by (clk (S (S r))))]
  end.

(** ** The stages of an update *)

(** The value one block of [update_prompt] assigns, if it assigns one:
    the field is supplied and passes the block's comparison. *)
Definition tracked {V} (supplied : option V) (changed : V -> bool) : option V :=
  match supplied with
  | Some v => if changed v then Some v else None
  | None => None
  end.

Definition assign {V} (o : option V) (set : V -> Prompt.t -> Prompt.t)
  : Prompt.t -> Prompt.t :=
  match o with Some v => set v | None => fun p => p end.

Definition entry_of {V} (o : option V) (entry : V -> string * pyval) : changes_dict :=
  match o with Some v => [entry v] | None => [] end.

Definition new_content (p : Prompt.t) (u : PromptUpdate) : option string :=
  tracked (pu_content u) (fun v => bool_decide (v ≠ Prompt.content p)).

Definition new_description (p : Prompt.t) (u : PromptUpdate) : option string :=
  tracked (pu_description u) (fun v => bool_decide (Some v ≠ Prompt.description p)).

Definition new_tags (p : Prompt.t) (u : PromptUpdate) : option (list string) :=
  tracked (pu_tags u)
    (fun v => bool_decide (tag_set (Some v) ≠ tag_set (Prompt.tags p))).

Definition new_metadata (p : Prompt.t) (u : PromptUpdate) : option (gmap string json) :=
  tracked (pu_metadata_ u) (fun v => py_ne_metadata v (Prompt.metadata_ p)).

(** The dictionary [changes] when line 236 tests it. *)
Definition changes_of (p : Prompt.t) (u : PromptUpdate) : changes_dict :=
  entry_of (new_content p u)
    (fun v => ("content", POldNew (PStr (Prompt.content p)) (PStr v)))
  ++ entry_of (new_description p u)
    (fun v => ("description", POldNew (py_opt_str (Prompt.description p)) (PStr v)))
  ++ entry_of (new_tags p u)
    (fun v => ("tags", POldNew (py_opt_list (Prompt.tags p)) (PList v)))
  ++ entry_of (new_metadata p u)
    (fun v => ("metadata", POldNew (py_opt_map (Prompt.metadata_ p)) (PMap v))).

(** The assignments of the four blocks, in their order. *)
Definition apply_update (p : Prompt.t) (u : PromptUpdate) : Prompt.t -> Prompt.t :=
  assign (new_metadata p u) (fun v => Prompt.set_metadata_ (Some v))
  ∘ assign (new_tags p u) (fun v => Prompt.set_tags (Some v))
  ∘ assign (new_description p u) (fun v => Prompt.set_description (Some v))
  ∘ assign (new_content p u) Prompt.set_content.

(** Every supplied field equals the current one: tags compared as sets,
    the metadata as Python compares dictionaries, where [True] equals
    [1] and [False] equals [0]. *)
Definition unchanged (p : Prompt.t) (u : PromptUpdate) : Prop :=
  (forall v, pu_content u = Some v -> v = Prompt.content p) /\
  (forall v, pu_description u = Some v -> Some v = Prompt.description p) /\
  (forall v, pu_tags u = Some v -> tag_set (Some v) = tag_set (Prompt.tags p)) /\
  (forall v, pu_metadata_ u = Some v ->
     exists m, Prompt.metadata_ p = Some m /\ py_value <$> v = py_value <$> m).

Definition update_stages (d : DB) (p : Prompt.t) (u : PromptUpdate)
    (updated_by : string) (clk : nat -> Z) (r : nat) : list DB :=
  match changes_of p u with
  | [] => [d]
  | c :: cs =>
      let st := stamp clk r (Prompt.updated_at p) true in
      let d1 := pure_modify (Prompt.id p)
                  (Prompt.set_updated_at (fst st) ∘ apply_update p u) d in
      [d; d1;
       log_stage d1 (Prompt.id p) (Prompt.version p) updated_by (clk (snd st))
         (Detailed "update" (c :: cs))]
  end.

(** ** The stages of a soft delete and of a hard delete *)

Definition delete_reason (db_prompt : Prompt.t) : change_reason :=
  Detailed "delete" [("status", PStr (status_str (Prompt.status db_prompt)))].

Definition soft_delete_row (t : Z) : Prompt.t -> Prompt.t :=
  Prompt.set_updated_at t ∘ Prompt.set_is_active false ∘ Prompt.set_status ARCHIVED.

Definition delete_stages (d : DB) (db_prompt : Prompt.t) (deleted_by : string)
    (clk : nat -> Z) (r : nat) : list DB :=
  let l := log_stage d (Prompt.id db_prompt) (Prompt.version db_prompt) deleted_by
             (clk r) (delete_reason db_prompt) in
  [d; l; pure_modify (Prompt.id db_prompt) (soft_delete_row (clk (S r))) l].

Definition hard_delete_stages (d : DB) (db_prompt : Prompt.t) : list DB :=
  [d; deleted (Prompt.id db_prompt) d].

(** ** The stages of a request *)

Definition op_stages (o : op) (d : DB) (clk : nat -> Z) (r : nat) : list DB :=
  match o with
  | Op_create prompt created_by => creation_stages d prompt created_by clk r
  | Op_update i u updated_by =>
      match lookup_prompt i d with
      | Some p => update_stages d p u updated_by clk r
      | None => [d]
      end
  | Op_set_active i updated_by =>
      match lookup_prompt i d with
      | Some p => activation_stages d p updated_by clk r
      | None => [d]
      end
  | Op_delete i deleted_by =>
      match lookup_prompt i d with
      | Some p => delete_stages d p deleted_by clk r
      | None => [d]
      end
  | Op_hard_delete i =>
      match lookup_prompt i d with
      | Some p => hard_delete_stages d p
      | None => [d]
      end
  end.

(** ** Invariant A: at most one live version per name *)

Definition live_under (N : string) (p : Prompt.t) : bool :=
  has_name N p && Prompt.is_active p.

(** The number of versions of [N] with [is_active] set. *)
Definition live_count (N : string) (d : DB) : nat :=
  length (List.filter (live_under N) (prompts d)).

(** [Prompt.id] is the primary key of the table. *)
Definition primary_key (d : DB) : Prop := NoDup (map Prompt.id (prompts d)).

(** Any two live versions of [N] are the same row. *)
Definition unique_live (N : string) (l : list Prompt.t) : Prop :=
  forall p q, In p l -> In q l ->
    live_under N p = true -> live_under N q = true -> Prompt.id p = Prompt.id q.

Definition inv (N : string) (l : list Prompt.t) : Prop :=
  NoDup (map Prompt.id l) /\ unique_live N l.

(** ** Auto-incremented versions *)

(** The version string the update-version endpoint computes for the
    base prompt: [next_version] of the latest version of its name. *)
Definition auto_version {U : UnicodeData} (d : DB) (base_prompt : Prompt.t)
  : option string :=
  next_version
    (Prompt.version
       (default base_prompt
          (latest_by_version (Prompt.name base_prompt) (prompts d)))).

Fixpoint no_dot (s : string) : bool :=
  match s with
  | EmptyString => true
  | String c s' => negb (Ascii.eqb c dot) && no_dot s'
  end.

(** [f"{major}.{minor}.{patch}"] *)
Definition dotted (major minor patch : string) : string :=
  String.append major
    (String.append "." (String.append minor (String.append "." patch))).

(** ** Sample data *)

(** Name "p" with a live version A and a draft B. *)
Module Demo.
Definition A : Prompt.t :=
  Prompt.mk 1 "p" "1.0.0" "You are a helpful assistant." None ACTIVE true
    (Some ["a"; "b"]) (Some ∅) "alice" 10 20.
Definition B : Prompt.t :=
  Prompt.mk 2 "p" "1.1.0" "You are a careful assistant." None DRAFT false
    (Some ["a"; "b"]) (Some ∅) "alice" 30 30.
Definition hA : PromptHistory.t :=
  PromptHistory.mk 1 1 "1.0.0" "You are a helpful assistant." None DRAFT
    (Some ["a"; "b"]) (Some ∅) "alice" 10 create_reason.
Definition db : DB := {| prompts := [A; B]; prompt_history := [hA] |}.
Definition clk (n : nat) : Z := 100 + Z.of_nat n.
Definition empty : DB := {| prompts := []; prompt_history := [] |}.
End Demo.

(** Name "p" with version "2.0.0" created before version "1.0.0". *)
Module Versions.
Definition first : Prompt.t :=
  Prompt.mk 1 "p" "2.0.0" "old" None DRAFT false (Some []) (Some ∅) "alice" 10 10.
Definition second : Prompt.t :=
  Prompt.mk 2 "p" "1.0.0" "new" None DRAFT false (Some []) (Some ∅) "alice" 20 20.
Definition db : DB := {| prompts := [first; second]; prompt_history := [] |}.
Definition no_update : PromptUpdate :=
  {| pu_content := None; pu_description := None; pu_tags := None;
     pu_metadata_ := None |}.
End Versions.

(** The database of Unicode 14.0, which CPython 3.11 carries, from code
    point 127 on: the decimal digits come in runs of ten, from the digit
    of value 0 to the digit of value 9, and [unicode_14_digits] lists
    the first code point of every run (1632 is ARABIC-INDIC DIGIT ZERO,
    65296 FULLWIDTH DIGIT ZERO); [unicode_14_spaces] lists the white
    space (133 is NEXT LINE, 160 NO-BREAK SPACE). *)
Definition unicode_14_digits : list N :=
  [1632; 1776; 1984; 2406; 2534; 2662; 2790; 2918; 3046; 3174; 3302; 3430; 3558;
   3664; 3792; 3872; 4160; 4240; 6112; 6160; 6470; 6608; 6784; 6800; 6992; 7088;
   7232; 7248; 42528; 43216; 43264; 43472; 43504; 43600; 44016; 65296; 66720;
   68912; 69734; 69872; 69942; 70096; 70384; 70736; 70864; 71248; 71360; 71472;
   71904; 72016; 72784; 73040; 73120; 92768; 92864; 93008; 120782; 120792;
   120802; 120812; 120822; 123200; 123632; 125264; 130032]%N.

Definition unicode_14_spaces : list N :=
  [133; 160; 5760; 8192; 8193; 8194; 8195; 8196; 8197; 8198; 8199; 8200; 8201;
   8202; 8232; 8233; 8239; 8287; 12288]%N.

Definition unicode_14 : UnicodeData :=
  {| Py_UNICODE_ISSPACE ch := existsb (N.eqb ch) unicode_14_spaces;
     Py_UNICODE_TODECIMAL ch :=
       (fun zero => ch - zero)%N
       <$> List.find (fun zero => (zero <=? ch)%N && (ch <? zero + 10)%N)
             unicode_14_digits |}.

(** The text "٣", ARABIC-INDIC DIGIT THREE (code point 1635), in UTF-8. *)
Definition arabic_indic_three : string :=
  String (ascii_of_nat 217) (String (ascii_of_nat 163) EmptyString).

(** Name "p" with one live version, whose metadata is [{"k": 1}], and
    an update that supplies [{"k": true}]. *)
Module Labelled.
Definition live : Prompt.t :=
  Prompt.mk 1 "p" "1.0.0" "You are a helpful assistant." None ACTIVE true
    (Some ["a"]) (Some {["k" := JNum 1]}) "alice" 10 20.
Definition db : DB := {| prompts := [live]; prompt_history := [] |}.
Definition truth : PromptUpdate :=
  {| pu_content := None; pu_description := None; pu_tags := None;
     pu_metadata_ := Some {["k" := JBool true]} |}.
End Labelled.

(** Name "p" with the single version "1.0.9". *)
Module Ninth.
Definition only : Prompt.t :=
  Prompt.mk 1 "p" "1.0.9" "ninth patch" None DRAFT false (Some []) (Some ∅)
    "alice" 10 10.
Definition db : DB := {| prompts := [only]; prompt_history := [] |}.
End Ninth.

Definition sample_create : PromptCreate :=
  {| pc_name := "q"; pc_content := "Answer briefly."; pc_description := None;
     pc_tags := Some []; pc_metadata_ := Some ∅; pc_version := "1.0.0" |}.

Definition reorder_tags : PromptUpdate :=
  {| pu_content := None; pu_description := None;
     pu_tags := Some ["b"; "a"]; pu_metadata_ := None |}.

Definition new_text : PromptUpdate :=
  {| pu_content := Some "You are a terse assistant."; pu_description := None;
     pu_tags := None; pu_metadata_ := None |}.

Definition sample_requests : list request :=
  [ {| rq_op := Op_set_active 2 "bob"; rq_fault := Some 5%nat; rq_clock := Demo.clk |};
    {| rq_op := Op_set_active 2 "bob"; rq_fault := None; rq_clock := Demo.clk |};
    {| rq_op := Op_create sample_create "carol"; rq_fault := None;
       rq_clock := Demo.clk |};
    {| rq_op := Op_set_active 1 "bob"; rq_fault := None; rq_clock := Demo.clk |};
    {| rq_op := Op_hard_delete 1; rq_fault := None; rq_clock := Demo.clk |} ].

(** ** The writes of the engine

    Every committed state of a request is reached from the previous one
    by a chain of four kinds of writes: an assignment to the columns of
    one row, a history entry taken from a row of the table, the insertion
    of a draft, and the removal of a row with its history. *)

Inductive row_write : (Prompt.t -> Prompt.t) -> Prop :=
  | write_archive t : row_write (archive_row t)
  | write_activate t : row_write (activate_row t)
  | write_soft_delete t : row_write (soft_delete_row t)
  | write_update t p u : row_write (Prompt.set_updated_at t ∘ apply_update p u).

Inductive db_step (d : DB) : DB -> Prop :=
  | step_write i f : row_write f -> db_step d (pure_modify i f d)
  | step_log q changed_by t r :
      lookup_prompt (Prompt.id q) d = Some q ->
      db_step d
        (logged d (log_entry d q (Prompt.id q) (Prompt.version q) changed_by t r))
  | step_insert prompt created_by t_created t_updated :
      List.find (same_version (pc_name prompt) (pc_version prompt)) (prompts d) = None ->
      db_step d (inserted d (created_row d prompt created_by t_created t_updated))
  | step_delete i : db_step d (deleted i d).

(** ** Invariants of the rows *)

(** Invariant B: [is_active] is set exactly on the rows of status ACTIVE. *)
Definition flag_agrees (p : Prompt.t) : Prop :=
  Prompt.is_active p = bool_decide (Prompt.status p = ACTIVE).

(** Invariant C: no two rows carry the same name and version. *)
Definition version_key (p : Prompt.t) : string * string :=
  (Prompt.name p, Prompt.version p).

Definition unique_versions (d : DB) : Prop :=
  NoDup (map version_key (prompts d)).

(** Every history row belongs to a version of the table and carries
    the version string of that row. *)
Definition refers_to (h : PromptHistory.t) (p : Prompt.t) : Prop :=
  Prompt.id p = PromptHistory.prompt_id h /\
  Prompt.version p = PromptHistory.version h.

Definition history_attached (d : DB) : Prop :=
  forall h, In h (prompt_history d) -> exists p, In p (prompts d) /\ refers_to h p.

(** The columns that are written once, when the row is created. *)
Definition birth_columns (p : Prompt.t) : Z * string * string * string * Z :=
  (Prompt.id p, Prompt.name p, Prompt.version p, Prompt.created_by p,
   Prompt.created_at p).

(** The columns an update leaves alone. *)
Definition lifecycle_columns (p : Prompt.t) : PromptStatus * bool :=
  (Prompt.status p, Prompt.is_active p).

(** The columns that hold what the author wrote. *)
Definition text_columns (p : Prompt.t)
  : string * option string * option (list string) * option (gmap string json) :=
  (Prompt.content p, Prompt.description p, Prompt.tags p, Prompt.metadata_ p).

(** The text an update asks for: the supplied fields, the present ones
    for the rest. *)
Definition requested_text (p : Prompt.t) (u : PromptUpdate)
  : string * option string * option (list string) * option (gmap string json) :=
  (default (Prompt.content p) (pu_content u),
   match pu_description u with Some v => Some v | None => Prompt.description p end,
   match pu_tags u with Some v => Some v | None => Prompt.tags p end,
   match pu_metadata_ u with Some v => Some v | None => Prompt.metadata_ p end).

(** A metadata column up to Python's [==] on dictionaries. *)
Definition metadata_value (m : option (gmap string json))
  : option (gmap string json) :=
  match m with
  | Some m => Some (py_value <$> m)
  | None => None
  end.

Definition is_update (o : op) : bool :=
  match o with Op_update _ _ _ => true | _ => false end.

Definition is_hard_delete (o : op) : bool :=
  match o with Op_hard_delete _ => true | _ => false end.

(** ** Listings *)

(** The order of a listing: no row comes before a row of greater key. *)
Definition falling {A} (key : A -> Z) : relation A :=
  fun x y => (key y <= key x)%Z.

(** The versions of a name, in table order. *)
Definition versions_of (name : string) (d : DB) : list Prompt.t :=
  List.filter (has_name name) (prompts d).

(** The history rows of a prompt, in table order. *)
Definition history_of (prompt_id : Z) (d : DB) : list PromptHistory.t :=
  List.filter (of_prompt prompt_id) (prompt_history d).

(** A sample of SQLite's text filters for the examples: every value
    passes. *)
Definition any_text (value pattern : string) : bool := true.

Definition no_json (tags : option (list string)) : option string := None.

(** * Reasoning about sessions *)

(** ** Rows and tables *)

Lemma has_id_true i p : has_id i p = true <-> Prompt.id p = i.
Proof. unfold has_id. apply bool_decide_eq_true. Qed.

Lemma has_id_false i p : has_id i p = false <-> Prompt.id p <> i.
Proof. unfold has_id. apply bool_decide_eq_false. Qed.

Lemma has_id_keeps f i p : keeps_id f -> has_id i (f p) = has_id i p.
Proof. intros Hf. unfold has_id. by rewrite Hf. Qed.

Lemma keeps_id_compose f g : keeps_id f -> keeps_id g -> keeps_id (f ∘ g).
Proof. intros Hf Hg p. simpl. by rewrite Hf, Hg. Qed.

Lemma keeps_set_status v : keeps_id (Prompt.set_status v).
Proof. by intros []. Qed.
Lemma keeps_set_is_active v : keeps_id (Prompt.set_is_active v).
Proof. by intros []. Qed.
Lemma keeps_set_updated_at v : keeps_id (Prompt.set_updated_at v).
Proof. by intros []. Qed.
Lemma keeps_set_content v : keeps_id (Prompt.set_content v).
Proof. by intros []. Qed.
Lemma keeps_set_description v : keeps_id (Prompt.set_description v).
Proof. by intros []. Qed.
Lemma keeps_set_tags v : keeps_id (Prompt.set_tags v).
Proof. by intros []. Qed.
Lemma keeps_set_metadata_ v : keeps_id (Prompt.set_metadata_ v).
Proof. by intros []. Qed.

Create HintDb rows discriminated.
#[global] Hint Resolve keeps_set_status keeps_set_is_active keeps_set_updated_at
  keeps_set_content keeps_set_description keeps_set_tags keeps_set_metadata_
  keeps_id_compose : rows.

Lemma update_row_ids i f l :
  keeps_id f -> map Prompt.id (update_row i f l) = map Prompt.id l.
Proof.
  intros Hf. unfold update_row. rewrite map_map. apply map_ext.
  intros p. destruct (has_id i p); [apply Hf | done].
Qed.

Lemma update_row_compose i f g l :
  keeps_id g ->
  update_row i f (update_row i g l) = update_row i (f ∘ g) l.
Proof.
  intros Hg. unfold update_row. rewrite map_map. apply map_ext. intros p.
  destruct (has_id i p) eqn:Hp; simpl.
  - by rewrite (has_id_keeps g i p Hg), Hp.
  - by rewrite Hp.
Qed.

Lemma find_update_row i j f l :
  keeps_id f ->
  List.find (has_id i) (update_row j f l)
  = (fun p => if has_id j p then f p else p) <$> List.find (has_id i) l.
Proof.
  intros Hf. unfold update_row.
  induction l as [|q l IH]; simpl; [done|].
  destruct (has_id j q) eqn:Hj.
  - rewrite (has_id_keeps f i q Hf).
    destruct (has_id i q); simpl; [by rewrite Hj | apply IH].
  - destruct (has_id i q); simpl; [by rewrite Hj | apply IH].
Qed.

Lemma find_has_id_id i l p : List.find (has_id i) l = Some p -> Prompt.id p = i.
Proof. intros H. apply find_some in H as [_ H]. by apply has_id_true. Qed.

Lemma find_has_id_In i l p : List.find (has_id i) l = Some p -> In p l.
Proof. intros H. by apply find_some in H as [H _]. Qed.

Lemma NoDup_find_has_id l p :
  NoDup (map Prompt.id l) -> In p l -> List.find (has_id (Prompt.id p)) l = Some p.
Proof.
  induction l as [|q l IH]; simpl; [done|].
  intros Hnd [->|Hin].
  - unfold has_id. by rewrite bool_decide_eq_true_2.
  - apply NoDup_cons in Hnd as [Hq Hnd].
    destruct (has_id (Prompt.id p) q) eqn:Hq'.
    + apply has_id_true in Hq'. exfalso. apply Hq. rewrite Hq'.
      apply list_elem_of_In, in_map, Hin.
    + by apply IH.
Qed.

(** ** Rules of the weakest precondition *)

Lemma set_fault_same s : set_fault (fault s) s = s.
Proof. by destruct s. Qed.

Lemma wp_ret {A} (a : A) Q E s : Q a s -> wp (mret a) Q E s.
Proof. done. Qed.

Lemma wp_raise {A} e (Q : A -> Session -> Prop) E s : E e s -> wp (raise e) Q E s.
Proof. done. Qed.

Lemma wp_bind {A B} (m : M A) (k : A -> M B) Q E s :
  wp m (fun a s' => wp (k a) Q E s') E s -> wp (m ≫= k) Q E s.
Proof.
  unfold wp, mbind, M_bind. by destruct (m s).
Qed.

Lemma wp_mono {A} (m : M A) (Q Q' : A -> Session -> Prop)
    (E E' : exn -> Session -> Prop) s :
  (forall a s', Q a s' -> Q' a s') -> (forall e s', E e s' -> E' e s') ->
  wp m Q E s -> wp m Q' E' s.
Proof. unfold wp. intros HQ HE. destruct (m s); auto. Qed.

Lemma wp_try_except {A} (m : M A) h Q E s :
  wp m Q (fun e s' => wp (h e) Q E s') s -> wp (try_except m h) Q E s.
Proof. unfold wp, try_except. by destruct (m s). Qed.

(** A store call raises only under a fault plan, and a session without
    one stays without one. *)
Lemma wp_store_call Q E s :
  (forall f, (fault s = None -> f = None) -> Q tt (set_fault f s)) ->
  (fault s <> None -> E StoreError (set_fault None s)) ->
  wp store_call Q E s.
Proof.
  intros HQ HE. unfold wp, store_call.
  destruct (fault s) as [[|n]|] eqn:Hf.
  - by apply HE.
  - by apply (HQ (Some n)).
  - specialize (HQ None (fun _ => eq_refl)). by rewrite <- Hf, set_fault_same in HQ.
Qed.

Lemma wp_get_pending Q E s : Q (pending s) s -> wp get_pending Q E s.
Proof. done. Qed.

Lemma wp_put_pending d Q E s : Q tt (with_pending d s) -> wp (put_pending d) Q E s.
Proof. done. Qed.

Lemma wp_utcnow Q E s :
  Q (clock s (reads s))
    {| committed := committed s; pending := pending s; fault := fault s;
       clock := clock s; reads := S (reads s) |} ->
  wp utcnow Q E s.
Proof. done. Qed.

Lemma wp_modify i f Q E s :
  Q tt (with_pending (pure_modify i f (pending s)) s) -> wp (modify i f) Q E s.
Proof. done. Qed.

Lemma wp_assign_updated_at i loaded dirty Q E s :
  Q tt {| committed := committed s;
          pending :=
            pure_modify i
              (Prompt.set_updated_at (fst (stamp (clock s) (reads s) loaded dirty)))
              (pending s);
          fault := fault s; clock := clock s;
          reads := snd (stamp (clock s) (reads s) loaded dirty) |} ->
  wp (assign_updated_at i loaded dirty) Q E s.
Proof.
  unfold assign_updated_at, stamp, wp, mbind, M_bind, utcnow, modify. simpl.
  by destruct ((clock s (reads s) =? loaded)%Z && dirty).
Qed.

Lemma wp_query_first g Q E s :
  (forall f, (fault s = None -> f = None) ->
     Q (List.find g (prompts (pending s))) (set_fault f s)) ->
  (fault s <> None -> E StoreError (set_fault None s)) ->
  wp (query_first g) Q E s.
Proof.
  intros HQ HE. unfold query_first. apply wp_bind, wp_store_call; [|done].
  intros f Hf. apply wp_bind, wp_get_pending, wp_ret. by apply HQ.
Qed.

Lemma wp_db_commit Q E s :
  (forall f, (fault s = None -> f = None) ->
     Q tt {| committed := pending s; pending := pending s; fault := f;
             clock := clock s; reads := reads s |}) ->
  (fault s <> None -> E StoreError (set_fault None s)) ->
  wp db_commit Q E s.
Proof.
  intros HQ HE. unfold db_commit. apply wp_bind, wp_store_call; [|done].
  intros f Hf. by apply HQ.
Qed.

Lemma wp_db_rollback Q E s :
  Q tt (with_pending (committed s) s) -> wp db_rollback Q E s.
Proof. done. Qed.

(** The history logger: the snapshot and its commit, or nothing. *)
Lemma wp_log_prompt_change prompt_id version changed_by action changes Q E s :
  (fault s <> None -> E StoreError (set_fault None s)) ->
  (forall q, lookup_prompt prompt_id (pending s) = Some q -> fault s <> None ->
     E StoreError
       {| committed := committed s;
          pending := logged (pending s)
            (log_entry (pending s) q prompt_id version changed_by
               (clock s (reads s)) (reason action changes));
          fault := None; clock := clock s; reads := S (reads s) |}) ->
  (lookup_prompt prompt_id (pending s) = None ->
   forall f, (fault s = None -> f = None) -> Q tt (set_fault f s)) ->
  (forall q, lookup_prompt prompt_id (pending s) = Some q ->
   forall f, (fault s = None -> f = None) ->
     let d := logged (pending s)
                (log_entry (pending s) q prompt_id version changed_by
                   (clock s (reads s)) (reason action changes)) in
     Q tt {| committed := d; pending := d; fault := f;
             clock := clock s; reads := S (reads s) |}) ->
  wp (_log_prompt_change prompt_id version changed_by action changes) Q E s.
Proof.
  intros HE1 HE2 HQ1 HQ2. unfold _log_prompt_change.
  apply wp_bind, wp_query_first; [|done].
  intros f Hf. fold (lookup_prompt prompt_id (pending s)).
  destruct (lookup_prompt prompt_id (pending s)) as [q|] eqn:Hq.
  - apply wp_bind. unfold add_history.
    apply wp_bind, wp_get_pending, wp_bind, wp_utcnow, wp_put_pending.
    apply wp_db_commit.
    + intros f' Hf'. apply (HQ2 q eq_refl f'). simpl in Hf'. auto.
    + simpl. intros Hne. apply (HE2 q eq_refl). intros Hs. auto.
  - apply wp_ret. by apply HQ1.
Qed.

(** Names the time and the count of readings that [stamp] gives. *)
Ltac stamp_as t r :=
  cbv zeta;
  lazymatch goal with
  | |- context [stamp ?c ?n ?l ?d] => destruct (stamp c n l d) as [t r]
  end;
  cbn [fst snd].

Ltac stamp_in H t r :=
  cbv zeta in H;
  lazymatch type of H with
  | context [stamp ?c ?n ?l ?d] => destruct (stamp c n l d) as [t r]
  end;
  cbn [fst snd] in H.

Ltac wp_step :=
  lazymatch goal with
  | |- wp db_commit _ _ _ => fail
  | |- wp (query_first _) _ _ _ => fail
  | |- wp (_log_prompt_change _ _ _ _ _) _ _ _ => fail
  | |- wp (mbind _ _) _ _ _ => apply wp_bind
  | |- wp (mret _) _ _ _ => apply wp_ret
  | |- wp (raise _) _ _ _ => apply wp_raise
  | |- wp (modify _ _) _ _ _ => apply wp_modify
  | |- wp (assign_updated_at _ _ _) _ _ _ => apply wp_assign_updated_at
  | |- wp utcnow _ _ _ => apply wp_utcnow
  | |- wp get_pending _ _ _ => apply wp_get_pending
  | |- wp (put_pending _) _ _ _ => apply wp_put_pending
  | |- wp db_rollback _ _ _ => apply wp_db_rollback
  | |- wp (try_except _ _) _ _ _ => apply wp_try_except
  end.

Ltac wp_steps := repeat wp_step; cbn [committed pending fault clock reads
  with_pending set_fault].

(** ** An activation stops in one of its stages *)

Lemma pure_modify_compose i f g d :
  keeps_id g ->
  pure_modify i f (pure_modify i g d) = pure_modify i (f ∘ g) d.
Proof. intros Hg. unfold pure_modify. simpl. by rewrite update_row_compose. Qed.

Lemma lookup_pure_modify i j f d :
  keeps_id f ->
  lookup_prompt i (pure_modify j f d)
  = (fun p => if has_id j p then f p else p) <$> lookup_prompt i d.
Proof. intros Hf. unfold lookup_prompt. simpl. by apply find_update_row. Qed.

Lemma lookup_logged i d h : lookup_prompt i (logged d h) = lookup_prompt i d.
Proof. done. Qed.

Lemma lookup_log_stage i d j v c t r :
  lookup_prompt i (log_stage d j v c t r) = lookup_prompt i d.
Proof. unfold log_stage. by destruct (lookup_prompt j d). Qed.

Lemma lookup_prompt_of_In q d :
  In q (prompts d) -> is_Some (lookup_prompt (Prompt.id q) d).
Proof.
  unfold lookup_prompt. intros Hin.
  destruct (List.find (has_id (Prompt.id q)) (prompts d)) eqn:Hf; [by eexists|].
  eapply find_none in Hf; [|done]. apply has_id_false in Hf. done.
Qed.

Lemma keeps_archive_row t : keeps_id (archive_row t).
Proof. by intros []. Qed.
Lemma keeps_activate_row t : keeps_id (activate_row t).
Proof. by intros []. Qed.
#[global] Hint Resolve keeps_archive_row keeps_activate_row : rows.

(** Closes the obligation of a raising store call: the committed state is
    one of the stages, and the session had a fault plan. *)
Ltac stage_err :=
  intros;
  cbn [committed pending fault clock reads with_pending set_fault] in *;
  split; [simpl; auto | tauto].

Ltac session_simpl :=
  cbn [committed pending fault clock reads with_pending set_fault] in *.

Lemma set_active_version_stages db_prompt updated_by s :
  pending s = committed s ->
  lookup_prompt (Prompt.id db_prompt) (committed s) = Some db_prompt ->
  let stages :=
    activation_stages (committed s) db_prompt updated_by (clock s) (reads s) in
  wp (set_active_version db_prompt updated_by)
     (fun p s' => Some (committed s') = last stages /\
                  pending s' = committed s' /\
                  lookup_prompt (Prompt.id db_prompt) (committed s') = Some p)
     (fun _ s' => In (committed s') stages /\ fault s <> None) s.
Proof.
  intros Hpc Hp stages. subst stages. unfold set_active_version, activation_stages.
  apply wp_bind, wp_query_first;
    [|destruct (List.find _ _); stage_err].
  intros f0 Hf0. rewrite Hpc.
  destruct (List.find (other_active db_prompt) (prompts (committed s)))
    as [ex|] eqn:Hex.
  - set (d := committed s) in *.
    assert (Hexl : is_Some (lookup_prompt (Prompt.id ex) d)).
    { apply lookup_prompt_of_In. by apply find_some in Hex as [? _]. }
    destruct Hexl as [ex0 Hex0].
    wp_steps. rewrite Hpc. fold d.
    destruct (stamp (clock s) (reads s) (Prompt.updated_at ex) true) as [t0 r1].
    cbn [fst snd].
    rewrite !pure_modify_compose by auto with rows.
    change (_ ∘ _ ∘ _) with (archive_row t0).
    set (d1 := pure_modify (Prompt.id ex) (archive_row t0) d).
    assert (Hl1 : lookup_prompt (Prompt.id ex) d1 = Some (archive_row t0 ex0)).
    { unfold d1. rewrite lookup_pure_modify, Hex0 by auto with rows. simpl.
      apply find_has_id_id in Hex0. unfold has_id.
      by rewrite bool_decide_eq_true_2. }
    assert (Ha : archived_stage d ex db_prompt t0 (clock s r1)
                 = logged d1 (log_entry d1 (archive_row t0 ex0)
                     (Prompt.id ex) (Prompt.version ex) "system"
                     (clock s r1) (auto_archived_reason db_prompt))).
    { unfold archived_stage, log_stage. fold d1. by rewrite Hl1. }
    apply wp_log_prompt_change; session_simpl.
    + stage_err.
    + stage_err.
    + intros Hn. congruence.
    + intros q Hq f1 Hf1. rewrite Hl1 in Hq. injection Hq as <-.
      simpl. unfold auto_archived_reason in Ha. rewrite <- Ha.
      set (a := archived_stage d ex db_prompt _ _).
      wp_steps. rewrite !pure_modify_compose by auto with rows.
      change (_ ∘ _ ∘ _) with (activate_row (clock s (S r1))).
      set (d2 := pure_modify (Prompt.id db_prompt) _ a).
      assert (Hl2 : is_Some (lookup_prompt (Prompt.id db_prompt) d2)).
      { unfold d2. rewrite lookup_pure_modify by auto with rows.
        unfold a, archived_stage. rewrite lookup_log_stage.
        rewrite lookup_pure_modify by auto with rows. fold d.
        rewrite Hp. simpl. by eexists. }
      destruct Hl2 as [q2 Hl2].
      assert (Hb : live_stage a db_prompt updated_by (clock s (S r1))
                     (clock s (S (S r1)))
                   = logged d2 (log_entry d2 q2 (Prompt.id db_prompt)
                       (Prompt.version db_prompt) updated_by
                       (clock s (S (S r1)))
                       (Plain "set_as_live_version"))).
      { unfold live_stage, log_stage. fold d2. by rewrite Hl2. }
      apply wp_log_prompt_change; session_simpl.
      * stage_err.
      * stage_err.
      * intros Hn. congruence.
      * intros q Hq f2 Hf2. rewrite Hl2 in Hq. injection Hq as <-.
        simpl. rewrite <- Hb.
        apply wp_bind, wp_db_commit; [|stage_err].
        intros f3 Hf3. apply wp_bind, wp_store_call; [|stage_err].
        intros f4 Hf4. unfold reload. wp_steps.
        split; [done|]. split; [done|].
        unfold lookup_prompt in *. rewrite Hb. cbn [prompts logged].
        by rewrite Hl2.
  - set (d := committed s) in *.
    wp_steps. rewrite Hpc. fold d.
    destruct (stamp (clock s) (reads s) (Prompt.updated_at db_prompt)
                (needs_activation db_prompt)) as [t0 r1].
    cbn [fst snd].
    rewrite !pure_modify_compose by auto with rows.
    change (_ ∘ _ ∘ _) with (activate_row t0).
    set (d2 := pure_modify (Prompt.id db_prompt) _ d).
    assert (Hl2 : is_Some (lookup_prompt (Prompt.id db_prompt) d2)).
    { unfold d2. rewrite lookup_pure_modify by auto with rows.
      rewrite Hp. simpl. by eexists. }
    destruct Hl2 as [q2 Hl2].
    assert (Hb : live_stage d db_prompt updated_by t0 (clock s r1)
                 = logged d2 (log_entry d2 q2 (Prompt.id db_prompt)
                     (Prompt.version db_prompt) updated_by
                     (clock s r1) (Plain "set_as_live_version"))).
    { unfold live_stage, log_stage. fold d2. by rewrite Hl2. }
    apply wp_log_prompt_change; session_simpl.
    + stage_err.
    + stage_err.
    + intros Hn. congruence.
    + intros q Hq f2 Hf2. rewrite Hl2 in Hq. injection Hq as <-.
      simpl. rewrite <- Hb.
      apply wp_bind, wp_db_commit; [|stage_err].
      intros f3 Hf3. apply wp_bind, wp_store_call; [|stage_err].
      intros f4 Hf4. unfold reload. wp_steps.
      split; [done|]. split; [done|].
      unfold lookup_prompt in *. rewrite Hb. cbn [prompts logged].
      by rewrite Hl2.
Qed.

(** ** A creation stops in one of its stages *)

Lemma next_id_fresh ids x : In x ids -> x < next_id ids.
Proof.
  unfold next_id. induction ids as [|y ids IH]; simpl; [done|].
  intros [->|Hin]; [lia|]. specialize (IH Hin). lia.
Qed.

Lemma find_app_none {A} (f : A -> bool) l l' :
  (forall q, In q l -> f q = false) -> List.find f (l ++ l') = List.find f l'.
Proof.
  induction l as [|a l IH]; simpl; [done|]. intros H.
  rewrite (H a) by auto. apply IH. auto.
Qed.

Lemma lookup_inserted d row :
  Prompt.id row = next_id (map Prompt.id (prompts d)) ->
  lookup_prompt (Prompt.id row) (inserted d row) = Some row.
Proof.
  intros Hid. unfold lookup_prompt, inserted. simpl.
  rewrite find_app_none.
  - simpl. unfold has_id. by rewrite bool_decide_eq_true_2.
  - intros q Hq. apply has_id_false. rewrite Hid.
    assert (Prompt.id q < next_id (map Prompt.id (prompts d))); [|lia].
    apply next_id_fresh, in_map, Hq.
Qed.

Lemma create_prompt_stages prompt created_by s :
  pending s = committed s ->
  let stages := creation_stages (committed s) prompt created_by (clock s) (reads s) in
  wp (create_prompt prompt created_by)
     (fun p s' =>
        List.find (same_version (pc_name prompt) (pc_version prompt))
          (prompts (committed s)) = None /\
        p = created_row (committed s) prompt created_by
              (clock s (reads s)) (clock s (S (reads s))) /\
        Some (committed s') = last stages)
     (fun e s' =>
        In (committed s') stages /\
        (fault s = None ->
         e = ValueError_exists /\
         List.find (same_version (pc_name prompt) (pc_version prompt))
           (prompts (committed s)) <> None)) s.
Proof.
  intros Hpc stages. subst stages. unfold create_prompt, creation_stages.
  unfold get_prompt_version.
  apply wp_bind, wp_query_first; [|destruct (List.find _ _); stage_err].
  intros f0 Hf0. rewrite Hpc. set (d := committed s) in *.
  destruct (List.find _ (prompts d)) eqn:Hex.
  { apply wp_raise. simpl. auto. }
  apply wp_bind. unfold add_prompt. wp_steps. rewrite Hpc. fold d.
  set (row := Prompt.mk _ _ _ _ _ _ _ _ _ _ _ _).
  change row with (created_row d prompt created_by (clock s (reads s))
                     (clock s (S (reads s)))) in *.
  unfold db_flush. apply wp_store_call; [|intros; wp_steps; stage_err].
  intros f1 Hf1. apply wp_db_commit; [|intros; wp_steps; stage_err].
  intros f2 Hf2.
  pose proof (lookup_inserted d (created_row d prompt created_by
    (clock s (reads s)) (clock s (S (reads s)))) eq_refl) as Hl.
  unfold inserted in Hl. clear row.
  apply wp_bind, wp_log_prompt_change; session_simpl.
  - stage_err.
  - stage_err.
  - intros Hn. congruence.
  - intros q Hq f3 Hf3. rewrite Hl in Hq. injection Hq as <-.
    simpl. apply wp_ret. simpl. done.
Qed.

(** ** An update stops in one of its stages *)

Lemma update_row_id i l : update_row i (fun p => p) l = l.
Proof.
  unfold update_row. rewrite <- (map_id l) at 2. apply map_ext.
  intros p. by destruct (has_id i p).
Qed.

Lemma pure_modify_id i d : pure_modify i (fun p => p) d = d.
Proof. unfold pure_modify. rewrite update_row_id. by destruct d. Qed.

Lemma with_pending_same s : with_pending (pending s) s = s.
Proof. by destruct s. Qed.

Lemma keeps_assign {V} (o : option V) set :
  (forall v, keeps_id (set v)) -> keeps_id (assign o set).
Proof. intros H. destruct o; simpl; [apply H | done]. Qed.

#[global] Hint Resolve keeps_assign : rows.

Lemma keeps_apply_update p u : keeps_id (apply_update p u).
Proof. unfold apply_update. auto 8 with rows. Qed.
#[global] Hint Resolve keeps_apply_update : rows.

Lemma wp_track {V} (supplied : option V) (changed : V -> bool)
    (entry : V -> string * pyval) (set : V -> Prompt.t -> Prompt.t) i Q E s :
  Q (entry_of (tracked supplied changed) entry)
    (with_pending (pure_modify i (assign (tracked supplied changed) set) (pending s)) s) ->
  wp (match supplied with
      | Some v => if changed v then modify i (set v);; mret [entry v] else mret []
      | None => mret []
      end) Q E s.
Proof.
  unfold tracked. destruct supplied as [v|]; [destruct (changed v)|]; simpl.
  - intros H. by apply wp_bind, wp_modify, wp_ret.
  - rewrite pure_modify_id, with_pending_same. apply wp_ret.
  - rewrite pure_modify_id, with_pending_same. apply wp_ret.
Qed.

Lemma update_prompt_stages db_prompt prompt_update updated_by s :
  pending s = committed s ->
  lookup_prompt (Prompt.id db_prompt) (committed s) = Some db_prompt ->
  let stages := update_stages (committed s) db_prompt prompt_update updated_by
                  (clock s) (reads s) in
  wp (update_prompt db_prompt prompt_update updated_by)
     (fun p s' => Some (committed s') = last stages /\
                  lookup_prompt (Prompt.id db_prompt) (committed s') = Some p)
     (fun _ s' => In (committed s') stages /\ fault s <> None) s.
Proof.
  intros Hpc Hp stages. subst stages. unfold update_prompt, update_stages.
  apply wp_bind, wp_track, wp_bind, wp_track, wp_bind, wp_track, wp_bind, wp_track.
  session_simpl. rewrite Hpc. set (d := committed s) in *.
  rewrite !pure_modify_compose by auto 8 with rows.
  fold (new_content db_prompt prompt_update).
  fold (new_description db_prompt prompt_update).
  fold (new_tags db_prompt prompt_update).
  fold (new_metadata db_prompt prompt_update).
  fold (changes_of db_prompt prompt_update).
  change (assign _ _ ∘ assign _ _ ∘ assign _ _ ∘ assign _ _)
    with (apply_update db_prompt prompt_update).
  destruct (changes_of db_prompt prompt_update) as [|c cs] eqn:Hch.
  - apply wp_ret. session_simpl. split; [done|]. exact Hp.
  - wp_steps. rewrite pure_modify_compose by auto with rows.
    set (d1 := pure_modify (Prompt.id db_prompt) _ d).
    assert (Hl1 : is_Some (lookup_prompt (Prompt.id db_prompt) d1)).
    { unfold d1. rewrite lookup_pure_modify, Hp by auto with rows. by eexists. }
    destruct Hl1 as [q1 Hl1].
    apply wp_db_commit; [|stage_err].
    intros f0 Hf0. apply wp_bind. unfold db_refresh.
    apply wp_store_call; [|stage_err]. intros f1 Hf1.
    apply wp_bind, wp_log_prompt_change; session_simpl.
    + stage_err.
    + stage_err.
    + intros Hn. congruence.
    + intros q Hq f2 Hf2. rewrite Hl1 in Hq. injection Hq as <-.
      unfold reload. wp_steps. unfold log_stage. rewrite Hl1.
      split; [done|]. rewrite lookup_logged. unfold lookup_prompt in *.
      cbn [prompts logged]. by rewrite Hl1.
Qed.

(** ** A delete stops in one of its stages *)

Lemma keeps_soft_delete_row t : keeps_id (soft_delete_row t).
Proof. by intros []. Qed.
#[global] Hint Resolve keeps_soft_delete_row : rows.

Lemma delete_prompt_stages db_prompt deleted_by s :
  pending s = committed s ->
  lookup_prompt (Prompt.id db_prompt) (committed s) = Some db_prompt ->
  let stages := delete_stages (committed s) db_prompt deleted_by (clock s) (reads s) in
  wp (delete_prompt (Some db_prompt) deleted_by)
     (fun b s' => b = true /\ Some (committed s') = last stages)
     (fun _ s' => In (committed s') stages /\ fault s <> None) s.
Proof.
  intros Hpc Hp stages. subst stages. unfold delete_prompt, delete_stages.
  set (d := committed s) in *.
  assert (Hl : log_stage d (Prompt.id db_prompt) (Prompt.version db_prompt)
                 deleted_by (clock s (reads s)) (delete_reason db_prompt)
               = logged d (log_entry d db_prompt (Prompt.id db_prompt)
                   (Prompt.version db_prompt) deleted_by (clock s (reads s))
                   (delete_reason db_prompt))).
  { unfold log_stage. by rewrite Hp. }
  rewrite Hl. unfold delete_reason in *.
  apply wp_bind, wp_log_prompt_change; session_simpl; rewrite ?Hpc.
  - stage_err.
  - stage_err.
  - intros Hn. congruence.
  - intros q Hq f0 Hf0. rewrite Hp in Hq. injection Hq as <-. simpl.
    set (l := logged d _).
    wp_steps. rewrite !pure_modify_compose by auto with rows.
    apply wp_db_commit; [|stage_err].
    intros f1 Hf1. by apply wp_ret.
Qed.

Lemma hard_delete_prompt_stages db_prompt s :
  pending s = committed s ->
  wp (hard_delete_prompt db_prompt)
     (fun b s' =>
        if b then committed s' = deleted (Prompt.id db_prompt) (committed s)
        else committed s' = committed s /\ fault s <> None)
     (fun _ _ => False) s.
Proof.
  intros Hpc. unfold hard_delete_prompt, db_delete.
  apply wp_try_except. wp_steps. rewrite Hpc.
  apply wp_db_commit.
  - intros f0 Hf0. by apply wp_ret.
  - intros Hne. wp_steps. split; [done|tauto].
Qed.

(** ** A request stops in one of its stages *)

Lemma last_Some_In {A} (l : list A) x : last l = Some x -> In x l.
Proof.
  intros H. apply last_Some in H as [l' ->].
  apply in_or_app. right. by left.
Qed.

(** The look-up by key: the row, or without one nothing for a key of 64
    bits and the driver's error for any other. *)
Lemma wp_get_prompt i Q E s :
  (fault s <> None -> E StoreError (set_fault None s)) ->
  (forall f, (fault s = None -> f = None) ->
     match lookup_prompt i (pending s) with
     | Some p => Q (Some p) (set_fault f s)
     | None =>
         if sqlite_int i then Q None (set_fault f s)
         else E StoreError (set_fault f s)
     end) ->
  wp (get_prompt i) Q E s.
Proof.
  intros HE HQ. unfold get_prompt.
  apply wp_bind, wp_query_first; [|done].
  intros f Hf. fold (lookup_prompt i (pending s)).
  specialize (HQ f Hf).
  destruct (lookup_prompt i (pending s)) as [p|]; [done|].
  by destruct (sqlite_int i).
Qed.

Lemma wp_with_prompt {A} i (k : Prompt.t -> M A) Q E s :
  (fault s <> None -> E StoreError (set_fault None s)) ->
  (lookup_prompt i (pending s) = None ->
   forall f, (fault s = None -> f = None) ->
     E (if sqlite_int i then HTTP 404 else StoreError) (set_fault f s)) ->
  (forall p, lookup_prompt i (pending s) = Some p ->
   forall f, (fault s = None -> f = None) -> wp (k p) Q E (set_fault f s)) ->
  wp (with_prompt i k) Q E s.
Proof.
  intros HE H404 Hk. unfold with_prompt.
  apply wp_bind, wp_get_prompt; [done|].
  intros f Hf.
  destruct (lookup_prompt i (pending s)) as [p|] eqn:Hp.
  - by apply Hk.
  - specialize (H404 eq_refl f Hf). by destruct (sqlite_int i).
Qed.

Lemma perform_stops o s :
  pending s = committed s ->
  let stages := op_stages o (committed s) (clock s) (reads s) in
  wp (perform o) (fun _ s' => stops_in stages s s')
                 (fun _ s' => stops_in stages s s') s.
Proof.
  intros Hpc stages. subst stages. unfold stops_in.
  destruct o as [prompt by_|i u by_|i by_|i by_|i]; simpl.
  - apply wp_bind.
    eapply wp_mono; [| |apply create_prompt_stages; done].
    + intros p s' (Hnone & -> & Hlast). apply wp_ret.
      split; [by apply last_Some_In|done].
    + intros e s' [Hin Hnf]. split; [done|]. intros Hs.
      destruct (Hnf Hs) as [_ Hex]. unfold creation_stages in *.
      destruct (List.find _ _); [|done]. simpl in *. intuition congruence.
  - apply wp_with_prompt; rewrite ?Hpc.
    + intros Hne. simpl. destruct (lookup_prompt _ _); unfold update_stages;
        [destruct (changes_of _ _)|]; simpl; tauto.
    + intros Hn f Hf. rewrite Hn. simpl. auto.
    + intros p Hp f Hf. rewrite Hp.
      pose proof (find_has_id_id _ _ _ Hp) as <-.
      apply wp_bind.
      eapply wp_mono; [| |apply update_prompt_stages; done].
      * intros p' s' [Hlast _]. apply wp_ret. session_simpl.
        split; [by apply last_Some_In|done].
      * intros e s' [Hin Hnf]. session_simpl. split; [done|]. intros Hs.
        exfalso. apply Hnf. auto.
  - apply wp_with_prompt; rewrite ?Hpc.
    + intros Hne. simpl. destruct (lookup_prompt _ _); unfold activation_stages;
        [destruct (List.find _ _)|]; simpl; tauto.
    + intros Hn f Hf. rewrite Hn. simpl. auto.
    + intros p Hp f Hf. rewrite Hp.
      pose proof (find_has_id_id _ _ _ Hp) as <-.
      apply wp_bind.
      eapply wp_mono; [| |apply set_active_version_stages; done].
      * intros p' s' [Hlast _]. apply wp_ret. session_simpl.
        split; [by apply last_Some_In|done].
      * intros e s' [Hin Hnf]. session_simpl. split; [done|]. intros Hs.
        exfalso. apply Hnf. auto.
  - apply wp_with_prompt; rewrite ?Hpc.
    + intros Hne. simpl. destruct (lookup_prompt _ _); simpl; tauto.
    + intros Hn f Hf. rewrite Hn. simpl. auto.
    + intros p Hp f Hf. rewrite Hp.
      pose proof (find_has_id_id _ _ _ Hp) as <-.
      apply wp_bind.
      eapply wp_mono; [| |apply delete_prompt_stages; done].
      * intros b s' [_ Hlast]. apply wp_ret. session_simpl.
        split; [by apply last_Some_In|done].
      * intros e s' [Hin Hnf]. session_simpl. split; [done|]. intros Hs.
        exfalso. apply Hnf. auto.
  - apply wp_with_prompt; rewrite ?Hpc.
    + intros Hne. simpl. destruct (lookup_prompt _ _); simpl; tauto.
    + intros Hn f Hf. rewrite Hn. simpl. auto.
    + intros p Hp f Hf. rewrite Hp.
      pose proof (find_has_id_id _ _ _ Hp) as <-.
      apply wp_bind.
      eapply wp_mono; [| |apply hard_delete_prompt_stages; done].
      * intros [] s'; session_simpl.
        -- intros Hc. apply wp_ret. rewrite Hc. simpl. auto.
        -- intros [Hc Hne]. apply wp_ret. rewrite Hc. simpl.
           split; [auto|]. intros Hs. exfalso. apply Hne. auto.
      * intros e s' [].
Qed.

Theorem serve_stops r db :
  let stages := op_stages (rq_op r) db (rq_clock r) 0 in
  In (serve r db) stages /\
  (rq_fault r = None -> Some (serve r db) = last stages).
Proof.
  intros stages. subst stages. unfold serve, persisted.
  pose proof (perform_stops (rq_op r)
    (open_session db (rq_fault r) (rq_clock r)) eq_refl) as H.
  unfold wp, stops_in in H. simpl in H.
  destruct (perform _ _); simpl; exact H.
Qed.

(** * At most one live version per name *)

Section OneLive.
Variable N : string.

Lemma count_unique l :
  (length (List.filter (live_under N) l) <= 1)%nat -> unique_live N l.
Proof.
  induction l as [|a l IH]; simpl; intros Hc p q Hp Hq Lp Lq; [done|].
  destruct (live_under N a) eqn:La; simpl in Hc.
  - assert (Hnil : List.filter (live_under N) l = []).
    { destruct (List.filter (live_under N) l); [done|simpl in Hc; lia]. }
    assert (Hno : forall x, In x l -> live_under N x = true -> False).
    { intros x Hx Lx. assert (In x (List.filter (live_under N) l)) as Hin
        by (apply filter_In; auto). rewrite Hnil in Hin. done. }
    destruct Hp as [->|Hp], Hq as [->|Hq]; try done; exfalso; eauto.
  - destruct Hp as [->|Hp], Hq as [->|Hq]; try congruence. by apply IH.
Qed.

Lemma unique_count l :
  inv N l -> (length (List.filter (live_under N) l) <= 1)%nat.
Proof.
  induction l as [|a l IH]; simpl; intros [Hnd Hu]; [lia|].
  apply NoDup_cons in Hnd as [Ha Hnd].
  assert (Hu' : unique_live N l).
  { intros p q Hp Hq. apply Hu; by right. }
  destruct (live_under N a) eqn:La; simpl; [|apply IH; by split].
  assert (Hnil : List.filter (live_under N) l = []); [|rewrite Hnil; simpl; lia].
  destruct (List.filter (live_under N) l) as [|x k] eqn:Hf; [done|exfalso].
  assert (In x (List.filter (live_under N) l)) as Hx by (rewrite Hf; by left).
  apply filter_In in Hx as [Hx Lx].
  apply Ha. rewrite (Hu a x); auto; [|by left|by right].
  apply list_elem_of_In, in_map, Hx.
Qed.

Lemma In_update_row q i f l :
  In q (update_row i f l) <->
  exists q0, In q0 l /\ q = if has_id i q0 then f q0 else q0.
Proof.
  unfold update_row. rewrite in_map_iff. split; intros (q0 & H1 & H2); eauto.
Qed.

(** A write that sets no row live keeps the invariant. *)
Lemma inv_update_row i f l :
  keeps_id f ->
  (forall p, live_under N (f p) = true -> live_under N p = true) ->
  inv N l -> inv N (update_row i f l).
Proof.
  intros Hid Hlive [Hnd Hu]. split; [by rewrite update_row_ids|].
  intros p q Hp Hq Lp Lq.
  apply In_update_row in Hp as (p0 & Hp0 & ->).
  apply In_update_row in Hq as (q0 & Hq0 & ->).
  assert (Prompt.id p0 = Prompt.id q0); [|
    destruct (has_id i p0), (has_id i q0); rewrite ?Hid; done].
  apply Hu; auto.
  - destruct (has_id i p0); auto.
  - destruct (has_id i q0); auto.
Qed.

Lemma inv_app_inactive l row :
  Prompt.id row = next_id (map Prompt.id l) ->
  Prompt.is_active row = false ->
  inv N l -> inv N (l ++ [row]).
Proof.
  intros Hid Hact [Hnd Hu]. split.
  - rewrite map_app. simpl. apply NoDup_app. split; [done|]. split.
    + intros x Hx Hx'. apply list_elem_of_singleton in Hx'. subst x.
      apply list_elem_of_In, next_id_fresh in Hx. lia.
    + apply NoDup_singleton.
  - assert (Hrow : live_under N row = false).
    { unfold live_under. rewrite Hact. apply andb_false_r. }
    intros p q Hp Hq Lp Lq.
    apply in_app_or in Hp as [Hp|[<-|[]]]; [|congruence].
    apply in_app_or in Hq as [Hq|[<-|[]]]; [|congruence].
    by apply Hu.
Qed.

Lemma inv_filter (P : Prompt.t -> Prop) `{forall x, Decision (P x)} l :
  inv N l -> inv N (filter P l).
Proof.
  intros [Hnd Hu]. split.
  - clear Hu. induction l as [|a l IH]; [done|].
    simpl in Hnd. apply NoDup_cons in Hnd as [Ha Hnd].
    rewrite filter_cons. destruct (decide (P a)); [|by apply IH].
    simpl. apply NoDup_cons. split; [|by apply IH].
    intros Hin. apply Ha.
    apply list_elem_of_In, in_map_iff in Hin as (x & Hx & Hin).
    apply list_elem_of_In, list_elem_of_filter in Hin as [_ Hin].
    rewrite <- Hx. apply list_elem_of_In, in_map, list_elem_of_In, Hin.
  - intros p q Hp Hq. apply Hu.
    + apply list_elem_of_In, list_elem_of_filter in Hp as [_ Hp].
      by apply list_elem_of_In.
    + apply list_elem_of_In, list_elem_of_filter in Hq as [_ Hq].
      by apply list_elem_of_In.
Qed.

(** Setting [p] live keeps the invariant when no other version of the
    name of [p] is live. *)
Lemma inv_activate l p f :
  keeps_id f ->
  (forall q, Prompt.name (f q) = Prompt.name q) ->
  (forall q, In q l -> Prompt.id q = Prompt.id p -> Prompt.name q = Prompt.name p) ->
  (Prompt.name p = N ->
   forall q, In q l -> live_under N q = true -> Prompt.id q = Prompt.id p) ->
  inv N l -> inv N (update_row (Prompt.id p) f l).
Proof.
  intros Hid Hname HR HK [Hnd Hu]. split; [by rewrite update_row_ids|].
  assert (Hcase : forall q, In q (update_row (Prompt.id p) f l) ->
            live_under N q = true ->
            (Prompt.id q = Prompt.id p /\ Prompt.name p = N) \/
            (In q l /\ Prompt.id q <> Prompt.id p)).
  { intros q Hq Lq. apply In_update_row in Hq as (q0 & Hq0 & ->).
    destruct (has_id (Prompt.id p) q0) eqn:Hi.
    - left. apply has_id_true in Hi. split; [by rewrite Hid|].
      rewrite <- (HR q0 Hq0 Hi), <- (Hname q0).
      unfold live_under, has_name in Lq.
      apply andb_true_iff in Lq as [Lq _]. by apply bool_decide_eq_true in Lq.
    - right. apply has_id_false in Hi. done. }
  intros q1 q2 H1 H2 L1 L2.
  destruct (Hcase q1 H1 L1) as [[E1 HN]|[I1 N1]],
           (Hcase q2 H2 L2) as [[E2 HN']|[I2 N2]].
  - congruence.
  - exfalso. apply N2. by apply HK.
  - exfalso. apply N1. by apply HK.
  - by apply Hu.
Qed.
End OneLive.

Lemma keeps_live_compose f g : keeps_live f -> keeps_live g -> keeps_live (f ∘ g).
Proof.
  intros Hf Hg p. simpl. destruct (Hf (g p)) as [-> ->]. apply Hg.
Qed.

Lemma keeps_live_assign {V} (o : option V) set :
  (forall v, keeps_live (set v)) -> keeps_live (assign o set).
Proof. intros H. destruct o; simpl; [apply H | done]. Qed.

Lemma keeps_live_content v : keeps_live (Prompt.set_content v).
Proof. by intros []. Qed.
Lemma keeps_live_description v : keeps_live (Prompt.set_description v).
Proof. by intros []. Qed.
Lemma keeps_live_tags v : keeps_live (Prompt.set_tags v).
Proof. by intros []. Qed.
Lemma keeps_live_metadata_ v : keeps_live (Prompt.set_metadata_ v).
Proof. by intros []. Qed.
Lemma keeps_live_updated_at v : keeps_live (Prompt.set_updated_at v).
Proof. by intros []. Qed.

Create HintDb live discriminated.
#[global] Hint Resolve keeps_live_compose keeps_live_assign keeps_live_content
  keeps_live_description keeps_live_tags keeps_live_metadata_
  keeps_live_updated_at : live.

Lemma keeps_live_apply_update p u : keeps_live (apply_update p u).
Proof. unfold apply_update. auto 8 with live. Qed.

Lemma keeps_live_under N f p : keeps_live f -> live_under N (f p) = live_under N p.
Proof.
  intros Hf. unfold live_under, has_name. by destruct (Hf p) as [-> ->].
Qed.

Lemma archive_row_not_live N t p : live_under N (archive_row t p) = false.
Proof. unfold live_under. simpl. apply andb_false_r. Qed.

Lemma soft_delete_row_not_live N t p : live_under N (soft_delete_row t p) = false.
Proof. unfold live_under. simpl. apply andb_false_r. Qed.

Lemma prompts_log_stage d i v c t r : prompts (log_stage d i v c t r) = prompts d.
Proof. unfold log_stage. by destruct (lookup_prompt i d). Qed.

Lemma history_log_stage d i v c t r :
  prompt_history (log_stage d i v c t r) = prompt_history d \/
  exists q, lookup_prompt i d = Some q /\
    prompt_history (log_stage d i v c t r)
    = prompt_history d ++ [log_entry d q i v c t r].
Proof. unfold log_stage. destruct (lookup_prompt i d); simpl; eauto. Qed.

Lemma lookup_unique d i p q :
  NoDup (map Prompt.id (prompts d)) -> lookup_prompt i d = Some p ->
  In q (prompts d) -> Prompt.id q = Prompt.id p -> q = p.
Proof.
  intros Hnd Hp Hq Hid.
  pose proof (NoDup_find_has_id _ _ Hnd Hq) as Hf.
  rewrite Hid, (find_has_id_id _ _ _ Hp) in Hf.
  unfold lookup_prompt in Hp. congruence.
Qed.

Lemma other_active_live p q :
  other_active p q = true <->
  live_under (Prompt.name p) q = true /\ Prompt.id q <> Prompt.id p.
Proof.
  unfold other_active, live_under, has_name.
  rewrite !andb_true_iff, !bool_decide_eq_true. tauto.
Qed.

Lemma activation_stages_inv N d p updated_by clk r d' :
  lookup_prompt (Prompt.id p) d = Some p ->
  inv N (prompts d) ->
  In d' (activation_stages d p updated_by clk r) -> inv N (prompts d').
Proof.
  intros Hp Hinv. unfold activation_stages.
  assert (Hname : forall t q, Prompt.name (activate_row t q) = Prompt.name q)
    by (by intros t []).
  assert (HR : forall q, In q (prompts d) -> Prompt.id q = Prompt.id p ->
                 Prompt.name q = Prompt.name p).
  { intros q Hq Hid. by rewrite (lookup_unique d _ p q (proj1 Hinv) Hp Hq Hid). }
  destruct (List.find (other_active p) (prompts d)) as [ex|] eqn:Hex.
  - apply find_some in Hex as [Hexin Hexa]. apply other_active_live in Hexa as [Lex Nex].
    cbv zeta. destruct (stamp _ _ _ _) as [t0 r1]. cbn [fst snd].
    assert (Ha : inv N (update_row (Prompt.id ex) (archive_row t0) (prompts d))).
    { apply inv_update_row; auto with rows.
      intros q. by rewrite archive_row_not_live. }
    intros [<-|[<-|[<-|[]]]]; [done| |].
    + unfold archived_stage. by rewrite prompts_log_stage.
    + unfold live_stage, archived_stage.
      rewrite prompts_log_stage. cbn [prompts pure_modify]. rewrite prompts_log_stage.
      cbn [prompts pure_modify].
      apply inv_activate; auto with rows.
      * intros q Hq Hid. apply In_update_row in Hq as (q0 & Hq0 & ->).
        destruct (has_id (Prompt.id ex) q0).
        -- rewrite keeps_archive_row in Hid.
           change (Prompt.name (archive_row t0 q0)) with (Prompt.name q0).
           by apply HR.
        -- by apply HR.
      * intros HN q Hq Lq. exfalso. subst N.
        apply In_update_row in Hq as (q0 & Hq0 & ->).
        destruct (has_id (Prompt.id ex) q0) eqn:Hi.
        -- by rewrite archive_row_not_live in Lq.
        -- apply has_id_false in Hi. apply Hi. by apply (proj2 Hinv).
  - cbv zeta. destruct (stamp _ _ _ _) as [t0 r1]. cbn [fst snd].
    intros [<-|[<-|[]]]; [done|].
    unfold live_stage. rewrite prompts_log_stage. cbn [prompts pure_modify].
    apply inv_activate; auto with rows.
    intros HN q Hq Lq. subst N.
    eapply find_none in Hex; [|exact Hq].
    destruct (decide (Prompt.id q = Prompt.id p)) as [|Hne]; [done|].
    assert (other_active p q = true) by (by apply other_active_live). congruence.
Qed.

Lemma op_stages_inv N o d clk r d' :
  inv N (prompts d) -> In d' (op_stages o d clk r) -> inv N (prompts d').
Proof.
  intros Hinv. destruct o as [prompt by_|i u by_|i by_|i by_|i]; simpl.
  - unfold creation_stages. destruct (List.find _ _); [by intros [<-|[]]|].
    intros [<-|[<-|[<-|[]]]]; [done| |]; simpl; by apply inv_app_inactive.
  - destruct (lookup_prompt i d) as [p|]; [|by intros [<-|[]]].
    unfold update_stages. destruct (changes_of p u); [by intros [<-|[]]|].
    cbv zeta. destruct (stamp _ _ _ _) as [t0 r1]. cbn [fst snd].
    intros [<-|[<-|[<-|[]]]]; [done| |]; rewrite ?prompts_log_stage; simpl;
      (apply inv_update_row; [auto with rows| |done]);
      intros q; rewrite keeps_live_under; [done| |done|];
      apply keeps_live_compose; auto using keeps_live_apply_update with live.
  - destruct (lookup_prompt i d) as [p|] eqn:Hp; [|by intros [<-|[]]].
    pose proof (find_has_id_id _ _ _ Hp) as <-.
    by apply activation_stages_inv.
  - destruct (lookup_prompt i d) as [p|]; [|by intros [<-|[]]].
    unfold delete_stages.
    intros [<-|[<-|[<-|[]]]]; [done| |]; rewrite ?prompts_log_stage; [done|].
    cbn [prompts pure_modify]. rewrite prompts_log_stage.
    apply inv_update_row; auto with rows.
    intros q. by rewrite soft_delete_row_not_live.
  - destruct (lookup_prompt i d) as [p|]; [|by intros [<-|[]]].
    intros [<-|[<-|[]]]; [done|]. simpl. by apply inv_filter.
Qed.

(** C1. Starting from a table in which at most one version of the name
    [N] is live, at most one version of [N] is live in the committed
    state after each request of any sequence of create, update,
    activate, soft-delete and hard-delete requests, whatever store call
    fails in any of them. *)
Theorem at_most_one_live_preserved (N : string) (rs : list request) (db : DB) :
  primary_key db ->
  (live_count N db <= 1)%nat ->
  Forall (fun d => (live_count N d <= 1)%nat) (serve_all rs db).
Proof.
  intros Hpk Hc.
  assert (Hinv : inv N (prompts db)) by (split; [done|by apply count_unique]).
  clear Hpk Hc. revert db Hinv.
  induction rs as [|r rs IH]; intros db Hinv; simpl; [constructor|].
  assert (Hinv' : inv N (prompts (serve r db))).
  { eapply op_stages_inv; [exact Hinv|]. apply (serve_stops r db). }
  constructor; [by apply unique_count|by apply IH].
Qed.

(** * What the stages contain *)

Lemma wp_returns {A} (m : M A) Q (P : Session -> Prop) s :
  wp m Q (fun _ s' => P s' /\ fault s <> None) s -> fault s = None ->
  exists a s', m s = Return a s' /\ Q a s'.
Proof.
  unfold wp. intros H Hf. destruct (m s) as [a s'|e s']; [eauto|].
  by destruct H as [_ []].
Qed.

Lemma wp_persisted {A} (m : M A) Q E (P : DB -> Prop) s :
  wp m Q E s ->
  (forall a s', Q a s' -> P (committed s')) ->
  (forall e s', E e s' -> P (committed s')) ->
  P (persisted (m s)).
Proof.
  unfold wp, persisted, final. intros H HQ HE. destruct (m s); eauto.
Qed.

Lemma lookup_primary d p :
  primary_key d -> In p (prompts d) -> lookup_prompt (Prompt.id p) d = Some p.
Proof. intros Hpk Hin. by apply NoDup_find_has_id. Qed.

Lemma archived_stage_spec d ex p t0 t1 :
  lookup_prompt (Prompt.id ex) d = Some ex ->
  lookup_prompt (Prompt.id p) d = Some p ->
  Prompt.id ex <> Prompt.id p ->
  let a := archived_stage d ex p t0 t1 in
  lookup_prompt (Prompt.id ex) a = Some (archive_row t0 ex) /\
  lookup_prompt (Prompt.id p) a = Some p /\
  prompt_history a
  = prompt_history d ++
    [log_entry d (archive_row t0 ex) (Prompt.id ex) (Prompt.version ex) "system" t1
       (auto_archived_reason p)].
Proof.
  intros Hex Hp Hne a. subst a. unfold archived_stage.
  assert (Hl : lookup_prompt (Prompt.id ex)
                 (pure_modify (Prompt.id ex) (archive_row t0) d)
               = Some (archive_row t0 ex)).
  { rewrite lookup_pure_modify, Hex by auto with rows. simpl.
    unfold has_id. by rewrite bool_decide_eq_true_2. }
  rewrite !lookup_log_stage. split; [done|]. split.
  - rewrite lookup_pure_modify, Hp by auto with rows. simpl.
    unfold has_id. rewrite bool_decide_eq_false_2; [done|congruence].
  - unfold log_stage. by rewrite Hl.
Qed.

Lemma live_stage_spec a p0 p updated_by t0 t1 :
  lookup_prompt (Prompt.id p) a = Some p0 ->
  let l := live_stage a p updated_by t0 t1 in
  lookup_prompt (Prompt.id p) l = Some (activate_row t0 p0) /\
  (forall j, j <> Prompt.id p -> lookup_prompt j l = lookup_prompt j a) /\
  prompt_history l
  = prompt_history a ++
    [log_entry a (activate_row t0 p0) (Prompt.id p) (Prompt.version p) updated_by t1
       (Plain "set_as_live_version")].
Proof.
  intros Hp l. subst l. unfold live_stage.
  assert (Hl : lookup_prompt (Prompt.id p)
                 (pure_modify (Prompt.id p) (activate_row t0) a)
               = Some (activate_row t0 p0)).
  { rewrite lookup_pure_modify, Hp by auto with rows. simpl.
    apply find_has_id_id in Hp. unfold has_id. by rewrite bool_decide_eq_true_2. }
  split; [by rewrite lookup_log_stage|]. split.
  - intros j Hj. rewrite lookup_log_stage, lookup_pure_modify by auto with rows.
    destruct (lookup_prompt j a) as [q|] eqn:Hq; [|done]. simpl.
    apply find_has_id_id in Hq. unfold has_id.
    rewrite bool_decide_eq_false_2; [done|congruence].
  - unfold log_stage. by rewrite Hl.
Qed.

Lemma demo_primary_key : primary_key Demo.db.
Proof.
  unfold primary_key. simpl. repeat constructor; rewrite ?list_elem_of_In;
    simpl; intuition lia.
Defined.

(** * Activation *)

Lemma set_active_version_stops db_prompt updated_by s :
  pending s = committed s ->
  lookup_prompt (Prompt.id db_prompt) (committed s) = Some db_prompt ->
  let stages :=
    activation_stages (committed s) db_prompt updated_by (clock s) (reads s) in
  let out := persisted (set_active_version db_prompt updated_by s) in
  In out stages /\ (fault s = None -> Some out = last stages).
Proof.
  intros Hpc Hp stages out. subst stages out.
  eapply wp_persisted; [by apply set_active_version_stages| |].
  - intros p s' (Hlast & _). split; [by apply last_Some_In|done].
  - intros e s' [Hin Hne]. split; [done|tauto].
Qed.

(** C2 (amended). An activation commits in two steps when another
    version of the name is live: the first commit archives that version
    together with its "auto_archived" entry, the second sets the target
    live together with its "set_as_live_version" entry.  Whatever store
    call fails, the committed state is the one before the call, the one
    after the first commit (prior version archived, target not yet
    touched) or the one after the second; no history entry is committed
    without its state change, and no state change without its entry.
    When no other version is live the activation is a single commit.
    The times written are the readings of the clock in their order,
    [stamp] giving the one that [updated_at] receives where
    [onupdate] may step in. *)
Theorem activation_two_commits db_prompt updated_by s :
  primary_key (committed s) ->
  pending s = committed s ->
  In db_prompt (prompts (committed s)) ->
  let d := committed s in
  let out := persisted (set_active_version db_prompt updated_by s) in
  match List.find (other_active db_prompt) (prompts d) with
  | Some prior =>
      let st := stamp (clock s) (reads s) (Prompt.updated_at prior) true in
      let t := fun k => clock s (k + snd st)%nat in
      let a := archived_stage d prior db_prompt (fst st) (t 0%nat) in
      let l := live_stage a db_prompt updated_by (t 1%nat) (t 2%nat) in
      (out = d \/ out = a \/ out = l) /\
      (fault s = None -> out = l) /\
      lookup_prompt (Prompt.id prior) a = Some (archive_row (fst st) prior) /\
      lookup_prompt (Prompt.id db_prompt) a = Some db_prompt /\
      prompt_history a
      = prompt_history d ++
        [log_entry d (archive_row (fst st) prior) (Prompt.id prior)
           (Prompt.version prior) "system" (t 0%nat) (auto_archived_reason db_prompt)] /\
      lookup_prompt (Prompt.id prior) l = Some (archive_row (fst st) prior) /\
      lookup_prompt (Prompt.id db_prompt) l = Some (activate_row (t 1%nat) db_prompt) /\
      prompt_history l
      = prompt_history a ++
        [log_entry a (activate_row (t 1%nat) db_prompt) (Prompt.id db_prompt)
           (Prompt.version db_prompt) updated_by (t 2%nat)
           (Plain "set_as_live_version")]
  | None =>
      let st := stamp (clock s) (reads s) (Prompt.updated_at db_prompt)
                  (needs_activation db_prompt) in
      let l := live_stage d db_prompt updated_by (fst st) (clock s (snd st)) in
      (out = d \/ out = l) /\
      (fault s = None -> out = l) /\
      lookup_prompt (Prompt.id db_prompt) l = Some (activate_row (fst st) db_prompt) /\
      prompt_history l
      = prompt_history d ++
        [log_entry d (activate_row (fst st) db_prompt) (Prompt.id db_prompt)
           (Prompt.version db_prompt) updated_by (clock s (snd st))
           (Plain "set_as_live_version")]
  end.
Proof.
  intros Hpk Hpc Hin d out.
  assert (Hp : lookup_prompt (Prompt.id db_prompt) d = Some db_prompt)
    by (by apply lookup_primary).
  pose proof (set_active_version_stops db_prompt updated_by s Hpc Hp) as [Hst Hnf].
  fold d out in Hst, Hnf. unfold activation_stages in Hst, Hnf.
  destruct (List.find (other_active db_prompt) (prompts d)) as [prior|] eqn:Hex.
  - apply find_some in Hex as [Hprior Hoa].
    apply other_active_live in Hoa as [_ Hne].
    assert (Hq : lookup_prompt (Prompt.id prior) d = Some prior)
      by (by apply lookup_primary).
    cbn zeta in *. cbn beta. cbn [Nat.add].
    destruct (stamp (clock s) (reads s) (Prompt.updated_at prior) true) as [t0 r1].
    cbn [fst snd] in *.
    destruct (archived_stage_spec d prior db_prompt t0 (clock s r1) Hq Hp Hne)
      as (Ha1 & Ha2 & Ha3).
    destruct (live_stage_spec _ db_prompt db_prompt updated_by
                (clock s (S r1)) (clock s (S (S r1))) Ha2)
      as (Hl1 & Hl2 & Hl3).
    split; [simpl in Hst; intuition congruence|].
    split; [intros Hf; specialize (Hnf Hf); simpl in Hnf; congruence|].
    repeat split; try done. by rewrite Hl2.
  - cbn zeta in *.
    destruct (stamp (clock s) (reads s) (Prompt.updated_at db_prompt)
                (needs_activation db_prompt)) as [t0 r1].
    cbn [fst snd] in *.
    destruct (live_stage_spec d db_prompt db_prompt updated_by t0 (clock s r1) Hp)
      as (Hl1 & Hl2 & Hl3).
    split; [simpl in Hst; intuition congruence|].
    split; [intros Hf; specialize (Hnf Hf); simpl in Hnf; congruence|].
    done.
Qed.

Lemma activation_two_commits_witness :
  persisted (set_active_version Demo.B "bob" (open_session Demo.db None Demo.clk))
  = live_stage (archived_stage Demo.db Demo.A Demo.B 100 101) Demo.B "bob" 102 103.
Proof.
  pose proof (activation_two_commits Demo.B "bob"
    (open_session Demo.db None Demo.clk) demo_primary_key eq_refl) as H.
  simpl in H. apply H; [right; left; reflexivity | reflexivity].
Defined.

(** The claim of C2 fails: when the store call that follows the first
    commit fails, version A is archived and inactive while version B is
    still a draft, and the only new entry is the auto-archival. *)
Lemma activation_partial_handoff :
  let out := persisted (set_active_version Demo.B "bob"
                          (open_session Demo.db (Some 3%nat) Demo.clk)) in
  lookup_prompt 1 out = Some (archive_row 100 Demo.A) /\
  lookup_prompt 2 out = Some Demo.B /\
  Prompt.is_active Demo.B = false /\
  (action_of ∘ PromptHistory.change_reason) <$> prompt_history out
  = ["create"; "auto_archived"].
Proof. vm_compute. repeat split; reflexivity. Qed.

(** Where [onupdate] steps in: version A was loaded with the time 100,
    which is also the first reading of the clock.  The assignment to A
    is no change, the UPDATE takes the next reading 101, the entries
    take 102 and 104, and B, whose object has expired meanwhile, takes
    the 103 assigned to it. *)
Lemma activation_onupdate_reads_again :
  let A := Prompt.set_updated_at 100 Demo.A in
  let d := {| prompts := [A; Demo.B]; prompt_history := [] |} in
  let out := persisted (set_active_version Demo.B "bob"
                          (open_session d None Demo.clk)) in
  Prompt.updated_at <$> lookup_prompt 1 out = Some 101 /\
  Prompt.updated_at <$> lookup_prompt 2 out = Some 103 /\
  PromptHistory.changed_at <$> prompt_history out = [102; 104].
Proof. vm_compute. repeat split; reflexivity. Qed.

(** * Creation *)

Lemma create_prompt_returns prompt created_by s p s' :
  pending s = committed s ->
  create_prompt prompt created_by s = Return p s' ->
  let d := committed s in
  let row := created_row d prompt created_by (clock s (reads s)) (clock s (S (reads s))) in
  p = row /\
  committed s'
  = logged (inserted d row) (create_entry d row created_by (clock s (S (S (reads s))))).
Proof.
  intros Hpc Hrun d row.
  pose proof (create_prompt_stages prompt created_by s Hpc) as H.
  unfold wp in H. rewrite Hrun in H. destruct H as (Hnone & -> & Hlast).
  unfold creation_stages in Hlast. rewrite Hnone in Hlast.
  simpl in Hlast. by injection Hlast as ->.
Qed.

(** C3 (amended). A creation commits the new row first and its "create"
    entry in a second commit.  Whatever store call fails, the committed
    state is the one before the call, the one with the row alone, or the
    one with the row and its entry: the entry is never committed without
    the row, and a call that returns has committed both; a call without
    fault and without a name and version clash returns. *)
Theorem create_row_then_entry prompt created_by s :
  pending s = committed s ->
  let d := committed s in
  let row := created_row d prompt created_by (clock s (reads s)) (clock s (S (reads s))) in
  let entry := create_entry d row created_by (clock s (S (S (reads s)))) in
  let both := logged (inserted d row) entry in
  let out := persisted (create_prompt prompt created_by s) in
  (out = d \/ out = inserted d row \/ out = both) /\
  (forall p s', create_prompt prompt created_by s = Return p s' ->
     p = row /\ committed s' = both) /\
  (fault s = None ->
   List.find (same_version (pc_name prompt) (pc_version prompt)) (prompts d) = None ->
   exists s', create_prompt prompt created_by s = Return row s' /\ committed s' = both) /\
  PromptHistory.prompt_id entry = Prompt.id row /\
  action_of (PromptHistory.change_reason entry) = "create".
Proof.
  intros Hpc d row entry both out.
  pose proof (create_prompt_stages prompt created_by s Hpc) as H.
  unfold wp in H. subst out. unfold persisted.
  fold d in H. unfold creation_stages in H. fold row in H. fold entry in H. fold both in H.
  destruct (create_prompt prompt created_by s) as [p s'|e s'] eqn:Hrun; simpl.
  - destruct H as (Hnone & -> & Hlast). rewrite Hnone in Hlast.
    simpl in Hlast. injection Hlast as Hlast.
    split; [auto|]. split; [|split; [|done]].
    + intros p s'' [= <- <-]. done.
    + intros _ _. eexists. split; [done|done].
  - destruct H as [Hin Hnf].
    split; [destruct (List.find _ _); simpl in Hin; intuition congruence|].
    split; [done|]. split; [|done].
    intros Hf Hnone. destruct (Hnf Hf) as [_ Hex]. done.
Qed.

Lemma create_row_then_entry_witness :
  exists s', create_prompt sample_create "carol" (open_session Demo.db None Demo.clk)
             = Return (created_row Demo.db sample_create "carol" 100 101) s'.
Proof.
  destruct (create_row_then_entry sample_create "carol"
              (open_session Demo.db None Demo.clk) eq_refl)
    as (_ & _ & H & _).
  destruct (H eq_refl eq_refl) as (s' & Hs' & _). exists s'. exact Hs'.
Defined.

(** The claim of C3 fails: when the logger's query fails, the row is
    committed and no "create" entry refers to it. *)
Lemma create_row_without_entry :
  let out := persisted (create_prompt sample_create "carol"
                          (open_session Demo.empty (Some 3%nat) Demo.clk)) in
  (Prompt.id <$> prompts out) = [1] /\ prompt_history out = [].
Proof. vm_compute. split; reflexivity. Qed.

(** C7. After a creation that returned, a second creation with the same
    name and version fails: it raises the "already exists" [ValueError]
    (or the store error of its fault plan, at the duplicate check) and
    commits nothing, so the first record and the history are untouched. *)
Theorem duplicate_create_rejected prompt1 by1 s1 p1 s1' prompt2 by2 f clk :
  pending s1 = committed s1 ->
  create_prompt prompt1 by1 s1 = Return p1 s1' ->
  pc_name prompt2 = pc_name prompt1 ->
  pc_version prompt2 = pc_version prompt1 ->
  let s2 := open_session (committed s1') f clk in
  In p1 (prompts (committed s1')) /\
  persisted (create_prompt prompt2 by2 s2) = committed s1' /\
  (exists e s2', create_prompt prompt2 by2 s2 = Raise e s2') /\
  (f = None -> create_prompt prompt2 by2 s2 = Raise ValueError_exists s2).
Proof.
  intros Hpc Hrun Hn Hv s2.
  destruct (create_prompt_returns prompt1 by1 s1 p1 s1' Hpc Hrun) as [-> Hboth].
  assert (Hin : In (created_row (committed s1) prompt1 by1 (clock s1 (reads s1))
                      (clock s1 (S (reads s1)))) (prompts (committed s1'))).
  { rewrite Hboth. simpl. apply in_or_app. right. by left. }
  split; [done|].
  destruct (List.find (same_version (pc_name prompt2) (pc_version prompt2))
              (prompts (committed s1'))) as [q|] eqn:Hfind.
  2:{ eapply find_none in Hfind; [|exact Hin]. exfalso.
      unfold same_version in Hfind. simpl in Hfind. rewrite Hn, Hv in Hfind.
      by rewrite !bool_decide_eq_true_2 in Hfind. }
  unfold create_prompt, get_prompt_version, query_first, store_call, persisted.
  subst s2. unfold mbind, M_bind, get_pending, mret, M_ret, raise.
  destruct f as [[|n]|]; simpl; rewrite ?Hfind; simpl;
    (split; [done|]); (split; [eauto|done]).
Qed.

Lemma duplicate_create_rejected_witness :
  create_prompt sample_create "dave"
    (open_session
       (persisted (create_prompt sample_create "carol"
                     (open_session Demo.db None Demo.clk))) None Demo.clk)
  = Raise ValueError_exists
      (open_session
         (persisted (create_prompt sample_create "carol"
                       (open_session Demo.db None Demo.clk))) None Demo.clk).
Proof.
  destruct (create_prompt sample_create "carol" (open_session Demo.db None Demo.clk))
    as [p s'|e s'] eqn:Hrun; [|discriminate Hrun].
  exact (proj2 (proj2 (proj2 (duplicate_create_rejected sample_create "carol"
    (open_session Demo.db None Demo.clk) p s' sample_create "dave" None Demo.clk
    eq_refl Hrun eq_refl eq_refl))) eq_refl).
Defined.

(** * Auto-archival and idempotent activation *)

(** C4. When the name has exactly two versions, A live and B a draft,
    activating B without store failure leaves A archived and inactive,
    B live and active, and appends exactly two history entries: an
    "auto_archived" entry by "system" for A, then a
    "set_as_live_version" entry by the caller for B. *)
Theorem auto_archival d A B updated_by clk :
  primary_key d ->
  In A (prompts d) -> In B (prompts d) ->
  Prompt.name A = Prompt.name B ->
  (forall q, In q (prompts d) -> Prompt.name q = Prompt.name B -> q = A \/ q = B) ->
  Prompt.status A = ACTIVE -> Prompt.is_active A = true ->
  Prompt.status B = DRAFT -> Prompt.is_active B = false ->
  exists B' s' h1 h2,
    set_active_version B updated_by (open_session d None clk) = Return B' s' /\
    let d' := committed s' in
    (exists A', lookup_prompt (Prompt.id A) d' = Some A' /\
                Prompt.status A' = ARCHIVED /\ Prompt.is_active A' = false) /\
    lookup_prompt (Prompt.id B) d' = Some B' /\
    Prompt.status B' = ACTIVE /\ Prompt.is_active B' = true /\
    prompt_history d' = prompt_history d ++ [h1; h2] /\
    PromptHistory.prompt_id h1 = Prompt.id A /\
    PromptHistory.changed_by h1 = "system" /\
    action_of (PromptHistory.change_reason h1) = "auto_archived" /\
    PromptHistory.prompt_id h2 = Prompt.id B /\
    PromptHistory.changed_by h2 = updated_by /\
    action_of (PromptHistory.change_reason h2) = "set_as_live_version".
Proof.
  intros Hpk HA HB Hname Htwo HsA HaA HsB HaB.
  assert (HlA : lookup_prompt (Prompt.id A) d = Some A) by (by apply lookup_primary).
  assert (HlB : lookup_prompt (Prompt.id B) d = Some B) by (by apply lookup_primary).
  assert (Hne : Prompt.id A <> Prompt.id B).
  { intros Heq. rewrite Heq in HlA. congruence. }
  assert (Hfind : List.find (other_active B) (prompts d) = Some A).
  { destruct (List.find (other_active B) (prompts d)) as [q|] eqn:Hf.
    - apply find_some in Hf as [Hq Hoa]. apply other_active_live in Hoa as [Lq Nq].
      unfold live_under, has_name in Lq. apply andb_true_iff in Lq as [Lq _].
      apply bool_decide_eq_true in Lq.
      destruct (Htwo q Hq Lq) as [->| ->]; [done|congruence].
    - eapply find_none in Hf; [|exact HA].
      assert (other_active B A = true); [|congruence].
      apply other_active_live. split; [|done].
      unfold live_under, has_name. rewrite HaA, bool_decide_eq_true_2; done. }
  pose proof (set_active_version_stages B updated_by (open_session d None clk)
                eq_refl HlB) as Hwp.
  apply wp_returns in Hwp as (B' & s' & Hrun & Hlast & _ & HB'); [|done].
  simpl in Hlast. unfold activation_stages in Hlast. rewrite Hfind in Hlast.
  cbv zeta in Hlast.
  destruct (stamp clk 0 (Prompt.updated_at A) true) as [t0 r1].
  cbn [fst snd] in Hlast. simpl in Hlast. injection Hlast as Hlast.
  destruct (archived_stage_spec d A B t0 (clk r1) HlA HlB Hne)
    as (Ha1 & Ha2 & Ha3).
  destruct (live_stage_spec _ B B updated_by (clk (S r1)) (clk (S (S r1))) Ha2)
    as (Hl1 & Hl2 & Hl3).
  simpl in HB'. rewrite Hlast in HB'. rewrite Hl1 in HB'. injection HB' as <-.
  eexists _, s', _, _. split; [exact Hrun|]. cbn zeta. rewrite Hlast.
  split; [exists (archive_row t0 A); by rewrite Hl2|].
  split; [done|]. split; [done|]. split; [done|].
  split; [by rewrite Hl3, Ha3, <- app_assoc|]. done.
Qed.

Lemma auto_archival_witness :
  exists B' s',
    set_active_version Demo.B "bob" (open_session Demo.db None Demo.clk) = Return B' s' /\
    Prompt.status B' = ACTIVE /\ Prompt.is_active B' = true.
Proof.
  destruct (auto_archival Demo.db Demo.A Demo.B "bob" Demo.clk demo_primary_key)
    as (B' & s' & h1 & h2 & Hrun & _ & _ & Hs & Ha & _).
  - simpl. auto.
  - simpl. auto.
  - reflexivity.
  - simpl. intros q [<-|[<-|[]]] _; auto.
  - reflexivity.
  - reflexivity.
  - reflexivity.
  - reflexivity.
  - exists B', s'. auto.
Defined.


(** X26. Activating through either endpoint a version whose record is
    already active changes nothing: the committed state is the same,
    whatever store call fails, so no history entry is written and
    [updated_at] is unchanged.  Without fault the endpoint of [api.py]
    returns the record as it is, and the router of
    [set_active_version.py] its conversion by
    [router_convert_prompt_to_response]. *)
Theorem activate_idempotent d p user f clk :
  In p (prompts d) ->
  (forall q, In q (prompts d) -> Prompt.name q = Prompt.name p ->
             Prompt.version q = Prompt.version p -> q = p) ->
  Prompt.is_active p = true ->
  let s := open_session d f clk in
  let n := Prompt.name p in
  let v := Prompt.version p in
  persisted (api_set_active_version n v user s) = d /\
  persisted (router_set_active_version n v user s) = d /\
  (f = None -> api_set_active_version n v user s = Return p s /\
               router_set_active_version n v user s
               = Return (router_convert_prompt_to_response p) s).
Proof.
  intros Hin Huniq Hact s n v.
  assert (Hfind : List.find (same_version n v) (prompts d) = Some p).
  { destruct (List.find (same_version n v) (prompts d)) as [q|] eqn:Hf.
    - apply find_some in Hf as [Hq Hsv]. unfold same_version in Hsv.
      apply andb_true_iff in Hsv as [H1 H2].
      apply bool_decide_eq_true in H1, H2. by rewrite (Huniq q Hq H1 H2).
    - eapply find_none in Hf; [|exact Hin]. unfold same_version, n, v in Hf.
      by rewrite !bool_decide_eq_true_2 in Hf. }
  unfold api_set_active_version, router_set_active_version, http_guard,
    try_except, get_prompt_version, query_first, store_call, persisted.
  subst s. unfold mbind, M_bind, get_pending, mret, M_ret, raise.
  destruct f as [[|k]|]; simpl; rewrite ?Hfind; simpl; rewrite ?Hact; simpl;
    repeat split; done.
Qed.

Lemma activate_idempotent_witness :
  api_set_active_version "p" "1.0.0" "bob" (open_session Demo.db None Demo.clk)
  = Return Demo.A (open_session Demo.db None Demo.clk).
Proof.
  refine (proj1 (proj2 (proj2 (activate_idempotent Demo.db Demo.A "bob" None Demo.clk
    _ _ eq_refl)) eq_refl)).
  - simpl. auto.
  - simpl. intros q [<-|[<-|[]]] _ Hv; [reflexivity|discriminate Hv].
Defined.

(** * The history table *)

Lemma prefix_log_stage (l : list PromptHistory.t) d i v c t r :
  l `prefix_of` prompt_history d ->
  l `prefix_of` prompt_history (log_stage d i v c t r).
Proof.
  intros Hpre. destruct (history_log_stage d i v c t r) as [->|(q & _ & ->)];
    [done|by apply prefix_app_r].
Qed.

Lemma op_stages_history o d clk r d' :
  In d' (op_stages o d clk r) ->
  match o with
  | Op_hard_delete i =>
      d' = d \/
      prompt_history d'
      = filter (fun h => PromptHistory.prompt_id h ≠ i) (prompt_history d)
  | _ => prompt_history d `prefix_of` prompt_history d'
  end.
Proof.
  destruct o as [prompt by_|i u by_|i by_|i by_|i]; simpl.
  - unfold creation_stages. destruct (List.find _ _); [by intros [<-|[]]|].
    intros [<-|[<-|[<-|[]]]]; simpl; [done|done|by apply prefix_app_r].
  - destruct (lookup_prompt i d) as [p|]; [|by intros [<-|[]]].
    unfold update_stages. destruct (changes_of p u); [by intros [<-|[]]|].
    intros [<-|[<-|[<-|[]]]]; [done|done|by apply prefix_log_stage].
  - destruct (lookup_prompt i d) as [p|]; [|by intros [<-|[]]].
    unfold activation_stages, archived_stage, live_stage.
    destruct (List.find _ _).
    + intros [<-|[<-|[<-|[]]]]; [done|by apply prefix_log_stage|].
      apply prefix_log_stage. simpl. by apply prefix_log_stage.
    + intros [<-|[<-|[]]]; [done|by apply prefix_log_stage].
  - destruct (lookup_prompt i d) as [p|]; [|by intros [<-|[]]].
    unfold delete_stages.
    intros [<-|[<-|[<-|[]]]]; [done|by apply prefix_log_stage|].
    simpl. by apply prefix_log_stage.
  - destruct (lookup_prompt i d) as [p|] eqn:Hp; [|intros [<-|[]]; by left].
    apply find_has_id_id in Hp as <-.
    intros [<-|[<-|[]]]; [by left|by right].
Qed.

(** C8 (amended). A create, update, activate or soft-delete request
    only appends to the history table: the rows written before are kept,
    unchanged and in order, whatever store call fails.  A hard delete
    is the exception: it either commits nothing or removes, with the
    version, exactly the history rows that refer to it (the relationship
    cascades), keeping all others; without fault, on an existing
    version, it removes them. *)
Theorem history_append_only_but_cascade r db :
  match rq_op r with
  | Op_hard_delete i =>
      (serve r db = db \/
       prompt_history (serve r db)
       = filter (fun h => PromptHistory.prompt_id h ≠ i) (prompt_history db)) /\
      (rq_fault r = None -> is_Some (lookup_prompt i db) ->
       prompt_history (serve r db)
       = filter (fun h => PromptHistory.prompt_id h ≠ i) (prompt_history db))
  | _ => prompt_history db `prefix_of` prompt_history (serve r db)
  end.
Proof.
  destruct (serve_stops r db) as [Hin Hnf].
  pose proof (op_stages_history _ _ _ _ _ Hin) as H.
  destruct (rq_op r) as [prompt by_|i u by_|i by_|i by_|i]; try exact H.
  split; [exact H|]. intros Hf [p Hp]. specialize (Hnf Hf). simpl in Hnf.
  rewrite Hp in Hnf. simpl in Hnf. injection Hnf as ->. simpl.
  by apply find_has_id_id in Hp as ->.
Qed.

(** The claim of C8 fails: a hard delete of version A removes the
    history row that was written for it. *)
Lemma hard_delete_drops_history :
  let out := serve {| rq_op := Op_hard_delete 1; rq_fault := None;
                      rq_clock := Demo.clk |} Demo.db in
  In Demo.hA (prompt_history Demo.db) /\
  PromptHistory.prompt_id Demo.hA = 1 /\
  prompt_history out = [].
Proof. vm_compute. repeat split; auto. Qed.

(** * Soft delete *)

(** C10 (amended). The "delete" entry of a soft delete is written and
    committed before the row is archived, so it snapshots the status the
    version had before the call, whatever that status is: a draft or
    live version is recorded as such, and the entry says archived only
    when the version was already archived.  Without fault the call
    returns [True], the entry is appended and the row ends archived and
    inactive. *)
Theorem delete_snapshots_prior_status p deleted_by s :
  pending s = committed s ->
  lookup_prompt (Prompt.id p) (committed s) = Some p ->
  let d := committed s in
  let entry := log_entry d p (Prompt.id p) (Prompt.version p) deleted_by
                 (clock s (reads s)) (delete_reason p) in
  let out := persisted (delete_prompt (Some p) deleted_by s) in
  (prompt_history out = prompt_history d \/
   prompt_history out = prompt_history d ++ [entry]) /\
  PromptHistory.status entry = Prompt.status p /\
  action_of (PromptHistory.change_reason entry) = "delete" /\
  (PromptHistory.status entry = ARCHIVED <-> Prompt.status p = ARCHIVED) /\
  (fault s = None ->
   exists s' p', delete_prompt (Some p) deleted_by s = Return true s' /\
     prompt_history (committed s') = prompt_history d ++ [entry] /\
     lookup_prompt (Prompt.id p) (committed s') = Some p' /\
     Prompt.status p' = ARCHIVED /\ Prompt.is_active p' = false).
Proof.
  intros Hpc Hp d entry out.
  pose proof (delete_prompt_stages p deleted_by s Hpc Hp) as Hwp.
  assert (Hlog : log_stage d (Prompt.id p) (Prompt.version p) deleted_by
                   (clock s (reads s)) (delete_reason p) = logged d entry).
  { unfold log_stage. fold d in Hp. by rewrite Hp. }
  fold d in Hwp. unfold delete_stages in Hwp. rewrite Hlog in Hwp.
  split.
  { subst out. eapply wp_persisted; [exact Hwp| |].
    - intros b s' [_ Hlast]. simpl in Hlast. injection Hlast as ->. by right.
    - intros e s' [[<-|[<-|[<-|[]]]] _]; simpl; auto. }
  split; [done|]. split; [done|]. split; [done|].
  intros Hf. apply wp_returns in Hwp as (b & s' & Hrun & -> & Hlast); [|done].
  simpl in Hlast. injection Hlast as Hlast.
  exists s', (soft_delete_row (clock s (S (reads s))) p).
  split; [done|]. rewrite Hlast. split; [done|]. split.
  - rewrite lookup_pure_modify by auto with rows.
    rewrite lookup_logged. fold d in Hp. rewrite Hp. simpl.
    unfold has_id. by rewrite bool_decide_eq_true_2.
  - done.
Qed.

Lemma delete_snapshots_prior_status_witness :
  exists s', delete_prompt (Some Demo.A) "bob" (open_session Demo.db None Demo.clk)
             = Return true s'.
Proof.
  destruct (delete_snapshots_prior_status Demo.A "bob"
              (open_session Demo.db None Demo.clk) eq_refl eq_refl)
    as (_ & _ & _ & _ & H).
  destruct (H eq_refl) as (s' & p' & Hrun & _). exists s'. exact Hrun.
Defined.

(** The claim of C10 fails on a version that is archived already: the
    "delete" entry of its soft delete records the status archived. *)
Lemma delete_entry_can_say_archived :
  let arch := Prompt.set_is_active false (Prompt.set_status ARCHIVED Demo.A) in
  let d := {| prompts := [arch; Demo.B]; prompt_history := [] |} in
  let out := persisted (delete_prompt (Some arch) "bob"
                          (open_session d None Demo.clk)) in
  (fun h => (action_of (PromptHistory.change_reason h), PromptHistory.status h))
    <$> prompt_history out
  = [("delete", ARCHIVED)].
Proof. vm_compute. reflexivity. Qed.

(** * Update *)

Lemma tracked_None {V} (supplied : option V) (P : V -> Prop) `{forall v, Decision (P v)} :
  tracked supplied (fun v => bool_decide (~ P v)) = None <->
  (forall v, supplied = Some v -> P v).
Proof.
  unfold tracked. destruct supplied as [v|]; [|by split].
  destruct (bool_decide (~ P v)) eqn:Hb.
  - apply bool_decide_eq_true in Hb. split; [done|]. intros Hv. destruct Hb. by apply Hv.
  - apply bool_decide_eq_false in Hb. split; [|done].
    intros _ w [= <-]. by apply dec_stable.
Qed.

Lemma tracked_None_bool {V} (supplied : option V) (changed : V -> bool) :
  tracked supplied changed = None <->
  (forall v, supplied = Some v -> changed v = false).
Proof.
  unfold tracked. destruct supplied as [v|]; [|by split].
  destruct (changed v) eqn:Hb.
  - split; [done|]. intros Hv. specialize (Hv v eq_refl). congruence.
  - split; [|done]. by intros _ w [= <-].
Qed.

Lemma py_ne_metadata_false v old :
  py_ne_metadata v old = false <->
  exists m, old = Some m /\ py_value <$> v = py_value <$> m.
Proof.
  unfold py_ne_metadata, py_eq_dict. destruct old as [o|].
  - rewrite negb_false_iff, bool_decide_eq_true. split.
    + intros H. by exists o.
    + by intros (m & [= <-] & H).
  - split; [done|]. by intros (m & ? & _).
Qed.

Lemma entry_of_nil {V} (o : option V) entry : entry_of o entry = [] <-> o = None.
Proof. by destruct o. Qed.

Lemma changes_of_nil p u : changes_of p u = [] <-> unchanged p u.
Proof.
  unfold changes_of, unchanged.
  rewrite !app_nil, !entry_of_nil.
  unfold new_content, new_description, new_tags, new_metadata.
  rewrite (tracked_None (pu_content u) (fun v => v = Prompt.content p)).
  rewrite (tracked_None (pu_description u) (fun v => Some v = Prompt.description p)).
  rewrite (tracked_None (pu_tags u)
             (fun v => tag_set (Some v) = tag_set (Prompt.tags p))).
  rewrite (tracked_None_bool (pu_metadata_ u)).
  by setoid_rewrite py_ne_metadata_false.
Qed.

Lemma wp_eq {A} (m : M A) (x : A) s0 s :
  wp m (fun a s' => a = x /\ s' = s0) (fun _ _ => False) s -> m s = Return x s0.
Proof. unfold wp. destruct (m s); [by intros [-> ->]|done]. Qed.

Lemma update_prompt_unchanged p u updated_by s :
  changes_of p u = [] -> update_prompt p u updated_by s = Return p s.
Proof.
  intros Hch. apply wp_eq. unfold update_prompt.
  apply wp_bind, wp_track, wp_bind, wp_track, wp_bind, wp_track, wp_bind, wp_track.
  fold (new_content p u) (new_description p u) (new_tags p u) (new_metadata p u).
  fold (changes_of p u). rewrite Hch.
  unfold changes_of in Hch. rewrite !app_nil, !entry_of_nil in Hch.
  destruct Hch as (-> & -> & -> & ->). simpl.
  rewrite !pure_modify_id, !with_pending_same. by apply wp_ret.
Qed.

(** C9 (amended). [update_prompt] is a no-op exactly when every supplied
    field equals the current one, where tags are compared as sets (a
    reordering or a repetition of the same tags is no change) and the
    metadata as Python compares dictionaries: then it returns the record
    without touching the session, so [updated_at] is not bumped and no
    history entry is written.  Otherwise, without fault, it assigns the
    changed fields, sets [updated_at] to the time [stamp] gives (the
    reading of the clock, or the next one where [onupdate] steps in)
    and appends exactly one "update" entry carrying the old and new
    values of the changed fields. *)
Theorem update_noop_iff_unchanged p u updated_by s :
  (unchanged p u -> update_prompt p u updated_by s = Return p s) /\
  (~ unchanged p u ->
   pending s = committed s ->
   lookup_prompt (Prompt.id p) (committed s) = Some p ->
   fault s = None ->
   exists p' s' h,
     update_prompt p u updated_by s = Return p' s' /\
     p' = Prompt.set_updated_at
            (fst (stamp (clock s) (reads s) (Prompt.updated_at p) true))
            (apply_update p u p) /\
     lookup_prompt (Prompt.id p) (committed s') = Some p' /\
     prompt_history (committed s') = prompt_history (committed s) ++ [h] /\
     PromptHistory.prompt_id h = Prompt.id p /\
     PromptHistory.changed_by h = updated_by /\
     PromptHistory.change_reason h = Detailed "update" (changes_of p u) /\
     changes_of p u <> []).
Proof.
  split.
  - intros Hu. apply update_prompt_unchanged. by apply changes_of_nil.
  - intros Hu Hpc Hp Hf.
    assert (Hch : changes_of p u <> []) by (by rewrite changes_of_nil).
    pose proof (update_prompt_stages p u updated_by s Hpc Hp) as Hwp.
    apply wp_returns in Hwp as (p' & s' & Hrun & Hlast & Hp'); [|done].
    unfold update_stages in Hlast.
    destruct (changes_of p u) as [|c cs] eqn:Hc; [done|].
    cbv zeta in Hlast.
    destruct (stamp (clock s) (reads s) (Prompt.updated_at p) true) as [t0 r1].
    cbn [fst snd] in *. simpl in Hlast. injection Hlast as Hlast.
    set (f := Prompt.set_updated_at t0 ∘ apply_update p u) in *.
    assert (Hl : lookup_prompt (Prompt.id p)
                   (pure_modify (Prompt.id p) f (committed s)) = Some (f p)).
    { rewrite lookup_pure_modify, Hp by (unfold f; auto with rows). simpl.
      unfold has_id. by rewrite bool_decide_eq_true_2. }
    unfold log_stage in Hlast. rewrite Hl in Hlast.
    rewrite Hlast in Hp'. rewrite lookup_logged, Hl in Hp'. injection Hp' as <-.
    eexists (f p), s', _. split; [exact Hrun|]. split; [done|].
    rewrite Hlast. split; [by rewrite lookup_logged|]. done.
Qed.

Lemma update_noop_iff_unchanged_witness :
  exists p' s',
    update_prompt Demo.A new_text "bob" (open_session Demo.db None Demo.clk)
    = Return p' s' /\ Prompt.updated_at p' = 100.
Proof.
  destruct (proj2 (update_noop_iff_unchanged Demo.A new_text "bob"
                     (open_session Demo.db None Demo.clk)))
    as (p' & s' & h & Hrun & Hp' & _).
  - intros (H & _). specialize (H _ eq_refl). discriminate H.
  - reflexivity.
  - reflexivity.
  - reflexivity.
  - exists p', s'. split; [exact Hrun|]. rewrite Hp'. reflexivity.
Defined.

(** The claim of C9 fails: the supplied tags differ from the current
    ones (the order is another), yet the update is a no-op: the record
    comes back as it was and nothing is committed or logged. *)
Lemma update_reordered_tags_is_noop :
  pu_tags reorder_tags <> Prompt.tags Demo.A /\
  update_prompt Demo.A reorder_tags "bob" (open_session Demo.db None Demo.clk)
  = Return Demo.A (open_session Demo.db None Demo.clk).
Proof. split; [discriminate|]. vm_compute. reflexivity. Qed.

(** A boolean for the integer equal to it is no change either: the
    stored metadata is [{"k": 1}], the supplied one [{"k": true}]. *)
Lemma update_true_for_one_is_noop :
  pu_metadata_ Labelled.truth <> Prompt.metadata_ Labelled.live /\
  unchanged Labelled.live Labelled.truth /\
  update_prompt Labelled.live Labelled.truth "bob"
    (open_session Labelled.db None Demo.clk)
  = Return Labelled.live (open_session Labelled.db None Demo.clk).
Proof.
  split.
  { intros H. apply (inj Some) in H.
    apply (f_equal (fun m : gmap string json => m !! "k")) in H.
    rewrite !lookup_singleton in H. discriminate H. }
  assert (Hu : unchanged Labelled.live Labelled.truth).
  { repeat split; try discriminate. intros v [= <-].
    eexists. split; [reflexivity|]. by rewrite !map_fmap_singleton. }
  split; [exact Hu|]. by apply update_prompt_unchanged, changes_of_nil.
Qed.

(** * The auto-incremented version *)

Lemma split_dot_no_dot s : no_dot s = true -> split_dot s = [s].
Proof.
  induction s as [|c s IH]; simpl; [done|].
  destruct (Ascii.eqb c dot); simpl; [done|]. intros H. by rewrite IH.
Qed.

Lemma split_dot_append a b :
  no_dot a = true ->
  split_dot (String.append a (String dot b)) = a :: split_dot b.
Proof.
  induction a as [|c a IH]; simpl.
  - intros _. done.
  - destruct (Ascii.eqb c dot); simpl; [done|]. intros H. by rewrite IH.
Qed.

Lemma split_dot_dotted major minor patch :
  no_dot major = true -> no_dot minor = true -> no_dot patch = true ->
  split_dot (dotted major minor patch) = [major; minor; patch].
Proof.
  intros H1 H2 H3. unfold dotted.
  change (String.append "." ?x) with (String dot x).
  rewrite split_dot_append by done.
  change (String.append "." patch) with (String dot patch).
  rewrite split_dot_append by done.
  by rewrite split_dot_no_dot.
Qed.

Lemma ascii_compare_lt_trans x y z :
  Ascii.compare x y = Lt -> Ascii.compare y z = Lt -> Ascii.compare x z = Lt.
Proof.
  unfold Ascii.compare. rewrite !N.compare_lt_iff. apply N.lt_trans.
Qed.

Lemma string_compare_lt_trans a b c :
  String.compare a b = Lt -> String.compare b c = Lt -> String.compare a c = Lt.
Proof.
  revert b c. induction a as [|x a IH]; intros [|y b] [|z c]; simpl; try done.
  destruct (Ascii.compare x y) eqn:Hxy; try done.
  - apply Ascii.compare_eq_iff in Hxy as ->.
    destruct (Ascii.compare y z); try done. apply IH.
  - intros _. destruct (Ascii.compare y z) eqn:Hyz; try done.
    + apply Ascii.compare_eq_iff in Hyz as ->. by rewrite Hxy.
    + by rewrite (ascii_compare_lt_trans x y z).
Qed.

Lemma ltb_trans a b c :
  String.ltb a b = true -> String.ltb b c = true -> String.ltb a c = true.
Proof.
  unfold String.ltb. intros H1 H2.
  destruct (String.compare a b) eqn:Hab; try done.
  destruct (String.compare b c) eqn:Hbc; try done.
  by rewrite (string_compare_lt_trans a b c).
Qed.

Lemma ltb_irrefl a : String.ltb a a = false.
Proof.
  unfold String.ltb. pose proof (String.compare_antisym a a) as H.
  destruct (String.compare a a); simpl in H; done.
Qed.

Lemma not_ltb_ltb_trans a b c :
  String.ltb a b = false -> String.ltb a c = true -> String.ltb b c = true.
Proof.
  intros Hab Hac. unfold String.ltb in Hab.
  destruct (String.compare a b) eqn:Hc; try done.
  - by apply String.compare_eq_iff in Hc as ->.
  - apply (ltb_trans b a c); [|done]. unfold String.ltb.
    rewrite String.compare_antisym, Hc. done.
Qed.

Lemma foldl_later_version ls best :
  match foldl later_version best ls with
  | Some L =>
      (Some L = best \/ In L ls) /\
      (forall b, best = Some b ->
         String.ltb (Prompt.version L) (Prompt.version b) = false) /\
      (forall q, In q ls -> String.ltb (Prompt.version L) (Prompt.version q) = false)
  | None => best = None /\ ls = []
  end.
Proof.
  revert best. induction ls as [|a ls IH]; intros best; simpl.
  - destruct best as [b|]; [|done]. split; [by left|]. split; [|done].
    intros ? [= <-]. apply ltb_irrefl.
  - specialize (IH (later_version best a)).
    destruct (foldl later_version (later_version best a) ls) as [L|];
      [|by destruct best as [b|]; simpl in IH; [destruct (String.ltb _ _)|];
          destruct IH].
    destruct IH as (Hin & Hbest & Hls).
    assert (HLa : String.ltb (Prompt.version L) (Prompt.version a) = false).
    { destruct best as [b|]; simpl in *; [|by apply Hbest].
      destruct (String.ltb (Prompt.version b) (Prompt.version a)) eqn:Hba;
        [by apply Hbest|].
      destruct (String.ltb (Prompt.version L) (Prompt.version a)) eqn:HLa; [|done].
      pose proof (not_ltb_ltb_trans _ _ _ (Hbest b eq_refl) HLa). congruence. }
    split; [|split].
    + destruct Hin as [Hin|Hin]; [|by right; right].
      destruct best as [b|]; simpl in Hin.
      * destruct (String.ltb _ _); injection Hin as ->; [right|]; by left.
      * injection Hin as ->. right. by left.
    + intros b ->. simpl in Hbest.
      destruct (String.ltb (Prompt.version b) (Prompt.version a)) eqn:Hba;
        [|by apply Hbest].
      destruct (String.ltb (Prompt.version L) (Prompt.version b)) eqn:HLb; [|done].
      pose proof (ltb_trans _ _ _ HLb Hba). congruence.
    + intros q [<-|Hq]; [done|by apply Hls].
Qed.

Lemma latest_by_version_max name l base :
  In base l -> Prompt.name base = name ->
  exists L, latest_by_version name l = Some L /\ In L l /\ Prompt.name L = name /\
    forall q, In q l -> Prompt.name q = name ->
      String.ltb (Prompt.version L) (Prompt.version q) = false.
Proof.
  intros Hin Hname. unfold latest_by_version.
  pose proof (foldl_later_version (List.filter (has_name name) l) None) as H.
  assert (Hb : In base (List.filter (has_name name) l)).
  { apply filter_In. split; [done|]. unfold has_name. by rewrite bool_decide_eq_true_2. }
  destruct (foldl later_version None (List.filter (has_name name) l)) as [L|].
  - destruct H as ([?|HL] & _ & Hmax); [done|].
    apply filter_In in HL as [HL HN]. unfold has_name in HN.
    apply bool_decide_eq_true in HN.
    exists L. repeat split; try done.
    intros q Hq Hqn. apply Hmax, filter_In. split; [done|].
    unfold has_name. by rewrite bool_decide_eq_true_2.
  - destruct H as [_ Hnil]. rewrite Hnil in Hb. done.
Qed.

Lemma update_with_auto_version_run {U : UnicodeData} d i base u user clk :
  lookup_prompt i d = Some base ->
  let s := open_session d None clk in
  let latest :=
    default base (latest_by_version (Prompt.name base) (prompts d)) in
  update_with_auto_version i u user s
  = match auto_version d base with
    | Some v => http_guard (create_prompt (new_prompt_data base latest u v) user) s
    | None => Raise (HTTP 500) s
    end.
Proof.
  intros Hl s latest. unfold update_with_auto_version, auto_version.
  fold latest. unfold lookup_prompt in Hl.
  unfold http_guard, try_except, get_prompt, get_latest_prompt_version,
    query_first, store_call, get_pending, raise.
  unfold mbind, M_bind, mret, M_ret. subst s. unfold open_session. simpl.
  rewrite Hl. simpl. fold latest.
  by destruct (next_version (Prompt.version latest)).
Qed.

(** C6 (amended). The update-version endpoint takes, among the versions
    of the base prompt's name, the one whose version string comes last
    in byte-wise string order (not the most recently created one).
    When that string splits at its dots into exactly three parts whose
    third part is an integer literal as Python's [int] reads it, the
    new version keeps the first two parts and carries the literal's
    value plus one ("2.3.4" yields "2.3.5"), whatever the Unicode
    database of the interpreter; when it does not split into exactly
    three parts, the new
    version is the string followed by ".1" ("beta" yields "beta.1").
    The endpoint then creates the prompt with that version. *)
Theorem auto_version_rule {U : UnicodeData} d i base :
  lookup_prompt i d = Some base ->
  exists L,
    latest_by_version (Prompt.name base) (prompts d) = Some L /\
    In L (prompts d) /\ Prompt.name L = Prompt.name base /\
    (forall q, In q (prompts d) -> Prompt.name q = Prompt.name base ->
       String.ltb (Prompt.version L) (Prompt.version q) = false) /\
    (forall major minor patch n new_patch,
       no_dot major = true -> no_dot minor = true -> no_dot patch = true ->
       Prompt.version L = dotted major minor patch ->
       py_int patch = Some n -> py_str (n + 1) = Some new_patch ->
       auto_version d base = Some (dotted major minor new_patch)) /\
    (length (split_dot (Prompt.version L)) <> 3%nat ->
     auto_version d base = Some (String.append (Prompt.version L) ".1")) /\
    (forall u user clk,
       update_with_auto_version i u user (open_session d None clk)
       = match auto_version d base with
         | Some v =>
             http_guard (create_prompt (new_prompt_data base L u v) user)
               (open_session d None clk)
         | None => Raise (HTTP 500) (open_session d None clk)
         end) /\
    next_version "2.3.4" = Some "2.3.5" /\
    next_version "beta" = Some "beta.1".
Proof.
  intros Hl.
  destruct (latest_by_version_max (Prompt.name base) (prompts d) base)
    as (L & HL & Hin & Hname & Hmax); [by eapply find_has_id_In|done|].
  exists L. split; [done|]. split; [done|]. split; [done|]. split; [done|].
  assert (Hav : auto_version d base = next_version (Prompt.version L)).
  { unfold auto_version. by rewrite HL. }
  split; [|split; [|split; [|split]]].
  - intros major minor patch n new_patch H1 H2 H3 Hv Hint Hstr.
    rewrite Hav, Hv. unfold next_version.
    rewrite split_dot_dotted by done. rewrite Hint. simpl. rewrite Hstr. done.
  - intros Hlen. rewrite Hav. unfold next_version.
    destruct (split_dot (Prompt.version L)) as [|a [|b [|c [|e k]]]]; done.
  - intros u user clk. rewrite (update_with_auto_version_run d i base) by done.
    by rewrite HL.
  - by vm_compute.
  - by vm_compute.
Qed.

Lemma auto_version_rule_witness :
  auto_version (U := unicode_14) Demo.db Demo.B = Some "1.1.1".
Proof.
  destruct (auto_version_rule (U := unicode_14) Demo.db 2 Demo.B eq_refl)
    as (L & HL & _ & _ & _ & Hinc & _).
  injection HL as <-.
  exact (Hinc "1" "1" "0" 0 "1" eq_refl eq_refl eq_refl eq_refl eq_refl eq_refl).
Defined.

(** The claim of C6 fails: the version created last is "1.0.0", whose
    patch increment is "1.0.1", but the endpoint goes by string order,
    starts from "2.0.0" and creates "2.0.1". *)
Lemma auto_version_not_by_creation :
  Prompt.version <$> latest_by_creation "p" (prompts Versions.db) = Some "1.0.0" /\
  next_version (U := unicode_14) "1.0.0" = Some "1.0.1" /\
  Prompt.version <$>
    last (prompts (persisted (update_with_auto_version (U := unicode_14) 1
                                Versions.no_update "bob"
                                (open_session Versions.db None Demo.clk))))
  = Some "2.0.1".
Proof. vm_compute. repeat split; reflexivity. Qed.

(** A third part in digits of another script is an integer literal too:
    with the database of Unicode 14.0, "1.0.٣" yields "1.0.4". *)
Lemma next_version_arabic_indic :
  py_int (U := unicode_14) arabic_indic_three = Some 3 /\
  next_version (U := unicode_14) (String.append "1.0." arabic_indic_three)
  = Some "1.0.4".
Proof. by vm_compute. Qed.

(** * Invariant A on a sample sequence *)

Lemma at_most_one_live_preserved_witness :
  Forall (fun d => (live_count "p" d <= 1)%nat) (serve_all sample_requests Demo.db).
Proof.
  apply at_most_one_live_preserved; [exact demo_primary_key | vm_compute; lia].
Defined.

(** * The writes of a request *)

Lemma row_write_birth f p : row_write f -> birth_columns (f p) = birth_columns p.
Proof.
  intros [t|t|t|t p0 u]; destruct p as []; try reflexivity.
  unfold apply_update, assign, compose.
  by destruct (new_metadata p0 u), (new_tags p0 u), (new_description p0 u),
    (new_content p0 u).
Qed.

Lemma row_write_keeps_id f : row_write f -> keeps_id f.
Proof.
  intros Hf p. pose proof (row_write_birth f p Hf) as H.
  unfold birth_columns in H. congruence.
Qed.

Lemma row_write_version f p : row_write f -> Prompt.version (f p) = Prompt.version p.
Proof.
  intros Hf. pose proof (row_write_birth f p Hf) as H.
  unfold birth_columns in H. congruence.
Qed.

Lemma map_update_row {K} (k : Prompt.t -> K) i f l :
  (forall p, k (f p) = k p) -> map k (update_row i f l) = map k l.
Proof.
  intros Hk. unfold update_row. rewrite map_map. apply map_ext.
  intros p. by destruct (has_id i p).
Qed.

(** The version string of the row of key [i] survives a column write. *)
Lemma lookup_write_version i j f d v :
  row_write f ->
  (forall q, lookup_prompt i d = Some q -> Prompt.version q = v) ->
  forall q, lookup_prompt i (pure_modify j f d) = Some q -> Prompt.version q = v.
Proof.
  intros Hf Hv q. rewrite lookup_pure_modify by by apply row_write_keeps_id.
  destruct (lookup_prompt i d) as [q0|]; [|done]. simpl. intros [= <-].
  destruct (has_id j q0); [rewrite row_write_version by done|]; by apply Hv.
Qed.

Lemma log_stage_steps d p changed_by t r :
  (forall q, lookup_prompt (Prompt.id p) d = Some q ->
     Prompt.version q = Prompt.version p) ->
  rtc db_step d (log_stage d (Prompt.id p) (Prompt.version p) changed_by t r).
Proof.
  intros Hv. unfold log_stage.
  destruct (lookup_prompt (Prompt.id p) d) as [q|] eqn:Hq; [|reflexivity].
  apply rtc_once. rewrite <- (Hv q eq_refl).
  pose proof (find_has_id_id _ _ _ Hq) as Hid. rewrite <- Hid in Hq |- *.
  by apply step_log.
Qed.

Lemma write_then_log d p f changed_by t r :
  row_write f ->
  (forall q, lookup_prompt (Prompt.id p) d = Some q ->
     Prompt.version q = Prompt.version p) ->
  rtc db_step d
    (log_stage (pure_modify (Prompt.id p) f d) (Prompt.id p) (Prompt.version p)
       changed_by t r).
Proof.
  intros Hf Hv. eapply rtc_l; [by apply (step_write d (Prompt.id p) f)|].
  apply log_stage_steps. by apply lookup_write_version.
Qed.

Lemma lookup_self_version i d p :
  lookup_prompt i d = Some p ->
  forall q, lookup_prompt (Prompt.id p) d = Some q -> Prompt.version q = Prompt.version p.
Proof.
  intros Hp q. rewrite (find_has_id_id _ _ _ Hp). congruence.
Qed.

(** Every stage of a request is reached by a chain of writes. *)
Lemma op_stages_steps o d clk r d' :
  primary_key d -> In d' (op_stages o d clk r) -> rtc db_step d d'.
Proof.
  intros Hpk. destruct o as [prompt by_|i u by_|i by_|i by_|i]; simpl.
  - unfold creation_stages. destruct (List.find _ _) eqn:Hex; [by intros [<-|[]]|].
    set (row := created_row _ _ _ _ _).
    assert (H1 : db_step d (inserted d row)) by by apply step_insert.
    intros [<-|[<-|[<-|[]]]]; [reflexivity|by apply rtc_once|].
    eapply rtc_l; [exact H1|]. apply rtc_once. unfold create_entry.
    apply step_log. by apply lookup_inserted.
  - destruct (lookup_prompt i d) as [p|] eqn:Hp; [|by intros [<-|[]]].
    unfold update_stages. destruct (changes_of p u); [by intros [<-|[]]|].
    stamp_as t0 r1.
    intros [<-|[<-|[<-|[]]]]; [reflexivity| |].
    + apply rtc_once, step_write, write_update.
    + apply write_then_log; [apply write_update|by eapply lookup_self_version].
  - destruct (lookup_prompt i d) as [p|] eqn:Hp; [|by intros [<-|[]]].
    pose proof (lookup_self_version _ _ _ Hp) as Hv.
    unfold activation_stages.
    destruct (List.find (other_active p) (prompts d)) as [ex|] eqn:Hex.
    + apply find_some in Hex as [Hin _].
      pose proof (lookup_primary d ex Hpk Hin) as Hl.
      stamp_as t0 r1.
      assert (Ha : rtc db_step d (archived_stage d ex p t0 (clk r1))).
      { apply write_then_log; [apply write_archive|].
        by eapply lookup_self_version. }
      intros [<-|[<-|[<-|[]]]]; [reflexivity|done|].
      etrans; [exact Ha|]. apply write_then_log; [apply write_activate|].
      unfold archived_stage. intros q. rewrite lookup_log_stage.
      by apply lookup_write_version; [apply write_archive|].
    + stamp_as t0 r1.
      intros [<-|[<-|[]]]; [reflexivity|].
      by apply write_then_log; [apply write_activate|].
  - destruct (lookup_prompt i d) as [p|] eqn:Hp; [|by intros [<-|[]]].
    pose proof (lookup_self_version _ _ _ Hp) as Hv.
    unfold delete_stages.
    intros [<-|[<-|[<-|[]]]]; [reflexivity|by apply log_stage_steps|].
    eapply rtc_r; [by apply log_stage_steps|].
    apply step_write, write_soft_delete.
  - destruct (lookup_prompt i d) as [p|]; [|by intros [<-|[]]].
    intros [<-|[<-|[]]]; [reflexivity|]. apply rtc_once, step_delete.
Qed.

Lemma serve_steps r db : primary_key db -> rtc db_step db (serve r db).
Proof.
  intros Hpk. eapply op_stages_steps; [done|]. apply (serve_stops r db).
Qed.

(** ** What a write preserves *)

Lemma NoDup_map_filter {K} (k : Prompt.t -> K) (P : Prompt.t -> Prop)
    `{forall x, Decision (P x)} l :
  NoDup (map k l) -> NoDup (map k (filter P l)).
Proof.
  induction l as [|a l IH]; [done|]. simpl. rewrite NoDup_cons. intros [Ha Hnd].
  rewrite filter_cons. destruct (decide (P a)); [|by apply IH].
  simpl. apply NoDup_cons. split; [|by apply IH].
  intros Hin. apply Ha.
  apply list_elem_of_In, in_map_iff in Hin as (x & Hx & Hin).
  apply list_elem_of_In, list_elem_of_filter in Hin as [_ Hin].
  rewrite <- Hx. apply list_elem_of_In, in_map, list_elem_of_In, Hin.
Qed.

Lemma NoDup_map_snoc {K} (k : Prompt.t -> K) l row :
  (forall q, In q l -> k q <> k row) -> NoDup (map k l) -> NoDup (map k (l ++ [row])).
Proof.
  intros Hfresh Hnd. rewrite map_app. simpl. apply NoDup_app. split; [done|]. split.
  - intros x Hx Hx'. apply list_elem_of_singleton in Hx'. subst x.
    apply list_elem_of_In, in_map_iff in Hx as (q & Hq & Hin). by apply (Hfresh q).
  - apply NoDup_singleton.
Qed.

Lemma db_step_primary_key d d' : db_step d d' -> primary_key d -> primary_key d'.
Proof.
  unfold primary_key. intros [i f Hf|q c t r Hq|prompt c t1 t2 Hex|i] Hpk; simpl.
  - rewrite update_row_ids; [done|by apply row_write_keeps_id].
  - done.
  - apply NoDup_map_snoc; [|done]. intros q Hq. simpl.
    pose proof (next_id_fresh _ _ (in_map Prompt.id _ _ Hq)). lia.
  - by apply NoDup_map_filter.
Qed.

Lemma db_step_unique_versions d d' :
  db_step d d' -> unique_versions d -> unique_versions d'.
Proof.
  unfold unique_versions. intros [i f Hf|q c t r Hq|prompt c t1 t2 Hex|i] Hu; simpl.
  - rewrite map_update_row; [done|]. intros p.
    pose proof (row_write_birth f p Hf) as H.
    unfold birth_columns, version_key in *. congruence.
  - done.
  - apply NoDup_map_snoc; [|done]. intros q Hq. unfold version_key. simpl.
    eapply find_none in Hex; [|exact Hq]. unfold same_version in Hex.
    intros [= Hn Hv]. by rewrite !bool_decide_eq_true_2 in Hex.
  - by apply NoDup_map_filter.
Qed.

Lemma row_write_flag f p : row_write f -> flag_agrees p -> flag_agrees (f p).
Proof.
  unfold flag_agrees. intros [t|t|t|t p0 u]; destruct p as []; try done.
  unfold apply_update, assign, compose.
  by destruct (new_metadata p0 u), (new_tags p0 u), (new_description p0 u),
    (new_content p0 u).
Qed.

Lemma db_step_flag d d' :
  db_step d d' -> Forall flag_agrees (prompts d) -> Forall flag_agrees (prompts d').
Proof.
  intros [i f Hf|q c t r Hq|prompt c t1 t2 Hex|i] HF; simpl.
  - unfold update_row. apply Forall_map. eapply Forall_impl; [exact HF|].
    intros p Hp. simpl. destruct (has_id i p); [by apply row_write_flag|done].
  - done.
  - apply Forall_app. split; [done|]. by constructor.
  - apply Forall_forall. intros p Hp.
    apply list_elem_of_filter in Hp as [_ Hp].
    by apply (proj1 (Forall_forall _ _) HF).
Qed.

Lemma db_step_attached d d' : db_step d d' -> history_attached d -> history_attached d'.
Proof.
  unfold history_attached, refers_to.
  intros [i f Hf|q c t r Hq|prompt c t1 t2 Hex|i] HA h; simpl.
  - intros Hh. destruct (HA h Hh) as (p & Hp & Hid & Hv).
    exists (if has_id i p then f p else p). split.
    + apply In_update_row. eauto.
    + destruct (has_id i p); [|done].
      by rewrite row_write_keeps_id, row_write_version.
  - intros Hh. apply in_app_or in Hh as [Hh|[<-|[]]]; [by apply HA|].
    exists q. split; [by eapply find_has_id_In|done].
  - intros Hh. destruct (HA h Hh) as (p & Hp & Hr).
    exists p. split; [apply in_or_app; by left|done].
  - intros Hh. apply list_elem_of_In, list_elem_of_filter in Hh as [Hne Hh].
    apply list_elem_of_In in Hh. destruct (HA h Hh) as (p & Hp & Hid & Hv).
    exists p. split; [|done].
    apply list_elem_of_In, list_elem_of_filter. split; [congruence|].
    by apply list_elem_of_In.
Qed.

Lemma steps_invariant (P : DB -> Prop) :
  (forall d d', db_step d d' -> P d -> P d') ->
  forall d d', rtc db_step d d' -> P d -> P d'.
Proof. intros HP d d' Hs. induction Hs; eauto. Qed.

(** A property kept by every write holds after every request. *)
Lemma serve_all_invariant (P : DB -> Prop) rs db :
  (forall d d', db_step d d' -> P d -> P d') ->
  primary_key db -> P db -> Forall P (serve_all rs db).
Proof.
  intros HP. revert db. induction rs as [|r rs IH]; intros db Hpk Hdb; simpl;
    [constructor|].
  pose proof (serve_steps r db Hpk) as Hs.
  constructor; [by eapply steps_invariant|]. apply IH.
  - eapply (steps_invariant primary_key); [apply db_step_primary_key|done..].
  - by eapply steps_invariant.
Qed.

(** * Invariants B and C, and the history's references *)

(** X1. Invariant B.  When [is_active] is set exactly on the rows of
    status ACTIVE, this is so again in the committed state after each
    request of any sequence of create, update, activate, soft-delete and
    hard-delete requests, whatever store call fails in any of them. *)
Theorem flag_follows_status_preserved (rs : list request) (db : DB) :
  primary_key db ->
  Forall flag_agrees (prompts db) ->
  Forall (fun d => Forall flag_agrees (prompts d)) (serve_all rs db).
Proof.
  intros Hpk HF.
  by apply (serve_all_invariant (fun d => Forall flag_agrees (prompts d)));
    [apply db_step_flag|..].
Qed.

Lemma flag_follows_status_preserved_witness :
  Forall (fun d => Forall flag_agrees (prompts d)) (serve_all sample_requests Demo.db).
Proof.
  apply flag_follows_status_preserved; [exact demo_primary_key|].
  repeat constructor.
Defined.

(** X2. Invariant C.  [id] stays a key of the table and no two rows come
    to carry the same name and version, in the committed state after each
    request of any sequence, whatever store call fails in any of them:
    the check in [create_prompt] is enough in the absence of a UNIQUE
    constraint, as long as requests do not interleave. *)
Theorem keys_preserved (rs : list request) (db : DB) :
  primary_key db ->
  unique_versions db ->
  Forall (fun d => primary_key d /\ unique_versions d) (serve_all rs db).
Proof.
  intros Hpk Hu.
  apply (serve_all_invariant (fun d => primary_key d /\ unique_versions d));
    [|done..].
  intros d d' Hs [H1 H2].
  split; [by eapply db_step_primary_key|by eapply db_step_unique_versions].
Qed.

Lemma demo_unique_versions : unique_versions Demo.db.
Proof.
  unfold unique_versions, version_key. simpl.
  repeat constructor; rewrite ?list_elem_of_In; simpl; intuition congruence.
Defined.

Lemma keys_preserved_witness :
  Forall (fun d => primary_key d /\ unique_versions d)
    (serve_all sample_requests Demo.db).
Proof.
  apply keys_preserved; [exact demo_primary_key|exact demo_unique_versions].
Defined.

(** X3. No orphans in the history.  When every history row belongs to a
    version of the table and carries that version's version string, this
    is so again in the committed state after each request of any
    sequence, whatever store call fails in any of them: the logger
    writes entries for rows it has found, and a hard delete takes the
    entries of its row along. *)
Theorem history_attached_preserved (rs : list request) (db : DB) :
  primary_key db ->
  history_attached db ->
  Forall history_attached (serve_all rs db).
Proof.
  intros Hpk HA. by apply serve_all_invariant; [apply db_step_attached|..].
Qed.

Lemma demo_history_attached : history_attached Demo.db.
Proof.
  intros h [<-|[]]. exists Demo.A. split; [by left|done].
Defined.

Lemma history_attached_preserved_witness :
  Forall history_attached (serve_all sample_requests Demo.db).
Proof.
  apply history_attached_preserved;
    [exact demo_primary_key|exact demo_history_attached].
Defined.

(** * Updates, soft deletes and the live version *)

Lemma serve_last o clk db :
  Some (serve {| rq_op := o; rq_fault := None; rq_clock := clk |} db)
  = last (op_stages o db clk 0).
Proof.
  by apply (serve_stops {| rq_op := o; rq_fault := None; rq_clock := clk |} db).
Qed.

Lemma filter_update_row_others i f l :
  keeps_id f ->
  filter (fun q => Prompt.id q <> i) (update_row i f l)
  = filter (fun q => Prompt.id q <> i) l.
Proof.
  intros Hf. unfold update_row. induction l as [|a l IH]; [done|].
  simpl. rewrite !filter_cons, IH. destruct (has_id i a) eqn:Ha.
  - apply has_id_true in Ha. rewrite !decide_False; [done|congruence|].
    rewrite Hf. congruence.
  - done.
Qed.

(** X4. An update writes to one row and to its editable columns only:
    whatever store call fails, the committed table has the same rows in
    the same order with the same id, name, version, author, creation
    time, status and live flag, and every row of another key is as it
    was. *)
Theorem update_touches_one_row i u updated_by f clk db :
  let d' := serve {| rq_op := Op_update i u updated_by; rq_fault := f;
                     rq_clock := clk |} db in
  map birth_columns (prompts d') = map birth_columns (prompts db) /\
  map lifecycle_columns (prompts d') = map lifecycle_columns (prompts db) /\
  filter (fun q => Prompt.id q <> i) (prompts d')
  = filter (fun q => Prompt.id q <> i) (prompts db).
Proof.
  intros d'.
  pose proof (serve_stops {| rq_op := Op_update i u updated_by; rq_fault := f;
                             rq_clock := clk |} db) as [Hin _].
  fold d' in Hin. simpl in Hin. revert Hin. generalize d'. clear d'. intros d'.
  destruct (lookup_prompt i db) as [p|] eqn:Hp; [|by intros [<-|[]]].
  pose proof (find_has_id_id _ _ _ Hp) as Hid.
  unfold update_stages. destruct (changes_of p u); [by intros [<-|[]]|].
  stamp_as t0 r1.
  set (F := Prompt.set_updated_at t0 ∘ apply_update p u).
  assert (HF : row_write F) by apply write_update.
  assert (HL : forall q, lifecycle_columns (F q) = lifecycle_columns q).
  { intros []. unfold F, lifecycle_columns, apply_update, assign, compose.
    by destruct (new_metadata p u), (new_tags p u), (new_description p u),
      (new_content p u). }
  intros [<-|[<-|[<-|[]]]]; [done| |]; rewrite ?prompts_log_stage;
    cbn [prompts pure_modify]; rewrite Hid;
    (split; [apply map_update_row; intros q; by apply row_write_birth|]);
    (split; [by apply map_update_row|]);
    by apply filter_update_row_others, row_write_keeps_id.
Qed.

Lemma filter_none {A} (f : A -> bool) l :
  (forall x, In x l -> f x = false) -> List.filter f l = [].
Proof.
  induction l as [|a l IH]; simpl; [done|]. intros H.
  rewrite (H a) by auto. apply IH. auto.
Qed.

Lemma find_filter_nil {A} (f : A -> bool) l :
  List.filter f l = [] -> List.find f l = None.
Proof.
  induction l as [|a l IH]; simpl; [done|]. by destruct (f a).
Qed.

Lemma query_first_run g db clk :
  query_first g (open_session db None clk)
  = Return (List.find g (prompts db)) (open_session db None clk).
Proof. reflexivity. Qed.

Lemma get_prompt_run i db clk :
  get_prompt i (open_session db None clk)
  = match lookup_prompt i db with
    | Some p => Return (Some p) (open_session db None clk)
    | None =>
        if sqlite_int i then Return None (open_session db None clk)
        else Raise StoreError (open_session db None clk)
    end.
Proof.
  unfold get_prompt. unfold mbind at 1. unfold M_bind. rewrite query_first_run.
  fold (lookup_prompt i db).
  destruct (lookup_prompt i db); [done|]. by destruct (sqlite_int i).
Qed.

Lemma read_live_prompt_run name db clk :
  read_live_prompt name (open_session db None clk)
  = match List.find (live_under name) (prompts db) with
    | Some p => Return p (open_session db None clk)
    | None => Raise (HTTP 404) (open_session db None clk)
    end.
Proof.
  unfold read_live_prompt, http_guard, try_except, get_active_prompt.
  unfold mbind, M_bind. rewrite query_first_run.
  fold (live_under name). by destruct (List.find (live_under name) (prompts db)).
Qed.

(** X5. Soft-deleting the live version of a name leaves the name
    without a live version: no other version is promoted, the row stays
    in the table as ARCHIVED, and the live endpoint answers 404 for the
    name from then on. *)
Theorem soft_delete_leaves_no_live i deleted_by clk clk' db p :
  primary_key db ->
  (live_count (Prompt.name p) db <= 1)%nat ->
  lookup_prompt i db = Some p ->
  Prompt.is_active p = true ->
  let d' := serve {| rq_op := Op_delete i deleted_by; rq_fault := None;
                     rq_clock := clk |} db in
  live_count (Prompt.name p) d' = 0%nat /\
  lookup_prompt i d' = Some (soft_delete_row (clk 1%nat) p) /\
  map Prompt.id (prompts d') = map Prompt.id (prompts db) /\
  read_live_prompt (Prompt.name p) (open_session d' None clk')
  = Raise (HTTP 404) (open_session d' None clk').
Proof.
  intros Hpk Hc Hp Hact d'.
  pose proof (serve_last (Op_delete i deleted_by) clk db) as Hlast.
  fold d' in Hlast. simpl in Hlast. rewrite Hp in Hlast.
  injection Hlast as Hd'. revert Hd'. generalize d'. clear d'. intros d' ->.
  pose proof (find_has_id_id _ _ _ Hp) as Hid.
  assert (Hu : unique_live (Prompt.name p) (prompts db)) by by apply count_unique.
  assert (Hlive : live_under (Prompt.name p) p = true).
  { unfold live_under, has_name. by rewrite bool_decide_eq_true_2, Hact. }
  assert (Hnil : List.filter (live_under (Prompt.name p))
                   (update_row i (soft_delete_row (clk 1%nat)) (prompts db)) = []).
  { apply filter_none. intros x Hx.
    apply In_update_row in Hx as (q & Hq & ->).
    destruct (has_id i q) eqn:Hi; [apply soft_delete_row_not_live|].
    apply has_id_false in Hi.
    destruct (live_under (Prompt.name p) q) eqn:Lq; [exfalso|done].
    apply Hi. rewrite <- Hid. apply Hu; try done. by eapply find_has_id_In. }
  unfold live_count. cbn [prompts pure_modify]. rewrite prompts_log_stage, Hid.
  split; [by rewrite Hnil|]. split.
  { rewrite lookup_pure_modify, lookup_log_stage, Hp by auto with rows.
    simpl. unfold has_id. by rewrite bool_decide_eq_true_2. }
  split; [apply update_row_ids; auto with rows|].
  rewrite read_live_prompt_run. cbn [prompts pure_modify].
  rewrite prompts_log_stage. by rewrite (find_filter_nil _ _ Hnil).
Qed.

Lemma soft_delete_leaves_no_live_witness :
  let d' := serve {| rq_op := Op_delete 1 "bob"; rq_fault := None;
                     rq_clock := Demo.clk |} Demo.db in
  live_count "p" d' = 0%nat /\
  read_live_prompt "p" (open_session d' None Demo.clk)
  = Raise (HTTP 404) (open_session d' None Demo.clk).
Proof.
  destruct (soft_delete_leaves_no_live 1 "bob" Demo.clk Demo.clk Demo.db Demo.A
              demo_primary_key) as (H1 & _ & _ & H2);
    [vm_compute; lia|reflexivity|reflexivity|].
  split; [exact H1|exact H2].
Defined.

Lemma activation_last_lookup d p updated_by clk r d' :
  primary_key d ->
  lookup_prompt (Prompt.id p) d = Some p ->
  last (activation_stages d p updated_by clk r) = Some d' ->
  exists t, lookup_prompt (Prompt.id p) d' = Some (activate_row t p).
Proof.
  intros Hpk Hp. unfold activation_stages.
  destruct (List.find (other_active p) (prompts d)) as [ex|] eqn:Hex.
  - stamp_as t0 r1. simpl.
    intros [= <-]. apply find_some in Hex as [Hin Hoa].
    apply other_active_live in Hoa as [_ Hne].
    destruct (archived_stage_spec d ex p t0 (clk r1)
                (lookup_primary d ex Hpk Hin) Hp Hne) as (_ & Hpa & _).
    destruct (live_stage_spec _ p p updated_by (clk (S r1)) (clk (S (S r1)))
                Hpa) as (Hl & _).
    eauto.
  - stamp_as t0 r1. simpl. intros [= <-].
    destruct (live_stage_spec d p p updated_by t0 (clk r1) Hp) as (Hl & _).
    eauto.
Qed.

(** The live endpoint after an activation without fault. *)
Lemma activation_live i updated_by clk clk' db p :
  primary_key db ->
  (live_count (Prompt.name p) db <= 1)%nat ->
  lookup_prompt i db = Some p ->
  let d' := serve {| rq_op := Op_set_active i updated_by; rq_fault := None;
                     rq_clock := clk |} db in
  exists q,
    read_live_prompt (Prompt.name p) (open_session d' None clk')
    = Return q (open_session d' None clk') /\
    Prompt.id q = i /\ Prompt.version q = Prompt.version p /\
    Prompt.content q = Prompt.content p /\
    Prompt.status q = ACTIVE /\ Prompt.is_active q = true /\
    live_count (Prompt.name p) d' = 1%nat.
Proof.
  intros Hpk Hc Hp d'.
  pose proof (find_has_id_id _ _ _ Hp) as Hid. subst i.
  assert (Hinv : inv (Prompt.name p) (prompts db))
    by (split; [done|by apply count_unique]).
  pose proof (serve_last (Op_set_active (Prompt.id p) updated_by) clk db) as Hlast.
  fold d' in Hlast. simpl in Hlast. rewrite Hp in Hlast.
  assert (Hinv' : inv (Prompt.name p) (prompts d')).
  { eapply activation_stages_inv; [exact Hp|exact Hinv|].
    by apply last_Some_In. }
  symmetry in Hlast.
  destruct (activation_last_lookup _ _ _ _ _ _ Hpk Hp Hlast) as [t Hq].
  revert Hinv' Hq. generalize d'. clear d' Hlast. intros d' Hinv' Hq.
  set (q := activate_row t p) in *.
  assert (Hqin : In q (prompts d')) by by eapply find_has_id_In.
  assert (Hql : live_under (Prompt.name p) q = true).
  { unfold live_under, has_name. simpl. by rewrite bool_decide_eq_true_2. }
  exists q. rewrite read_live_prompt_run.
  destruct (List.find (live_under (Prompt.name p)) (prompts d')) as [x|] eqn:Hx.
  - apply find_some in Hx as [Hxin Hxl].
    assert (x = q) as ->.
    { eapply lookup_unique; [apply Hinv'|exact Hq|done|].
      rewrite (proj2 Hinv' x q); done. }
    repeat split; try done.
    pose proof (unique_count _ _ Hinv') as Hle. unfold live_count.
    assert (In q (List.filter (live_under (Prompt.name p)) (prompts d')))
      by (apply filter_In; auto).
    destruct (List.filter (live_under (Prompt.name p)) (prompts d'));
      simpl in *; [done|lia].
  - eapply find_none in Hx; [|exact Hqin]. congruence.
Qed.

(** X6. After an activation that met no fault, the live endpoint answers
    with the activated version for its name: the row of the activated
    key, with status ACTIVE and the content it had, and it is the only
    live version of the name. *)
Theorem activation_then_live i updated_by clk clk' db p :
  primary_key db ->
  (live_count (Prompt.name p) db <= 1)%nat ->
  lookup_prompt i db = Some p ->
  let d' := serve {| rq_op := Op_set_active i updated_by; rq_fault := None;
                     rq_clock := clk |} db in
  exists q,
    read_live_prompt (Prompt.name p) (open_session d' None clk')
    = Return q (open_session d' None clk') /\
    Prompt.id q = i /\ Prompt.version q = Prompt.version p /\
    Prompt.content q = Prompt.content p /\
    Prompt.status q = ACTIVE /\ Prompt.is_active q = true /\
    live_count (Prompt.name p) d' = 1%nat.
Proof. apply activation_live. Qed.

Lemma activation_then_live_witness :
  exists q,
    read_live_prompt "p"
      (open_session (serve {| rq_op := Op_set_active 2 "bob"; rq_fault := None;
                              rq_clock := Demo.clk |} Demo.db) None Demo.clk)
    = Return q
        (open_session (serve {| rq_op := Op_set_active 2 "bob"; rq_fault := None;
                                rq_clock := Demo.clk |} Demo.db) None Demo.clk) /\
    Prompt.version q = "1.1.0".
Proof.
  destruct (activation_then_live 2 "bob" Demo.clk Demo.clk Demo.db Demo.B
              demo_primary_key) as (q & H1 & _ & H2 & _);
    [vm_compute; lia|reflexivity|].
  exists q. split; [exact H1|exact H2].
Defined.

(** * The delete and create endpoints *)

(** X7. A forced delete answers 204 whenever the prompt is found, also
    when the commit of the deletion failed: [hard_delete_prompt] then
    rolls back and returns [False], the endpoint drops that result, and
    the prompt and its history are still in the store. *)
Theorem force_delete_always_answers i current_user f clk db p :
  lookup_prompt i db = Some p ->
  f <> Some 0%nat ->
  exists s',
    api_delete_prompt i true current_user (open_session db f clk) = Return tt s' /\
    committed s' = if bool_decide (f = Some 1%nat) then db else deleted i db.
Proof.
  intros Hp Hf. pose proof (find_has_id_id _ _ _ Hp) as Hid.
  unfold lookup_prompt in Hp.
  unfold api_delete_prompt, http_guard, try_except, get_prompt, query_first,
    hard_delete_prompt, try_except, db_delete, db_commit, db_rollback, persist,
    store_call, get_pending, put_pending, raise.
  unfold mbind, M_bind, mret, M_ret, open_session.
  destruct f as [[|[|n]]|]; [done|..]; simpl; rewrite Hp; simpl;
    eexists; (split; [reflexivity|]); simpl; try done;
    unfold deleted; by rewrite Hid.
Qed.

Lemma force_delete_always_answers_witness :
  exists s',
    api_delete_prompt 1 true "bob" (open_session Demo.db (Some 1%nat) Demo.clk)
    = Return tt s' /\
    committed s' = Demo.db.
Proof.
  apply (force_delete_always_answers 1 "bob" (Some 1%nat) Demo.clk Demo.db Demo.A);
    [reflexivity|discriminate].
Defined.

Lemma create_prompt_fresh prompt created_by s :
  pending s = committed s -> fault s = None ->
  List.find (same_version (pc_name prompt) (pc_version prompt))
    (prompts (committed s)) = None ->
  let d := committed s in
  let row := created_row d prompt created_by (clock s (reads s)) (clock s (S (reads s))) in
  exists s',
    create_prompt prompt created_by s = Return row s' /\
    committed s'
    = logged (inserted d row) (create_entry d row created_by (clock s (S (S (reads s))))).
Proof.
  intros Hpc Hf Hnone d row.
  pose proof (create_prompt_stages prompt created_by s Hpc) as H.
  unfold wp in H.
  destruct (create_prompt prompt created_by s) as [p s'|e s'] eqn:Hrun.
  - exists s'. destruct (create_prompt_returns _ _ _ _ _ Hpc Hrun) as [-> Hc].
    by split.
  - destruct H as [_ H]. by destruct (H Hf) as [_ []].
Qed.


(** An id of more than 64 bits is refused by the driver, which the
    endpoints answer with 500. *)
Lemma id_beyond_64_bits :
  let s := open_session Demo.db None Demo.clk in
  read_prompt (2 ^ 63) s = Raise (HTTP 500) s /\
  read_prompt 7 s = Raise (HTTP 404) s /\
  update_with_auto_version (U := unicode_14) (2 ^ 63) new_text "bob" s
  = Raise (HTTP 500) s.
Proof. by vm_compute. Qed.



(** A fault in the logger's query: the answer is 400, the row is there. *)
Lemma create_endpoint_400_with_row :
  exists s',
    api_create_prompt sample_create "carol"
      (open_session Demo.db (Some 3%nat) Demo.clk) = Raise (HTTP 400) s' /\
    length (prompts (committed s')) = 3%nat.
Proof. eexists. split; reflexivity. Qed.

(** * The update-version endpoint: when it answers 500 *)

Lemma create_prompt_duplicate prompt created_by db clk :
  List.find (same_version (pc_name prompt) (pc_version prompt)) (prompts db) <> None ->
  create_prompt prompt created_by (open_session db None clk)
  = Raise ValueError_exists (open_session db None clk).
Proof.
  intros Hex. unfold create_prompt, get_prompt_version.
  unfold mbind, M_bind. rewrite query_first_run.
  by destruct (List.find _ (prompts db)).
Qed.

(** X10. The update-version endpoint, when no store call fails and the
    base prompt exists.  It returns the new row, added at the end of the
    table under the computed version, exactly when a version can be
    computed and the name does not have it yet.  In every other case,
    [int] or [str] raising on the third part of the latest version or
    the computed version being taken, it answers 500 and writes
    nothing.  [int] is Python's, with the decimal digits and the white
    space of the interpreter's Unicode database. *)
Theorem auto_version_outcome {U : UnicodeData} d i base_prompt update_data current_user clk :
  lookup_prompt i d = Some base_prompt ->
  match update_with_auto_version i update_data current_user (open_session d None clk) with
  | Return row s' =>
      auto_version d base_prompt = Some (Prompt.version row) /\
      Prompt.name row = Prompt.name base_prompt /\
      List.find (same_version (Prompt.name base_prompt) (Prompt.version row))
        (prompts d) = None /\
      prompts (committed s') = prompts d ++ [row]
  | Raise e s' =>
      e = HTTP 500 /\ committed s' = d /\
      (auto_version d base_prompt = None \/
       exists v, auto_version d base_prompt = Some v /\
         List.find (same_version (Prompt.name base_prompt) v) (prompts d) <> None)
  end.
Proof.
  intros Hl. rewrite (update_with_auto_version_run d i base_prompt) by done.
  destruct (auto_version d base_prompt) as [v|]; [|auto].
  set (pc := new_prompt_data _ _ _ _).
  unfold http_guard, try_except.
  destruct (List.find (same_version (Prompt.name base_prompt) v) (prompts d))
    as [ex|] eqn:Hex.
  - rewrite create_prompt_duplicate by (subst pc; simpl; by rewrite Hex).
    simpl. split; [done|]. split; [done|]. right. exists v. by rewrite Hex.
  - destruct (create_prompt_fresh pc current_user (open_session d None clk)
                eq_refl eq_refl Hex) as (s' & -> & Hc).
    rewrite Hc. by simpl.
Qed.

Lemma auto_version_outcome_witness :
  match update_with_auto_version (U := unicode_14) 2 new_text "bob"
          (open_session Demo.db None Demo.clk)
  with
  | Return row _ => Prompt.version row = "1.1.1"
  | Raise _ _ => False
  end.
Proof.
  pose proof (auto_version_outcome (U := unicode_14) Demo.db 2 Demo.B new_text "bob"
                Demo.clk eq_refl)
    as H.
  destruct (update_with_auto_version _ _ _ _) as [row s'|e s'].
  - destruct H as [H _]. vm_compute in H. by injection H.
  - destruct H as (_ & _ & [H|(v & H & Hex)]); [done|].
    vm_compute in H. injection H as <-. by vm_compute in Hex.
Defined.

Lemma auto_version_creates {U : UnicodeData} d i base v u user clk :
  lookup_prompt i d = Some base ->
  auto_version d base = Some v ->
  List.find (same_version (Prompt.name base) v) (prompts d) = None ->
  exists row s',
    update_with_auto_version i u user (open_session d None clk) = Return row s' /\
    Prompt.name row = Prompt.name base /\ Prompt.version row = v /\
    prompts (committed s') = prompts d ++ [row].
Proof.
  intros Hl Hv Hex. rewrite (update_with_auto_version_run d i base) by done.
  rewrite Hv. set (pc := new_prompt_data _ _ _ _). unfold http_guard, try_except.
  destruct (create_prompt_fresh pc user (open_session d None clk)
              eq_refl eq_refl Hex) as (s' & -> & Hc).
  eexists _, s'. split; [done|]. rewrite Hc. by simpl.
Qed.

Lemma auto_version_taken {U : UnicodeData} d i base v u user clk :
  lookup_prompt i d = Some base ->
  auto_version d base = Some v ->
  List.find (same_version (Prompt.name base) v) (prompts d) <> None ->
  update_with_auto_version i u user (open_session d None clk)
  = Raise (HTTP 500) (open_session d None clk).
Proof.
  intros Hl Hv Hex. rewrite (update_with_auto_version_run d i base) by done.
  rewrite Hv. unfold http_guard, try_except.
  by rewrite create_prompt_duplicate.
Qed.

Lemma latest_by_version_snoc name l row :
  Prompt.name row = name ->
  latest_by_version name (l ++ [row]) = later_version (latest_by_version name l) row.
Proof.
  intros Hn. unfold latest_by_version. rewrite List.filter_app. simpl.
  unfold has_name at 2. rewrite bool_decide_eq_true_2 by done.
  apply foldl_snoc.
Qed.

Lemma find_snoc_hit {A} (f : A -> bool) l x : f x = true -> List.find f (l ++ [x]) <> None.
Proof.
  intros Hx Hn. eapply find_none in Hn; [|apply in_or_app; right; by left].
  congruence.
Qed.

(** X11. The update-version endpoint can lock itself out.  When the new
    version string it computes does not come after the latest one in
    byte order (as "1.0.10" after "1.0.9"), the endpoint creates that
    version once; from then on the old string is still the latest one of
    the name, the same new version is computed again, and every further
    call for the name answers 500 and writes nothing. *)
Theorem auto_version_locks_out {U : UnicodeData} d i base_prompt v v' update_data current_user clk :
  lookup_prompt i d = Some base_prompt ->
  Prompt.version <$> latest_by_version (Prompt.name base_prompt) (prompts d) = Some v ->
  next_version v = Some v' ->
  String.ltb v v' = false ->
  List.find (same_version (Prompt.name base_prompt) v') (prompts d) = None ->
  let d1 := persisted (update_with_auto_version i update_data current_user
                         (open_session d None clk)) in
  (exists row, last (prompts d1) = Some row /\
     Prompt.name row = Prompt.name base_prompt /\ Prompt.version row = v') /\
  forall j base' update_data' current_user' clk',
    lookup_prompt j d1 = Some base' ->
    Prompt.name base' = Prompt.name base_prompt ->
    update_with_auto_version j update_data' current_user' (open_session d1 None clk')
    = Raise (HTTP 500) (open_session d1 None clk').
Proof.
  intros Hl HL Hnext Hlt Hex d1.
  destruct (latest_by_version (Prompt.name base_prompt) (prompts d)) as [L|] eqn:HLd;
    [|done].
  injection HL as HLv.
  assert (Hav : auto_version d base_prompt = Some v').
  { unfold auto_version. rewrite HLd. simpl. by rewrite HLv. }
  destruct (auto_version_creates d i base_prompt v' update_data current_user clk
              Hl Hav Hex) as (row & s' & Hrun & Hname & Hver & Hrows).
  subst d1. rewrite Hrun. unfold persisted, final.
  split. { exists row. by rewrite Hrows, last_snoc. }
  intros j base' u' user' clk' Hl' Hname'.
  apply (auto_version_taken _ j base' v'); [done| |].
  - unfold auto_version. rewrite Hname', Hrows.
    rewrite latest_by_version_snoc, HLd by done. simpl.
    rewrite HLv, Hver, Hlt. simpl. by rewrite HLv.
  - rewrite Hname', Hrows. apply find_snoc_hit. unfold same_version.
    by rewrite !bool_decide_eq_true_2.
Qed.

Lemma auto_version_locks_out_witness :
  update_with_auto_version (U := unicode_14) 1 Versions.no_update "bob"
    (open_session
       (persisted (update_with_auto_version (U := unicode_14) 1 Versions.no_update
                     "bob" (open_session Ninth.db None Demo.clk))) None Demo.clk)
  = Raise (HTTP 500)
      (open_session
         (persisted (update_with_auto_version (U := unicode_14) 1 Versions.no_update
                       "bob" (open_session Ninth.db None Demo.clk))) None Demo.clk).
Proof.
  apply (auto_version_locks_out (U := unicode_14) Ninth.db 1 Ninth.only "1.0.9"
           "1.0.10"
           Versions.no_update "bob" Demo.clk eq_refl eq_refl)
    with (base' := Ninth.only); reflexivity.
Defined.

(** The ninth patch of any major and minor part is such a version. *)
Lemma compare_append_prefix p a b :
  String.compare (String.append p a) (String.append p b) = String.compare a b.
Proof.
  induction p as [|c p IH]; simpl; [done|].
  assert (Ascii.compare c c = Eq) as ->; [|done].
  unfold Ascii.compare. apply N.compare_refl.
Qed.

Lemma ninth_patch {U : UnicodeData} major minor :
  no_dot major = true -> no_dot minor = true ->
  next_version (dotted major minor "9") = Some (dotted major minor "10") /\
  String.ltb (dotted major minor "9") (dotted major minor "10") = false.
Proof.
  intros H1 H2. split.
  - unfold next_version. by rewrite split_dot_dotted.
  - unfold String.ltb, dotted.
    by rewrite !compare_append_prefix.
Qed.

(** * Counting patches: [int] reads what [str] prints *)

Lemma digit_of_pretty_N_char m :
  (m < 10)%N -> digit_of (pretty_N_char m) = Some (Z.of_N m).
Proof.
  intros Hm.
  assert (m = 0 \/ m = 1 \/ m = 2 \/ m = 3 \/ m = 4 \/ m = 5 \/ m = 6 \/ m = 7
          \/ m = 8 \/ m = 9)%N as H by lia.
  repeat destruct H as [->|H]; try reflexivity. by subst m.
Qed.

(** The decimal digits [str] prints for [x]: their number [k], and how
    [int] reads them back in front of any rest [s]. *)
Lemma pretty_N_go_digits x :
  (0 < x)%N ->
  exists k : nat,
    (0 < k)%nat /\
    10 ^ (Z.of_nat k - 1) <= Z.of_N x < 10 ^ Z.of_nat k /\
    forall s,
      String.length (pretty_N_go x s) = (k + String.length s)%nat /\
      forall acc c prev,
        digits acc c prev (pretty_N_go x s)
        = digits (acc * 10 ^ Z.of_nat k + Z.of_N x) (c + k) true s.
Proof.
  induction (N.lt_wf_0 x) as [x _ IH]. intros Hx.
  assert (Hm : (x `mod` 10 < 10)%N) by (apply N.mod_lt; lia).
  assert (Hdm : Z.of_N x = 10 * Z.of_N (x `div` 10) + Z.of_N (x `mod` 10)).
  { rewrite (N.div_mod x 10) at 1 by lia. lia. }
  destruct (decide (x `div` 10 = 0)%N) as [Hz|Hnz].
  - exists 1%nat. split; [lia|]. rewrite Hz in Hdm.
    change (10 ^ (Z.of_nat 1 - 1)) with 1. change (10 ^ Z.of_nat 1) with 10.
    split; [lia|].
    intros s. rewrite pretty_N_go_step, Hz, pretty_N_go_0 by done. split; [done|].
    intros acc c prev. simpl. rewrite digit_of_pretty_N_char by done.
    f_equal; lia.
  - destruct (IH (x `div` 10)%N) as (k & Hk & Hb & Hs);
      [apply N.div_lt; lia|lia|].
    exists (S k). split; [lia|].
    assert (Hp : 10 ^ Z.of_nat (S k) = 10 * 10 ^ Z.of_nat k).
    { rewrite Nat2Z.inj_succ. apply Z.pow_succ_r. lia. }
    assert (Hq : 10 ^ Z.of_nat k = 10 * 10 ^ (Z.of_nat k - 1)).
    { rewrite <- Z.pow_succ_r by lia. f_equal. lia. }
    split.
    { rewrite Hp. replace (Z.of_nat (S k) - 1) with (Z.of_nat k) by lia.
      revert Hb Hq Hdm Hm. generalize (10 ^ (Z.of_nat k - 1)) (10 ^ Z.of_nat k).
      generalize (x `div` 10)%N (x `mod` 10)%N. lia. }
    intros s. rewrite pretty_N_go_step by done.
    destruct (Hs (String (pretty_N_char (x `mod` 10)) s)) as [Hlen Hdig].
    split; [rewrite Hlen; simpl; lia|].
    intros acc c prev. rewrite Hdig. simpl.
    rewrite digit_of_pretty_N_char by done. rewrite Hp. f_equal; lia.
Qed.

(** What [str] prints holds decimal digits only. *)
Lemma pretty_N_go_chars (P : ascii -> Prop) x s :
  (forall m, P (pretty_N_char m)) ->
  Forall P (list_ascii_of_string s) ->
  Forall P (list_ascii_of_string (pretty_N_go x s)).
Proof.
  intros HP. revert s. induction (N.lt_wf_0 x) as [x _ IH]. intros s Hs.
  destruct (decide (0 < x)%N) as [Hx|Hx].
  - rewrite pretty_N_go_step by done. apply IH; [apply N.div_lt; lia|].
    simpl. by constructor.
  - assert (x = 0%N) as -> by lia. by rewrite pretty_N_go_0.
Qed.



Lemma rstrip_no_space s :
  Forall (fun c => is_py_space c = false) (list_ascii_of_string s) -> rstrip s = s.
Proof.
  induction s as [|c s IH]; simpl; [done|]. intros H.
  apply Forall_cons_1 in H as [Hc Hs]. rewrite (IH Hs).
  destruct s; [by rewrite Hc|done].
Qed.

Lemma no_dot_chars s :
  Forall (fun c => Ascii.eqb c dot = false) (list_ascii_of_string s) -> no_dot s = true.
Proof.
  induction s as [|c s IH]; simpl; [done|]. intros H.
  apply Forall_cons_1 in H as [Hc Hs]. by rewrite Hc, (IH Hs).
Qed.

Lemma pretty_Z_pos n : 0 < n -> pretty n = pretty_N_go (Z.to_N n) "".
Proof. destruct n as [|p|p]; [lia| |lia]. intros _. reflexivity. Qed.

(** The digits of a positive number below the digit limit. *)
Lemma pretty_below_limit n :
  0 < n -> n < 10 ^ Z.of_nat max_str_digits ->
  (String.length (pretty n) <= max_str_digits)%nat /\
  unsigned_literal (pretty n) = Some n.
Proof.
  intros Hn Hlim. rewrite pretty_Z_pos by done.
  destruct (pretty_N_go_digits (Z.to_N n)) as (k & Hk & Hb & Hs); [lia|].
  rewrite Z2N.id in Hb by lia.
  assert (Hle : (k <= max_str_digits)%nat).
  { assert (10 ^ (Z.of_nat k - 1) < 10 ^ Z.of_nat max_str_digits) as Hlt by lia.
    apply Z.pow_lt_mono_r_iff in Hlt; lia. }
  destruct (Hs "") as [Hlen Hdig]. split; [simpl in Hlen; lia|].
  unfold unsigned_literal. rewrite Hdig. simpl.
  rewrite Z2N.id by lia.
  by rewrite (proj2 (Nat.ltb_ge max_str_digits k) Hle).
Qed.

Lemma is_ascii_chars s :
  Forall (fun c => (N_of_ascii c <? 128)%N = true) (list_ascii_of_string s) ->
  is_ascii s = true.
Proof.
  induction s as [|c s IH]; simpl; [done|]. intros H.
  apply Forall_cons_1 in H as [Hc Hs]. by rewrite Hc, (IH Hs).
Qed.

Lemma is_ascii_pretty n : 0 <= n -> is_ascii (pretty n) = true.
Proof.
  intros Hn. destruct (decide (n = 0)) as [->|Hne]; [reflexivity|].
  rewrite pretty_Z_pos by lia. apply is_ascii_chars, pretty_N_go_chars; [|constructor].
  intros m. unfold pretty_N_char. by repeat case_match.
Qed.

Lemma py_int_pretty {U : UnicodeData} n :
  0 <= n -> n < 10 ^ Z.of_nat max_str_digits -> py_int (pretty n) = Some n.
Proof.
  intros Hn Hlim. unfold py_int. rewrite is_ascii_pretty by done.
  destruct (decide (n = 0)) as [->|Hne]; [reflexivity|].
  destruct (pretty_below_limit n) as [_ Hu]; [lia|done|].
  rewrite <- Hu. rewrite pretty_Z_pos by lia. unfold long_from_string.
  assert (Hch : Forall (fun c => exists m, c = pretty_N_char m)
                  (list_ascii_of_string (pretty_N_go (Z.to_N n) ""))).
  { apply pretty_N_go_chars; [eauto|constructor]. }
  destruct (pretty_N_go (Z.to_N n) "") as [|c s] eqn:Hs; [done|].
  assert (Hsp : forall c, (exists m, c = pretty_N_char m) -> is_py_space c = false).
  { intros ? [m ->]. unfold pretty_N_char. by repeat case_match. }
  simpl in Hch. pose proof (Forall_cons_1 _ _ _ Hch) as [Hc _].
  simpl. rewrite (Hsp c Hc).
  rewrite rstrip_no_space by (eapply Forall_impl; [exact Hch|exact Hsp]).
  destruct Hc as [m ->]. unfold pretty_N_char. by repeat case_match.
Qed.

Lemma py_str_pretty n :
  0 <= n -> n < 10 ^ Z.of_nat max_str_digits -> py_str n = Some (pretty n).
Proof.
  intros Hn Hlim. destruct (decide (n = 0)) as [->|Hne]; [reflexivity|].
  destruct (pretty_below_limit n) as [Hlen _]; [lia|done|].
  unfold py_str. rewrite Z.abs_eq by done.
  by rewrite (proj2 (Nat.ltb_ge max_str_digits _) Hlen).
Qed.

Lemma no_dot_pretty n : 0 <= n -> no_dot (pretty n) = true.
Proof.
  intros Hn. destruct (decide (n = 0)) as [->|Hne]; [reflexivity|].
  rewrite pretty_Z_pos by lia. apply no_dot_chars, pretty_N_go_chars; [|constructor].
  intros m. unfold pretty_N_char. by repeat case_match.
Qed.

(** X12. Counting patches.  For a version [major.minor.n] whose third
    part is the decimal notation of a number [n], the version computed
    by the update-version endpoint is [major.minor.(n+1)]: the parser
    reads the printed number back, below the limit of 4300 digits. *)
Theorem next_version_counts {U : UnicodeData} major minor n :
  no_dot major = true -> no_dot minor = true ->
  0 <= n -> n + 1 < 10 ^ Z.of_nat max_str_digits ->
  next_version (dotted major minor (pretty n))
  = Some (dotted major minor (pretty (n + 1))).
Proof.
  intros H1 H2 Hn Hlim. unfold next_version.
  rewrite split_dot_dotted by (try done; by apply no_dot_pretty).
  rewrite py_int_pretty by lia. simpl.
  by rewrite py_str_pretty by lia.
Qed.

Lemma next_version_counts_witness :
  next_version (U := unicode_14) (dotted "2" "3" (pretty 41))
  = Some (dotted "2" "3" (pretty 42)).
Proof.
  apply (next_version_counts (U := unicode_14) "2" "3" 41);
    [reflexivity|reflexivity|lia|].
  apply Z.ltb_lt. vm_compute. reflexivity.
Defined.

(** * Listings *)

Section Listing.
Context {A : Type} (key : A -> Z).

Lemma insert_desc_perm x l : insert_desc key x l ≡ₚ x :: l.
Proof.
  induction l as [|y l IH]; simpl; [done|].
  destruct (key y <=? key x)%Z; [done|]. rewrite IH. apply Permutation_swap.
Qed.

Lemma order_by_desc_perm l : order_by_desc key l ≡ₚ l.
Proof.
  induction l as [|x l IH]; simpl; [done|].
  rewrite insert_desc_perm. by constructor.
Qed.

Lemma insert_desc_sorted x l :
  StronglySorted (falling key) l -> StronglySorted (falling key) (insert_desc key x l).
Proof.
  induction l as [|y l IH]; simpl; intros Hs; [by repeat constructor|].
  apply StronglySorted_inv in Hs as [Hs Hy].
  destruct (key y <=? key x)%Z eqn:Hyx.
  - apply Z.leb_le in Hyx. constructor; [by constructor|].
    constructor; [done|]. eapply Forall_impl; [exact Hy|].
    unfold falling. intros z Hz. lia.
  - apply Z.leb_gt in Hyx. constructor; [by apply IH|].
    rewrite insert_desc_perm. constructor; [unfold falling; lia|done].
Qed.

Lemma order_by_desc_sorted l : StronglySorted (falling key) (order_by_desc key l).
Proof.
  induction l as [|x l IH]; simpl; [constructor|]. by apply insert_desc_sorted.
Qed.

Lemma offset_limit_sublist skip limit (l : list A) :
  offset_limit skip limit l `sublist_of` l.
Proof.
  unfold offset_limit. destruct (limit <? 0)%Z; [apply sublist_drop|].
  etrans; [apply sublist_take|apply sublist_drop].
Qed.

Lemma offset_limit_sorted skip limit l :
  StronglySorted (falling key) l ->
  StronglySorted (falling key) (offset_limit skip limit l).
Proof.
  intros Hs. unfold offset_limit.
  assert (Hd : StronglySorted (falling key) (drop (Z.to_nat skip) l)).
  { rewrite <- (take_drop (Z.to_nat skip) l) in Hs.
    by apply StronglySorted_app_1_r in Hs. }
  destruct (limit <? 0)%Z; [done|].
  rewrite <- (take_drop (Z.to_nat limit) (drop _ l)) in Hd.
  by apply StronglySorted_app_1_l in Hd.
Qed.

Lemma offset_limit_length skip limit (l : list A) :
  length (offset_limit skip limit l)
  = if (limit <? 0)%Z then (length l - Z.to_nat skip)%nat
    else (Z.to_nat limit `min` (length l - Z.to_nat skip))%nat.
Proof.
  unfold offset_limit. destruct (limit <? 0)%Z.
  - apply length_drop.
  - by rewrite length_take, length_drop.
Qed.

(** Successive pages of [n] rows make up the listing. *)
Lemma pages_concat (l : list A) n m :
  concat (map (fun i => take n (drop (i * n) l)) (seq 0 m)) = take (m * n) l.
Proof.
  induction m as [|m IH]; [done|].
  rewrite seq_S, map_app, concat_app, IH. simpl. rewrite app_nil_r.
  rewrite take_take_drop. f_equal. lia.
Qed.
End Listing.

Lemma sqlite_int_spec n : sqlite_int n = true <-> - 2 ^ 63 <= n < 2 ^ 63.
Proof. unfold sqlite_int. rewrite andb_true_iff, Z.leb_le, Z.ltb_lt. done. Qed.

Lemma get_prompt_versions_run name skip limit db clk :
  sqlite_int skip = true -> sqlite_int limit = true ->
  get_prompt_versions name skip limit (open_session db None clk)
  = Return (offset_limit skip limit
              (order_by_desc Prompt.created_at (versions_of name db)),
            length (versions_of name db))
      (open_session db None clk).
Proof.
  intros H1 H2. unfold get_prompt_versions, query_page. by rewrite H1, H2.
Qed.

Lemma get_prompt_history_run prompt_id skip limit db clk :
  sqlite_int skip = true -> sqlite_int limit = true ->
  get_prompt_history prompt_id skip limit (open_session db None clk)
  = Return (offset_limit skip limit
              (order_by_desc PromptHistory.changed_at (history_of prompt_id db)),
            length (history_of prompt_id db))
      (open_session db None clk).
Proof.
  intros H1 H2. unfold get_prompt_history, query_page. by rewrite H1, H2.
Qed.

Lemma page_rows {A} (key : A -> Z) skip limit (l : list A) x :
  In x (offset_limit skip limit (order_by_desc key l)) -> In x l.
Proof.
  intros Hx. apply list_elem_of_In in Hx. apply list_elem_of_In.
  rewrite <- (order_by_desc_perm key l).
  eapply elem_of_sublist; [exact Hx|apply offset_limit_sublist].
Qed.

Lemma versions_of_nil name db :
  List.find (has_name name) (prompts db) = None <-> versions_of name db = [].
Proof.
  unfold versions_of. split; [|apply find_filter_nil].
  intros H. apply filter_none. intros x Hx. by eapply find_none in H.
Qed.

(** X13. A page of the versions listing, when no store call fails.  For
    [skip] from 0 and [limit] up to 1000 the endpoint answers 404
    exactly when the name has no version.  Otherwise the count it
    reports is the number of versions of the name whatever the page, and
    the page holds versions of the name by falling creation time:
    [limit] of them, or as many as are left after [skip]; a negative
    [limit] passes the check and returns all that are left. *)
Theorem list_prompt_versions_page name skip limit db clk :
  0 <= skip < 2 ^ 63 -> - 2 ^ 63 <= limit <= 1000 ->
  let total := length (versions_of name db) in
  match list_prompt_versions name skip limit (open_session db None clk) with
  | Raise e _ => e = HTTP 404 /\ total = 0%nat
  | Return (items, count) _ =>
      count = total /\ (0 < total)%nat /\
      length items
      = (if (limit <? 0)%Z then (total - Z.to_nat skip)%nat
         else (Z.to_nat limit `min` (total - Z.to_nat skip))%nat) /\
      StronglySorted (falling vi_created_at) items /\
      forall v, In v items ->
        exists p, In p (prompts db) /\ Prompt.name p = name /\ v = version_info p
  end.
Proof.
  intros Hskip Hlimit total. unfold list_prompt_versions.
  assert ((skip <? 0)%Z || (1000 <? limit)%Z = false) as ->.
  { apply orb_false_iff. rewrite Z.ltb_ge, Z.ltb_ge. lia. }
  unfold http_guard, try_except. unfold mbind at 1. unfold M_bind.
  rewrite query_first_run.
  destruct (List.find (has_name name) (prompts db)) as [p0|] eqn:Hex.
  - unfold mbind, M_bind.
    rewrite get_prompt_versions_run by (apply sqlite_int_spec; lia).
    cbn [fst snd mret M_ret]. split; [done|]. split.
    { subst total. destruct (versions_of name db) eqn:Hv; simpl; [|lia].
      apply versions_of_nil in Hv. congruence. }
    split.
    { by rewrite length_map, offset_limit_length,
        (Permutation_length (order_by_desc_perm _ _)). }
    split.
    + apply (StronglySorted_fmap _ (falling Prompt.created_at)); [done|].
      apply offset_limit_sorted, order_by_desc_sorted.
    + intros v Hv. apply in_map_iff in Hv as (p & <- & Hp).
      apply page_rows in Hp. apply filter_In in Hp as [Hin Hn].
      exists p. split; [done|]. split; [|done].
      by apply bool_decide_eq_true in Hn.
  - simpl. split; [done|]. subst total. apply versions_of_nil in Hex.
    by rewrite Hex.
Qed.

Lemma list_prompt_versions_page_witness :
  match list_prompt_versions "p" 0 (-1) (open_session Demo.db None Demo.clk) with
  | Raise _ _ => False
  | Return (items, count) _ => count = 2%nat /\ length items = 2%nat
  end.
Proof.
  pose proof (list_prompt_versions_page "p" 0 (-1) Demo.db Demo.clk) as H.
  destruct (list_prompt_versions _ _ _ _) as [[items count] s'|e s'].
  - destruct H as (H1 & _ & H2 & _); [lia|lia|]. split; [exact H1|exact H2].
  - destruct H as [_ H]; [lia|lia|]. vm_compute in H. discriminate.
Defined.

(** X14. Paging covers the listing.  Asked page after page with the
    same page size, each page starting where the one before ended,
    [get_prompt_versions] returns every version of the name exactly
    once, as long as no request writes in between. *)
Theorem versions_pages_tile name (n m : nat) db clk :
  Z.of_nat (m * n) < 2 ^ 63 ->
  (length (versions_of name db) <= m * n)%nat ->
  exists pages,
    Forall2
      (fun i page =>
         get_prompt_versions name (Z.of_nat (i * n)) (Z.of_nat n)
           (open_session db None clk)
         = Return (page, length (versions_of name db)) (open_session db None clk))
      (seq 0 m) pages /\
    concat pages ≡ₚ versions_of name db.
Proof.
  intros Hbound Hlen.
  set (L := order_by_desc Prompt.created_at (versions_of name db)).
  exists (map (fun i => take n (drop (i * n) L)) (seq 0 m)). split.
  - apply Forall2_fmap_r, Forall_Forall2_diag, Forall_forall.
    intros i Hi. apply elem_of_seq in Hi.
    assert (i * n <= m * n)%nat by (apply Nat.mul_le_mono_r; lia).
    destruct n as [|n']; [|assert (S n' <= m * S n')%nat by nia];
      (rewrite get_prompt_versions_run by (apply sqlite_int_spec; lia));
      unfold offset_limit; fold L; simpl (_ <? _)%Z; cbv iota;
      by rewrite !Nat2Z.id.
  - rewrite pages_concat. rewrite take_ge.
    + apply order_by_desc_perm.
    + unfold L. by rewrite (Permutation_length (order_by_desc_perm _ _)).
Qed.

Lemma versions_pages_tile_witness :
  exists pages,
    Forall2
      (fun i page =>
         get_prompt_versions "p" (Z.of_nat (i * 1)) 1 (open_session Demo.db None Demo.clk)
         = Return (page, 2%nat) (open_session Demo.db None Demo.clk))
      [0; 1]%nat pages /\
    concat pages ≡ₚ [Demo.A; Demo.B].
Proof.
  apply (versions_pages_tile "p" 1 2 Demo.db Demo.clk); [|vm_compute; lia].
  apply Z.ltb_lt. reflexivity.
Defined.

(** * Reading back *)

Lemma found_or_404_run g db clk :
  found_or_404 (query_first g) (open_session db None clk)
  = match List.find g (prompts db) with
    | Some p => Return p (open_session db None clk)
    | None => Raise (HTTP 404) (open_session db None clk)
    end.
Proof.
  unfold found_or_404, http_guard, try_except. unfold mbind, M_bind.
  rewrite query_first_run. by destruct (List.find g (prompts db)).
Qed.

Lemma read_prompt_run i db clk :
  read_prompt i (open_session db None clk)
  = match lookup_prompt i db with
    | Some p => Return p (open_session db None clk)
    | None =>
        Raise (HTTP (if sqlite_int i then 404 else 500)) (open_session db None clk)
    end.
Proof.
  unfold read_prompt, found_or_404, http_guard, try_except. unfold mbind, M_bind.
  rewrite get_prompt_run.
  destruct (lookup_prompt i db); [done|]. by destruct (sqlite_int i).
Qed.

Lemma serve_create_fresh prompt created_by clk db :
  List.find (same_version (pc_name prompt) (pc_version prompt)) (prompts db) = None ->
  let row := created_row db prompt created_by (clk 0%nat) (clk 1%nat) in
  serve {| rq_op := Op_create prompt created_by; rq_fault := None; rq_clock := clk |} db
  = logged (inserted db row) (create_entry db row created_by (clk 2%nat)).
Proof.
  intros Hex row.
  pose proof (serve_last (Op_create prompt created_by) clk db) as H.
  simpl in H. unfold creation_stages in H. rewrite Hex in H. simpl in H.
  by injection H.
Qed.

(** X15. Reading back what was created.  After a creation that met no
    fault, the endpoint by key and the endpoint by name and version both
    answer with the created row: a draft that is not live and carries
    the submitted content. *)
Theorem create_then_read prompt created_by clk clk' db :
  List.find (same_version (pc_name prompt) (pc_version prompt)) (prompts db) = None ->
  let d' := serve {| rq_op := Op_create prompt created_by; rq_fault := None;
                     rq_clock := clk |} db in
  exists row,
    read_prompt (Prompt.id row) (open_session d' None clk')
    = Return row (open_session d' None clk') /\
    read_prompt_by_name_version (pc_name prompt) (pc_version prompt)
      (open_session d' None clk')
    = Return row (open_session d' None clk') /\
    Prompt.content row = pc_content prompt /\
    Prompt.status row = DRAFT /\ Prompt.is_active row = false /\
    Prompt.created_by row = created_by.
Proof.
  intros Hex d'. subst d'. rewrite serve_create_fresh by done.
  set (row := created_row db prompt created_by (clk 0%nat) (clk 1%nat)).
  exists row. unfold read_prompt_by_name_version, get_prompt_version.
  rewrite read_prompt_run, found_or_404_run.
  rewrite lookup_logged, (lookup_inserted db row eq_refl).
  cbn [prompts logged inserted].
  rewrite find_app_none by (intros q Hq; by eapply find_none in Hex).
  simpl. unfold same_version. by rewrite !bool_decide_eq_true_2.
Qed.

Lemma create_then_read_witness :
  exists row,
    read_prompt_by_name_version "q" "1.0.0"
      (open_session (serve {| rq_op := Op_create sample_create "carol";
                              rq_fault := None; rq_clock := Demo.clk |} Demo.db)
         None Demo.clk)
    = Return row
        (open_session (serve {| rq_op := Op_create sample_create "carol";
                                rq_fault := None; rq_clock := Demo.clk |} Demo.db)
           None Demo.clk) /\
    Prompt.status row = DRAFT.
Proof.
  destruct (create_then_read sample_create "carol" Demo.clk Demo.clk Demo.db eq_refl)
    as (row & _ & H1 & _ & H2 & _).
  exists row. split; [exact H1|exact H2].
Defined.

Lemma history_of_fresh db i :
  history_attached db -> (forall p, In p (prompts db) -> Prompt.id p <> i) ->
  history_of i db = [].
Proof.
  intros HA Hfresh. apply filter_none. intros h Hh.
  destruct (HA h Hh) as (p & Hp & Hid & _).
  unfold of_prompt. apply bool_decide_eq_false. rewrite <- Hid. by apply Hfresh.
Qed.

(** X16. The history of a new prompt.  When every history row belongs to
    a version of the table, the history endpoint answers for a prompt
    just created with exactly one entry, the "create" entry of its
    author with status draft.  Keys are reused after a hard delete of
    the last row; the cascade keeps the entries of the former owner of
    the key out of this listing. *)
Theorem new_prompt_history prompt created_by clk clk' db :
  history_attached db ->
  List.find (same_version (pc_name prompt) (pc_version prompt)) (prompts db) = None ->
  let d' := serve {| rq_op := Op_create prompt created_by; rq_fault := None;
                     rq_clock := clk |} db in
  let row := created_row db prompt created_by (clk 0%nat) (clk 1%nat) in
  exists h,
    api_get_prompt_history (Prompt.id row) 0 100 (open_session d' None clk')
    = Return ([h], 1%nat) (open_session d' None clk') /\
    PromptHistory.change_reason h = create_reason /\
    PromptHistory.changed_by h = created_by /\
    PromptHistory.status h = DRAFT /\
    PromptHistory.version h = pc_version prompt /\
    PromptHistory.content h = pc_content prompt.
Proof.
  intros HA Hex d' row. subst d'. rewrite serve_create_fresh by done. fold row.
  set (h := create_entry db row created_by (clk 2%nat)).
  exists h. split; [|done].
  assert (Hh : history_of (Prompt.id row) (logged (inserted db row) h) = [h]).
  { unfold history_of. cbn [prompt_history logged inserted].
    rewrite List.filter_app. fold (history_of (Prompt.id row) db).
    rewrite history_of_fresh; [|done|].
    - simpl. unfold of_prompt. by rewrite bool_decide_eq_true_2.
    - intros p Hp. pose proof (next_id_fresh _ _ (in_map Prompt.id _ _ Hp)).
      simpl. lia. }
  unfold api_get_prompt_history, http_guard, try_except.
  change ((0 <? 0)%Z || (1000 <? 100)%Z) with false. cbv iota beta.
  unfold mbind at 1. unfold M_bind. rewrite get_prompt_run.
  rewrite lookup_logged, (lookup_inserted db row eq_refl).
  rewrite get_prompt_history_run by reflexivity. by rewrite Hh.
Qed.

Lemma new_prompt_history_witness :
  exists h,
    api_get_prompt_history 3 0 100
      (open_session (serve {| rq_op := Op_create sample_create "carol";
                              rq_fault := None; rq_clock := Demo.clk |} Demo.db)
         None Demo.clk)
    = Return ([h], 1%nat)
        (open_session (serve {| rq_op := Op_create sample_create "carol";
                                rq_fault := None; rq_clock := Demo.clk |} Demo.db)
           None Demo.clk) /\
    PromptHistory.changed_by h = "carol".
Proof.
  destruct (new_prompt_history sample_create "carol" Demo.clk Demo.clk Demo.db
              demo_history_attached eq_refl) as (h & H1 & _ & H2 & _).
  exists h. split; [exact H1|exact H2].
Defined.

Lemma foldl_later_created ls best :
  match foldl later_created best ls with
  | Some L =>
      (Some L = best \/ In L ls) /\
      (forall b, best = Some b -> Prompt.created_at b <= Prompt.created_at L) /\
      (forall q, In q ls -> Prompt.created_at q <= Prompt.created_at L)
  | None => best = None /\ ls = []
  end.
Proof.
  revert best. induction ls as [|a ls IH]; intros best; simpl.
  - destruct best as [b|]; [|done]. split; [by left|]. split; [|done].
    intros ? [= <-]. lia.
  - specialize (IH (later_created best a)).
    destruct (foldl later_created (later_created best a) ls) as [L|].
    + destruct IH as (Hin & Hbest & Hls).
      assert (Ha : Prompt.created_at a <= Prompt.created_at L /\
                   forall b, best = Some b ->
                     Prompt.created_at b <= Prompt.created_at L).
      { destruct best as [b|]; simpl in Hbest.
        - destruct (Prompt.created_at b <? Prompt.created_at a)%Z eqn:Hlt.
          + apply Z.ltb_lt in Hlt. specialize (Hbest a eq_refl).
            split; [done|]. intros ? [= <-]. lia.
          + apply Z.ltb_ge in Hlt. specialize (Hbest b eq_refl).
            split; [lia|]. by intros ? [= <-].
        - split; [by apply Hbest|done]. }
      destruct Ha as [Ha Hb]. split; [|split; [done|]].
      * destruct Hin as [Hin|Hin]; [|by right; right].
        destruct best as [b|]; simpl in Hin;
          [destruct (Prompt.created_at b <? Prompt.created_at a)%Z|];
          injection Hin as ->; auto.
      * intros q [<-|Hq]; [done|by apply Hls].
    + destruct best as [b|]; simpl in IH;
        [destruct (Prompt.created_at b <? Prompt.created_at a)%Z|]; by destruct IH.
Qed.

(** X17. The latest endpoint answers with a version of the name that no
    other version of the name was created after, and with 404 exactly
    when the name has no version. *)
Theorem read_latest_prompt_newest name db clk :
  match read_latest_prompt name (open_session db None clk) with
  | Return L _ =>
      In L (prompts db) /\ Prompt.name L = name /\
      forall q, In q (prompts db) -> Prompt.name q = name ->
        Prompt.created_at q <= Prompt.created_at L
  | Raise e _ => e = HTTP 404 /\ versions_of name db = []
  end.
Proof.
  unfold read_latest_prompt, found_or_404, http_guard, try_except, get_latest_prompt.
  unfold mbind, M_bind, mret, M_ret. simpl.
  unfold latest_by_creation. fold (versions_of name db).
  pose proof (foldl_later_created (versions_of name db) None) as H.
  destruct (foldl later_created None (versions_of name db)) as [L|]; simpl.
  - destruct H as ([?|HL] & _ & Hmax); [done|].
    apply filter_In in HL as [HL HN]. apply bool_decide_eq_true in HN.
    repeat split; try done. intros q Hq Hn. apply Hmax, filter_In.
    split; [done|]. by apply bool_decide_eq_true.
  - by destruct H as [_ ->].
Qed.

(** * Answers of the activation endpoints *)

(** X18. For a name and version that do not exist, the activation
    endpoint of [api.py] answers 500: the 404 it raises is caught by
    its own [except Exception].  The endpoint of
    [set_active_version.py] answers 404 unless the lookup itself fails.
    Neither writes. *)
Theorem activate_unknown_version name version user f clk db :
  List.find (same_version name version) (prompts db) = None ->
  let s := open_session db f clk in
  (exists s', api_set_active_version name version user s = Raise (HTTP 500) s' /\
              committed s' = db) /\
  (exists s', router_set_active_version name version user s
              = Raise (HTTP (if f is Some 0%nat then 500 else 404)) s' /\
              committed s' = db).
Proof.
  intros Hex s. subst s.
  unfold api_set_active_version, router_set_active_version, http_guard,
    try_except, get_prompt_version, query_first, store_call.
  unfold mbind, M_bind, get_pending, mret, M_ret, raise, open_session.
  destruct f as [[|k]|]; simpl; rewrite ?Hex; simpl; split; eexists; by split.
Qed.

Lemma activate_unknown_version_witness :
  (exists s', api_set_active_version "p" "9.9.9" "bob"
                (open_session Demo.db None Demo.clk) = Raise (HTTP 500) s' /\
              committed s' = Demo.db) /\
  (exists s', router_set_active_version "p" "9.9.9" "bob"
                (open_session Demo.db None Demo.clk) = Raise (HTTP 404) s' /\
              committed s' = Demo.db).
Proof.
  exact (activate_unknown_version "p" "9.9.9" "bob" None Demo.clk Demo.db eq_refl).
Defined.

(** * What changes the text, and what is logged *)

Lemma find_app_some {A} (f : A -> bool) l l' x :
  List.find f l = Some x -> List.find f (l ++ l') = Some x.
Proof.
  induction l as [|a l IH]; simpl; [done|]. by destruct (f a).
Qed.

Lemma lookup_deleted i j d :
  lookup_prompt i (deleted j d)
  = if decide (i = j) then None else lookup_prompt i d.
Proof.
  unfold lookup_prompt, deleted. cbn [prompts].
  destruct (decide (i = j)) as [->|Hne].
  - induction (prompts d) as [|a l IH]; [done|].
    rewrite filter_cons. destruct (decide (Prompt.id a <> j)) as [Ha|Ha]; [|done].
    simpl. by rewrite (proj2 (has_id_false j a) Ha).
  - induction (prompts d) as [|a l IH]; [done|].
    rewrite filter_cons. simpl.
    destruct (decide (Prompt.id a <> j)) as [Ha|Ha].
    + simpl. by rewrite IH.
    + rewrite IH. rewrite (proj2 (has_id_false i a)); [done|].
      intros Hi. apply Ha. congruence.
Qed.

(** A property of the row of key [i] that the lifecycle writes keep. *)
Lemma lookup_modify_keeps (P : Prompt.t -> Prop) i j f d :
  keeps_id f -> (forall q, P q -> P (f q)) ->
  (forall q, lookup_prompt i d = Some q -> P q) ->
  forall q, lookup_prompt i (pure_modify j f d) = Some q -> P q.
Proof.
  intros Hid Hf HP q. rewrite lookup_pure_modify by done.
  destruct (lookup_prompt i d) as [q0|]; [|done]. simpl. intros [= <-].
  destruct (has_id j q0); [apply Hf|]; by apply HP.
Qed.

(** X19. Only an update changes what the author wrote.  A create, an
    activation, a soft delete or a hard delete of any prompt, whatever
    store call fails, leaves every version that is still in the table
    with its content, description, tags and metadata, and with its id,
    name, version, author and creation time. *)
Theorem text_changes_by_update_only r db i p p' :
  is_update (rq_op r) = false ->
  lookup_prompt i db = Some p ->
  lookup_prompt i (serve r db) = Some p' ->
  text_columns p' = text_columns p /\ birth_columns p' = birth_columns p.
Proof.
  intros Hop Hp.
  set (P := fun q => text_columns q = text_columns p /\
                     birth_columns q = birth_columns p).
  assert (H0 : forall q, lookup_prompt i db = Some q -> P q).
  { intros q Hq. rewrite Hp in Hq. injection Hq as <-. by split. }
  assert (Hw : forall j f d, (exists t, f = archive_row t \/ f = activate_row t \/
                                f = soft_delete_row t) ->
             (forall q, lookup_prompt i d = Some q -> P q) ->
             forall q, lookup_prompt i (pure_modify j f d) = Some q -> P q).
  { intros j f d (t & Hf) Hd. apply lookup_modify_keeps; [| |done].
    - destruct Hf as [->|[->| ->]]; auto with rows.
    - intros [] HPq. by destruct Hf as [->|[->| ->]]. }
  assert (Hlog : forall d j v c t rs, (forall q, lookup_prompt i d = Some q -> P q) ->
             forall q, lookup_prompt i (log_stage d j v c t rs) = Some q -> P q).
  { intros d j v c t rs Hd q. rewrite lookup_log_stage. apply Hd. }
  assert (Hall : forall d', In d' (op_stages (rq_op r) db (rq_clock r) 0) ->
                   forall q, lookup_prompt i d' = Some q -> P q).
  { pose (keep := fun d => forall q, lookup_prompt i d = Some q -> P q).
    fold (keep db) in H0.
    assert (Hw1 : forall j t d, keep d -> keep (pure_modify j (archive_row t) d))
      by (intros j t d Hd; unfold keep in *; apply Hw; eauto).
    assert (Hw2 : forall j t d, keep d -> keep (pure_modify j (activate_row t) d))
      by (intros j t d Hd; unfold keep in *; apply Hw; eauto).
    assert (Hw3 : forall j t d, keep d -> keep (pure_modify j (soft_delete_row t) d))
      by (intros j t d Hd; unfold keep in *; apply Hw; eauto).
    assert (Hlog' : forall d j v c t rs, keep d -> keep (log_stage d j v c t rs))
      by exact Hlog.
    assert (Hins : forall row, keep (inserted db row)).
    { intros row q. unfold lookup_prompt, inserted. cbn [prompts].
      unfold lookup_prompt in Hp. rewrite (find_app_some _ _ _ _ Hp).
      intros [= <-]. by split. }
    assert (Hlogged : forall d h, keep d -> keep (logged d h)) by (intros d h Hd; exact Hd).
    assert (Hdel : forall j d, keep d -> keep (deleted j d)).
    { intros j d Hd q. rewrite lookup_deleted.
      destruct (decide (i = j)); [done|apply Hd]. }
    intros d'. fold (keep d'). clearbody keep.
    destruct (rq_op r) as [prompt by_|j u by_|j by_|j by_|j]; [|done|..];
      cbn [op_stages].
    - unfold creation_stages. destruct (List.find _ _); [by intros [<-|[]]|].
      intros [<-|[<-|[<-|[]]]]; [done|apply Hins|apply Hlogged, Hins].
    - destruct (lookup_prompt j db) as [p0|]; [|by intros [<-|[]]].
      unfold activation_stages.
      destruct (List.find (other_active p0) (prompts db)) as [ex|].
      + intros [<-|[<-|[<-|[]]]]; [done|..]; unfold live_stage, archived_stage;
          repeat (apply Hlog' || apply Hw1 || apply Hw2 || apply Hw3); done.
      + intros [<-|[<-|[]]]; [done|]. unfold live_stage.
        repeat (apply Hlog' || apply Hw1 || apply Hw2 || apply Hw3); done.
    - destruct (lookup_prompt j db) as [p0|]; [|by intros [<-|[]]].
      unfold delete_stages.
      intros [<-|[<-|[<-|[]]]]; repeat (apply Hlog' || apply Hw1 || apply Hw2 || apply Hw3); done.
    - destruct (lookup_prompt j db) as [p0|]; [|by intros [<-|[]]].
      intros [<-|[<-|[]]]; [done|by apply Hdel]. }
  intros Hp'. apply (Hall (serve r db)); [apply serve_stops|done].
Qed.

Lemma text_changes_by_update_only_witness :
  exists p',
    lookup_prompt 1
      (serve {| rq_op := Op_set_active 2 "bob"; rq_fault := None;
                rq_clock := Demo.clk |} Demo.db) = Some p' /\
    text_columns p' = text_columns Demo.A.
Proof.
  eexists. split; [reflexivity|].
  exact (proj1 (text_changes_by_update_only
                  {| rq_op := Op_set_active 2 "bob"; rq_fault := None;
                     rq_clock := Demo.clk |} Demo.db 1 Demo.A _
                  eq_refl eq_refl eq_refl)).
Defined.

Lemma log_stage_found d i v c t r q :
  lookup_prompt i d = Some q ->
  log_stage d i v c t r = logged d (log_entry d q i v c t r).
Proof. intros Hq. unfold log_stage. by rewrite Hq. Qed.

(** X20. Every change of a table row is logged, when no store call
    fails.  A request other than a hard delete that leaves the table of
    prompts different from what it was has appended at least one history
    entry, and has kept all earlier entries.  (A hard delete removes the
    row and logs nothing.) *)
Theorem changes_are_logged r db :
  primary_key db ->
  rq_fault r = None ->
  is_hard_delete (rq_op r) = false ->
  prompts (serve r db) <> prompts db ->
  exists h hs, prompt_history (serve r db) = prompt_history db ++ h :: hs.
Proof.
  intros Hpk Hf Hop.
  pose proof (proj2 (serve_stops r db) Hf) as Hlast. revert Hlast.
  generalize (serve r db). intros d' Hlast Hch.
  destruct (rq_op r) as [prompt by_|i u by_|i by_|i by_|i]; [..|done];
    cbn [op_stages] in Hlast.
  - unfold creation_stages in Hlast.
    destruct (List.find _ _); simpl in Hlast; injection Hlast as ->; [done|].
    simpl. eauto.
  - destruct (lookup_prompt i db) as [p|] eqn:Hp;
      [|simpl in Hlast; by injection Hlast as ->].
    pose proof (find_has_id_id _ _ _ Hp) as <-.
    unfold update_stages in Hlast.
    destruct (changes_of p u); simpl in Hlast; injection Hlast as ->; [done|].
    erewrite log_stage_found.
    + simpl. eauto.
    + rewrite lookup_pure_modify, Hp by auto with rows. done.
  - destruct (lookup_prompt i db) as [p|] eqn:Hp;
      [|simpl in Hlast; by injection Hlast as ->].
    pose proof (find_has_id_id _ _ _ Hp) as <-.
    unfold activation_stages in Hlast.
    destruct (List.find (other_active p) (prompts db)) as [ex|] eqn:Hex;
      stamp_in Hlast t0 r1; simpl in Hlast; injection Hlast as ->.
    + apply find_some in Hex as [Hin Hoa].
      apply other_active_live in Hoa as [_ Hne].
      destruct (archived_stage_spec db ex p t0 (rq_clock r r1)
                  (lookup_primary db ex Hpk Hin) Hp Hne) as (_ & Hpa & Hha).
      destruct (live_stage_spec _ p p by_ (rq_clock r (S r1))
                  (rq_clock r (S (S r1))) Hpa)
        as (_ & _ & Hhl).
      rewrite Hhl, Hha, <- app_assoc. simpl. eauto.
    + destruct (live_stage_spec db p p by_ t0 (rq_clock r r1) Hp)
        as (_ & _ & Hhl).
      rewrite Hhl. eauto.
  - destruct (lookup_prompt i db) as [p|] eqn:Hp;
      [|simpl in Hlast; by injection Hlast as ->].
    pose proof (find_has_id_id _ _ _ Hp) as <-.
    unfold delete_stages in Hlast. simpl in Hlast. injection Hlast as ->.
    rewrite (log_stage_found _ _ _ _ _ _ p Hp). simpl. eauto.
Qed.

Lemma changes_are_logged_witness :
  exists h hs,
    prompt_history
      (serve {| rq_op := Op_set_active 2 "bob"; rq_fault := None;
                rq_clock := Demo.clk |} Demo.db)
    = prompt_history Demo.db ++ h :: hs.
Proof.
  apply (changes_are_logged
           {| rq_op := Op_set_active 2 "bob"; rq_fault := None;
              rq_clock := Demo.clk |} Demo.db demo_primary_key eq_refl eq_refl).
  vm_compute. discriminate.
Defined.

(** * After a delete *)

Lemma serve_inv N r db : inv N (prompts db) -> inv N (prompts (serve r db)).
Proof. intros H. eapply op_stages_inv; [exact H|apply serve_stops]. Qed.

(** X21. A soft delete can be taken back.  Activating a soft-deleted
    version makes it the live version of its name again, with status
    ACTIVE and the content it had: the activation does not look at the
    status ARCHIVED. *)
Theorem soft_delete_then_activate i deleted_by updated_by clk1 clk2 clk' db p :
  primary_key db ->
  (live_count (Prompt.name p) db <= 1)%nat ->
  lookup_prompt i db = Some p ->
  let d1 := serve {| rq_op := Op_delete i deleted_by; rq_fault := None;
                     rq_clock := clk1 |} db in
  let d2 := serve {| rq_op := Op_set_active i updated_by; rq_fault := None;
                     rq_clock := clk2 |} d1 in
  (exists q1, lookup_prompt i d1 = Some q1 /\ Prompt.status q1 = ARCHIVED /\
              Prompt.is_active q1 = false) /\
  exists q,
    read_live_prompt (Prompt.name p) (open_session d2 None clk')
    = Return q (open_session d2 None clk') /\
    Prompt.id q = i /\ Prompt.version q = Prompt.version p /\
    Prompt.content q = Prompt.content p /\ Prompt.status q = ACTIVE.
Proof.
  intros Hpk Hc Hp d1 d2.
  assert (Hinv1 : inv (Prompt.name p) (prompts d1)).
  { apply serve_inv. split; [done|by apply count_unique]. }
  assert (Hl1 : lookup_prompt i d1 = Some (soft_delete_row (clk1 1%nat) p)).
  { pose proof (serve_last (Op_delete i deleted_by) clk1 db) as Hlast.
    fold d1 in Hlast. simpl in Hlast. rewrite Hp in Hlast.
    injection Hlast as ->. pose proof (find_has_id_id _ _ _ Hp) as Hid.
    rewrite lookup_pure_modify, lookup_log_stage, Hp by auto with rows.
    simpl. unfold has_id. by rewrite bool_decide_eq_true_2. }
  split; [by eexists|].
  destruct (activation_live i updated_by clk2 clk' d1
              (soft_delete_row (clk1 1%nat) p) (proj1 Hinv1)
              (unique_count _ _ Hinv1) Hl1)
    as (q & Hrun & Hid & Hv & Hcont & Hst & _).
  exists q. by repeat split.
Qed.

Lemma soft_delete_then_activate_witness :
  exists q,
    read_live_prompt "p"
      (open_session
         (serve {| rq_op := Op_set_active 1 "bob"; rq_fault := None;
                   rq_clock := Demo.clk |}
            (serve {| rq_op := Op_delete 1 "bob"; rq_fault := None;
                      rq_clock := Demo.clk |} Demo.db)) None Demo.clk)
    = Return q
        (open_session
           (serve {| rq_op := Op_set_active 1 "bob"; rq_fault := None;
                     rq_clock := Demo.clk |}
              (serve {| rq_op := Op_delete 1 "bob"; rq_fault := None;
                        rq_clock := Demo.clk |} Demo.db)) None Demo.clk) /\
    Prompt.status q = ACTIVE.
Proof.
  destruct (soft_delete_then_activate 1 "bob" "bob" Demo.clk Demo.clk Demo.clk
              Demo.db Demo.A demo_primary_key) as (_ & q & H1 & _ & _ & _ & H2);
    [vm_compute; lia|reflexivity|].
  exists q. split; [exact H1|exact H2].
Defined.

(** X22. A hard delete that met no fault removes the version from every
    reading path: the endpoint by key and the history endpoint answer
    404, the history listing of the key is empty, and the versions
    listed for its name are the ones listed before without it.  Every
    row of another key is as it was.  (The key of a stored row is a row
    id of SQLite and so of 64 bits; the look-up for any other integer
    is refused by the driver and answered 500.) *)
Theorem hard_delete_then_read i clk clk' db p :
  lookup_prompt i db = Some p ->
  let d' := serve {| rq_op := Op_hard_delete i; rq_fault := None; rq_clock := clk |}
              db in
  let s' := open_session d' None clk' in
  read_prompt i s' = Raise (HTTP (if sqlite_int i then 404 else 500)) s' /\
  api_get_prompt_history i 0 100 s'
  = Raise (HTTP (if sqlite_int i then 404 else 500)) s' /\
  get_prompt_history i 0 100 s' = Return ([], 0%nat) s' /\
  versions_of (Prompt.name p) d'
  = filter (fun q => Prompt.id q <> i) (versions_of (Prompt.name p) db) /\
  forall j, j <> i -> lookup_prompt j d' = lookup_prompt j db.
Proof.
  intros Hp d' s'.
  assert (Hd' : d' = deleted i db).
  { pose proof (serve_last (Op_hard_delete i) clk db) as Hlast.
    fold d' in Hlast. simpl in Hlast. rewrite Hp in Hlast.
    injection Hlast as ->. by rewrite (find_has_id_id _ _ _ Hp). }
  subst s'. rewrite Hd'. clear d' Hd'.
  assert (Hgone : lookup_prompt i (deleted i db) = None).
  { pose proof (lookup_deleted i i db) as H. by rewrite decide_True in H. }
  assert (Hh : history_of i (deleted i db) = []).
  { unfold history_of, deleted. cbn [prompt_history]. apply filter_none.
    intros h Hh. apply list_elem_of_In, list_elem_of_filter in Hh as [Hne _].
    unfold of_prompt. by apply bool_decide_eq_false. }
  split; [|split; [|split; [|split]]].
  - by rewrite read_prompt_run, Hgone.
  - unfold api_get_prompt_history, http_guard, try_except.
    change ((0 <? 0)%Z || (1000 <? 100)%Z) with false. cbv iota beta.
    unfold mbind, M_bind. rewrite get_prompt_run, Hgone.
    by destruct (sqlite_int i).
  - rewrite get_prompt_history_run by reflexivity. by rewrite Hh.
  - unfold versions_of, deleted. cbn [prompts].
    induction (prompts db) as [|a l IH]; [done|].
    rewrite filter_cons. simpl.
    destruct (decide (Prompt.id a <> i)), (has_name (Prompt.name p) a) eqn:Hn;
      simpl; rewrite ?Hn, ?filter_cons, ?decide_True, ?decide_False by done;
      by rewrite IH.
  - intros j Hj. rewrite lookup_deleted. by rewrite decide_False.
Qed.

Lemma hard_delete_then_read_witness :
  read_prompt 1
    (open_session (serve {| rq_op := Op_hard_delete 1; rq_fault := None;
                            rq_clock := Demo.clk |} Demo.db) None Demo.clk)
  = Raise (HTTP 404)
      (open_session (serve {| rq_op := Op_hard_delete 1; rq_fault := None;
                              rq_clock := Demo.clk |} Demo.db) None Demo.clk).
Proof.
  exact (proj1 (hard_delete_then_read 1 Demo.clk Demo.clk Demo.db Demo.A eq_refl)).
Defined.

(** * What an update stores *)

(** The row after the four blocks of [update_prompt]: the requested
    text, except that tags equal as a set to the present ones, and
    metadata equal as a dictionary to the present one, are not
    replaced. *)
Lemma apply_update_text p u :
  let q := apply_update p u p in
  let '(c, d, t, m) := requested_text p u in
  Prompt.content q = c /\ Prompt.description q = d /\
  tag_set (Prompt.tags q) = tag_set t /\
  metadata_value (Prompt.metadata_ q) = metadata_value m.
Proof.
  destruct p as [i n v c d st a t m cb ca ua], u as [[uc|] [ud|] [ut|] [um|]];
    unfold requested_text, apply_update, new_content, new_description, new_tags,
      new_metadata, tracked, assign, compose, metadata_value; simpl;
    try (destruct (py_ne_metadata um m) eqn:Hm;
         [|apply py_ne_metadata_false in Hm as (o & -> & Hm)]); simpl;
    repeat case_bool_decide; simpl; repeat split; try done;
    try (by rewrite Hm);
    match goal with
    | H : ~ (_ <> _) |- _ => by destruct (decide_rel (=) _ _); [|exfalso; auto]
    end.
Qed.

Lemma apply_update_lifecycle p u q :
  lifecycle_columns (apply_update p u q) = lifecycle_columns q /\
  birth_columns (apply_update p u q) = birth_columns q.
Proof.
  destruct q as []. unfold lifecycle_columns, birth_columns, apply_update, assign,
    compose.
  by destruct (new_metadata p u), (new_tags p u), (new_description p u),
    (new_content p u).
Qed.

(** X23. What an update stores.  For an existing prompt and without a
    fault, the update endpoint returns the row as it is committed, and
    that row carries the requested text: each supplied field, and the
    present value of each field left out.  The stored tags may differ
    from supplied ones by order or repetition only, and the stored
    metadata from supplied ones only by a boolean in the place of the
    integer equal to it ([True] and [1], [False] and [0]) or the other
    way round: a supplied value that the comparison of [update_prompt]
    finds equal to the stored one is not written.  Status, live flag,
    id, name, version, author and creation time are those of the row
    before. *)
Theorem update_endpoint_stores i u current_user clk db p :
  lookup_prompt i db = Some p ->
  exists q s',
    api_update_prompt i u current_user (open_session db None clk) = Return q s' /\
    lookup_prompt i (committed s') = Some q /\
    (let '(c, d, t, m) := requested_text p u in
     Prompt.content q = c /\ Prompt.description q = d /\
     tag_set (Prompt.tags q) = tag_set t /\
     metadata_value (Prompt.metadata_ q) = metadata_value m) /\
    lifecycle_columns q = lifecycle_columns p /\
    birth_columns q = birth_columns p.
Proof.
  intros Hp. pose proof (find_has_id_id _ _ _ Hp) as Hid. subst i.
  set (s := open_session db None clk).
  destruct (wp_returns _ _ _ s (update_prompt_stages p u current_user s eq_refl Hp)
              eq_refl) as (q & s' & Hrun & Hlast & Hq).
  exists q, s'. split.
  { unfold api_update_prompt, http_guard, try_except.
    unfold mbind, M_bind. subst s. rewrite get_prompt_run, Hp.
    by rewrite Hrun. }
  split; [done|].
  assert (Hrow : q = apply_update p u p \/
                 exists t, q = Prompt.set_updated_at t (apply_update p u p)).
  { simpl in Hlast. unfold update_stages in Hlast.
    destruct (changes_of p u) eqn:Hch; [|stamp_in Hlast t0 r1];
      simpl in Hlast; injection Hlast as Hc; rewrite Hc in Hq.
    - left. rewrite Hp in Hq. injection Hq as <-.
      unfold changes_of in Hch. rewrite !app_nil, !entry_of_nil in Hch.
      destruct Hch as (Hc1 & Hc2 & Hc3 & Hc4).
      unfold apply_update. by rewrite Hc1, Hc2, Hc3, Hc4.
    - right. exists t0.
      rewrite lookup_log_stage, lookup_pure_modify, Hp in Hq by auto 8 with rows.
      simpl in Hq. unfold has_id in Hq. rewrite bool_decide_eq_true_2 in Hq by done.
      by injection Hq as <-. }
  pose proof (apply_update_text p u) as Ht.
  pose proof (apply_update_lifecycle p u p) as [Hl Hb].
  destruct Hrow as [->|[t ->]]; [done|].
  destruct (apply_update p u p) as []. simpl in *. done.
Qed.

Lemma update_endpoint_stores_witness :
  exists q s',
    api_update_prompt 2 new_text "bob" (open_session Demo.db None Demo.clk)
    = Return q s' /\
    Prompt.content q = "You are a terse assistant.".
Proof.
  destruct (update_endpoint_stores 2 new_text "bob" Demo.clk Demo.db Demo.B eq_refl)
    as (q & s' & H1 & _ & H2 & _).
  exists q, s'. split; [exact H1|]. exact (proj1 H2).
Defined.

(** * Search *)

(** A search reads: whatever it returns or raises, nothing is committed. *)
Lemma search_prompts_reads sql_like sql_ilike tags_json query status tag created_by
    skip limit s :
  committed (final (search_prompts sql_like sql_ilike tags_json query status tag
                      created_by skip limit s)) = committed s.
Proof.
  unfold search_prompts, query_count, query_page, store_call, get_pending, raise.
  unfold mbind, M_bind, mret, M_ret.
  destruct s as [c p [[|[|n]]|] cl r], (sqlite_int skip && sqlite_int limit);
    reflexivity.
Qed.

Lemma search_prompts_run sql_like sql_ilike tags_json query status tag created_by
    skip limit db clk :
  sqlite_int skip = true -> sqlite_int limit = true ->
  let matches :=
    List.filter (search_filter sql_like sql_ilike tags_json query status tag created_by)
      (prompts db) in
  search_prompts sql_like sql_ilike tags_json query status tag created_by skip limit
    (open_session db None clk)
  = Return (offset_limit skip limit (order_by_desc Prompt.updated_at matches),
            length matches)
      (open_session db None clk).
Proof.
  intros H1 H2. unfold search_prompts, query_page. by rewrite H1, H2.
Qed.

(** X24. The search endpoint accepts [limit = 0] and then always answers
    500: the query runs, and the page arithmetic of the response divides
    by [limit].  Nothing is written. *)
Theorem search_limit_zero sql_like sql_ilike tags_json skip query status tag
    created_by f clk db :
  0 <= skip ->
  exists s',
    api_search_prompts sql_like sql_ilike tags_json skip 0 query status tag created_by
      (open_session db f clk) = Raise (HTTP 500) s' /\
    committed s' = db.
Proof.
  intros Hskip. unfold api_search_prompts.
  assert ((skip <? 0)%Z || (1000 <? 0)%Z = false) as ->.
  { apply orb_false_iff. rewrite Z.ltb_ge. split; [lia|done]. }
  unfold try_except, mbind, M_bind.
  pose proof (search_prompts_reads sql_like sql_ilike tags_json (default "" query)
                status tag created_by skip 0 (open_session db f clk)) as Hc.
  destruct (search_prompts _ _ _ _ _ _ _ _ _ _) as [r s'|e s']; simpl in *; eauto.
Qed.

Lemma search_limit_zero_witness :
  exists s',
    api_search_prompts any_text any_text no_json 0 0 None None None None
      (open_session Demo.db None Demo.clk) = Raise (HTTP 500) s' /\
    committed s' = Demo.db.
Proof. apply search_limit_zero. lia. Defined.

(** X25. A page of search results, when no store call fails.  For
    [skip] from 0 and [limit] from 1 to 1000 the endpoint returns rows
    that pass the filters, by falling time of the last update: [limit]
    of them, or as many as are left after [skip].  The total it reports
    counts all matches whatever the page, and the page count is the
    total divided by [limit], rounded up.  A page with items has a page
    number within the page count, and the converse holds when [skip] is
    a multiple of [limit]. *)
Theorem search_page sql_like sql_ilike tags_json skip limit query status tag
    created_by clk db :
  0 <= skip < 2 ^ 63 -> 1 <= limit <= 1000 ->
  let matches :=
    List.filter (search_filter sql_like sql_ilike tags_json (default "" query) status
                   tag created_by) (prompts db) in
  exists resp,
    api_search_prompts sql_like sql_ilike tags_json skip limit query status tag
      created_by (open_session db None clk)
    = Return resp (open_session db None clk) /\
    total resp = Z.of_nat (length matches) /\
    size resp = Z.of_nat (length (items resp)) /\
    size resp = Z.min limit (Z.max 0 (total resp - skip)) /\
    (pages resp - 1) * limit < total resp <= pages resp * limit /\
    (items resp <> [] -> page resp <= pages resp) /\
    (skip `mod` limit = 0 -> page resp <= pages resp -> items resp <> []) /\
    StronglySorted (falling Prompt.updated_at) (items resp) /\
    forall p, In p (items resp) -> In p matches.
Proof.
  intros Hskip Hlimit matches. unfold api_search_prompts.
  assert ((skip <? 0)%Z || (1000 <? limit)%Z = false) as ->.
  { apply orb_false_iff. rewrite !Z.ltb_ge. lia. }
  unfold try_except, mbind, M_bind.
  rewrite search_prompts_run by (apply sqlite_int_spec; lia). fold matches.
  assert ((limit =? 0)%Z = false) as -> by (apply Z.eqb_neq; lia).
  eexists. split; [reflexivity|]. cbn [items total page size pages fst snd].
  set (L := order_by_desc Prompt.updated_at matches).
  assert (Hlen : length (offset_limit skip limit L)
                 = (Z.to_nat limit `min` (length matches - Z.to_nat skip))%nat).
  { rewrite offset_limit_length. unfold L.
    rewrite (Permutation_length (order_by_desc_perm _ _)).
    by rewrite (proj2 (Z.ltb_ge limit 0)) by lia. }
  set (T := Z.of_nat (length matches)) in *.
  pose proof (Z.div_mod (T + limit - 1) limit ltac:(lia)) as Hq.
  pose proof (Z.mod_pos_bound (T + limit - 1) limit ltac:(lia)) as Hr.
  pose proof (Z.div_mod skip limit ltac:(lia)) as Hk.
  pose proof (Z.mod_pos_bound skip limit ltac:(lia)) as Hr'.
  assert (Hne : offset_limit skip limit L <> [] <-> skip < T).
  { destruct (offset_limit skip limit L) eqn:Ho; simpl in Hlen; split; try done; lia. }
  split; [done|]. split; [done|]. split; [rewrite Hlen; lia|].
  split; [nia|]. split; [rewrite Hne; nia|]. split; [rewrite Hne; nia|].
  split; [apply offset_limit_sorted, order_by_desc_sorted|].
  intros p Hp. by apply page_rows in Hp.
Qed.

Lemma search_page_witness :
  exists resp,
    api_search_prompts any_text any_text no_json 0 1 None None None None
      (open_session Demo.db None Demo.clk)
    = Return resp (open_session Demo.db None Demo.clk) /\
    total resp = 2 /\ size resp = 1 /\ pages resp = 2.
Proof.
  destruct (search_page any_text any_text no_json 0 1 None None None None Demo.clk
              Demo.db) as (resp & H1 & H2 & H3 & H4 & H5 & _); [lia|lia|].
  assert (Ht : total resp = 2) by (rewrite H2; reflexivity).
  exists resp. split; [exact H1|]. split; [exact Ht|]. rewrite Ht in H4, H5.
  split; [rewrite H4; reflexivity|lia].
Defined.
